(** * GPWv5 data-preparation scripts: a shallow embedding

    The scripts under [data_prep/] are sequential glue around a desktop GIS
    toolkit.  Everything the toolkit answers (field lists, counts, cursor
    rows, whether a dataset exists) is an input of the model; everything the
    scripts decide (what to log, when to exit, which flag a row gets, which
    query is sent) is a Rocq function translated from the Python text.

    Conventions.
    - Text is [string]; field names and codes are ASCII, case conversion and
      character classes act on the ASCII range and leave other bytes alone.
    - A Python [set] is a [gset], a [dict] a [gmap].
    - A nullable LONG/SHORT column is [option Z]; an area (a float that is
      only ever compared) is a rational [Q].
    - Logging and toolkit calls are recorded in a trace; [sys.exit] and
      uncaught exceptions end the computation. *)

From Stdlib Require Import ZArith QArith String Ascii List Lia.
From stdpp Require Import base option list gmap sets strings pretty.

Local Open Scope string_scope.
Local Open Scope list_scope.
Local Open Scope Z_scope.

(** ** Python text primitives *)

Module PyStr.

Definition lower_char (c : ascii) : ascii :=
  let n := N_of_ascii c in
  if ((65 <=? n) && (n <=? 90))%N then ascii_of_N (n + 32) else c.

Definition upper_char (c : ascii) : ascii :=
  let n := N_of_ascii c in
  if ((97 <=? n) && (n <=? 122))%N then ascii_of_N (n - 32) else c.

Fixpoint map_chars (f : ascii → ascii) (s : string) : string :=
  match s with
  | EmptyString => EmptyString
  | String c r => String (f c) (map_chars f r)
  end.

(** [str.lower()] and [str.upper()] *)
Definition lower : string → string := map_chars lower_char.
Definition upper : string → string := map_chars upper_char.

(** [c.isdigit()] for one character *)
Definition isdigit_char (c : ascii) : bool :=
  let n := N_of_ascii c in ((48 <=? n) && (n <=? 57))%N.

(** Python's whitespace in the ASCII range: TAB..CR, FS..US and space. *)
Definition isspace_char (c : ascii) : bool :=
  let n := N_of_ascii c in
  (((9 <=? n) && (n <=? 13)) || ((28 <=? n) && (n <=? 32)))%N.

Fixpoint lstrip (s : string) : string :=
  match s with
  | String c r => if isspace_char c then lstrip r else s
  | EmptyString => EmptyString
  end.

(** [rstrip] keeps a character when it is not a space or when something
    survives to its right. *)
Fixpoint rstrip (s : string) : string :=
  match s with
  | EmptyString => EmptyString
  | String c r =>
      match rstrip r with
      | EmptyString => if isspace_char c then EmptyString else String c EmptyString
      | r' => String c r'
      end
  end.

(** [str.strip()] *)
Definition strip (s : string) : string := rstrip (lstrip s).

(** [s[:1]]: the first character as a string, or the empty string. *)
Definition first1 (s : string) : string :=
  match s with
  | String c _ => String c EmptyString
  | EmptyString => EmptyString
  end.

(** [s.isdigit()]: non-empty and every character a digit. *)
Fixpoint all_digits (s : string) : bool :=
  match s with
  | EmptyString => true
  | String c r => isdigit_char c && all_digits r
  end.

Definition isdigit (s : string) : bool :=
  match s with
  | EmptyString => false
  | _ => all_digits s
  end.

(** [s.rfind(c)]: index of the last occurrence of the character, or -1. *)
Fixpoint rfind_from (c : ascii) (s : string) (i : Z) (last : Z) : Z :=
  match s with
  | EmptyString => last
  | String d r => rfind_from c r (i + 1)%Z (if Ascii.eqb d c then i else last)
  end.

Definition rfind (c : ascii) (s : string) : Z := rfind_from c s 0 (-1).

Definition len (s : string) : Z := Z.of_nat (String.length s).

(** Slice bounds as Python normalises them: a negative index counts from
    the end, and the result is clamped to [0, len]. *)
Definition norm_index (s : string) (i : Z) : nat :=
  let n := len s in
  let j := if (i <? 0)%Z then (i + n)%Z else i in
  Z.to_nat (Z.max 0 (Z.min n j)).

(** [s[:i]] and [s[i:]] *)
Definition slice_to (s : string) (i : Z) : string :=
  String.substring 0 (norm_index s i) s.

Definition slice_from (s : string) (i : Z) : string :=
  let k := norm_index s i in
  String.substring k (String.length s - k) s.

(** [sub in s] *)
Fixpoint contains (sub s : string) : bool :=
  String.prefix sub s ||
  match s with
  | EmptyString => false
  | String _ r => contains sub r
  end.

End PyStr.

(** ** Trace and control effects *)

Inductive level := Message | Warning | Error.

(** A value interpolated into an f-string or handed to the toolkit. *)
Inductive value :=
  | VStr (s : string)
  | VInt (z : Z)
  | VNum (q : Q)
  | VNames (l : list string)
  | VRenames (l : list (string * string)).

(** [Log lv fmt args] is [arcpy.Add<lv>(f"...")], the f-string written with
    a [{}] hole for every interpolated expression; [Tool name args] is a
    call into the toolkit that changes data. *)
Inductive event :=
  | Log (lv : level) (fmt : string) (args : list value)
  | Tool (name : string) (args : list value).

#[global] Instance Q_eq_dec : EqDecision Q.
Proof. solve_decision. Defined.
#[global] Instance level_eq_dec : EqDecision level.
Proof. solve_decision. Defined.
#[global] Instance value_eq_dec : EqDecision value.
Proof. solve_decision. Defined.
#[global] Instance event_eq_dec : EqDecision event.
Proof. solve_decision. Defined.

Inductive outcome (A : Type) :=
  | Ret (a : A)
  | SysExit (code : Z)
  | Raise (exn : string).
Arguments Ret {A} a.
Arguments SysExit {A} code.
Arguments Raise {A} exn.

(** A script step: the events it emitted, in order, and how it ended. *)
Definition M (A : Type) : Type := list event * outcome A.

Definition ret {A} (a : A) : M A := ([], Ret a).

Definition bind {A B} (m : M A) (k : A → M B) : M B :=
  match m with
  | (t, Ret a) => let '(t', r) := k a in (t ++ t', r)
  | (t, SysExit c) => (t, SysExit c)
  | (t, Raise e) => (t, Raise e)
  end.

Definition emit (e : event) : M unit := ([e], Ret tt).
Definition exit {A} (code : Z) : M A := ([], SysExit code).
Definition raise {A} (exn : string) : M A := ([], Raise exn).

Definition AddMessage (fmt : string) (args : list value) : M unit :=
  emit (Log Message fmt args).
Definition AddWarning (fmt : string) (args : list value) : M unit :=
  emit (Log Warning fmt args).
Definition AddError (fmt : string) (args : list value) : M unit :=
  emit (Log Error fmt args).
Definition tool (name : string) (args : list value) : M unit :=
  emit (Tool name args).

(** The steps of a script are sequenced with stdpp's monad notation:
    [x ← m; k] and [m;; k]. *)
#[global] Instance M_ret : MRet M := @ret.
#[global] Instance M_bind : MBind M := λ A B k m, bind m k.

Definition trace {A} (m : M A) : list event := fst m.
Definition result {A} (m : M A) : outcome A := snd m.

(** [when b m]: an [if] without [else]. *)
Definition when (b : bool) (m : M unit) : M unit := if b then m else ret tt.

(** A tool call that happened somewhere in the trace. *)
Definition called (name : string) (t : list event) : bool :=
  existsb (fun e => match e with Tool n _ => String.eqb n name | _ => false end) t.

(** The script ended through [sys.exit(1)]. *)
Definition exited1 {A} (m : M A) : bool :=
  match result m with SysExit 1 => true | _ => false end.

(** [for x in l: ...] with a loop-carried state. *)
Fixpoint for_each {A S} (l : list A) (s : S) (body : S → A → M S) : M S :=
  match l with
  | [] => mret s
  | x :: r => s' ← body s x; for_each r s' body
  end.

(** Truth value of a nullable integer: [None] and [0] are falsy. *)
Definition truthy (v : option Z) : bool :=
  match v with
  | Some z => negb (z =? 0)
  | None => false
  end.

(** ** check_input_boundaries.py: ISO code and field names *)

Definition ISOS_TO_CHANGE : gmap string string :=
  <["and" := "adr"]> (<["vat" := "vcs"]> ∅).

Definition BAD_ISOS : gset string := dom ISOS_TO_CHANGE.

Definition RESERVED_WORDS_FILE : string :=
  "\\dataserver1\GPW\GPW5\Scripts\Ingest\reference_data\reserved_words.txt".

(** [check_iso_code].  The result is what [dict.get] hands back, so it is an
    [option]: [None] would be Python's [None]. *)
Definition check_iso_code (iso : string) : option string :=
  let iso := PyStr.lower iso in
  if decide (iso ∈ BAD_ISOS) then ISOS_TO_CHANGE !! iso else Some iso.

(** What opening and reading the network file gives: the lines the loop
    got, and whether the read ended in [IOError].  The error can come from
    [open], with no line read, or in the middle of the iteration. *)
Record reading := mk_reading {
  lines_read : list string;
  io_error : bool
}.

(** [_read_reserved_words].  The words are added inside the [try], so the
    ones read before an [IOError] stay in the set that is returned. *)
Definition _read_reserved_words (file : reading) : M (gset string) :=
  AddMessage "Reading in reserved keywords." [];;
  let reserved_words :=
    foldl (λ (words : gset string) line, words ∪ {[PyStr.strip line]}) ∅
      (lines_read file) in
  when (io_error file)
    (AddWarning "Unable to read list of reserved keywords, field names cannot be checked!" [];;
     AddMessage "Tried to read words from file: " [];;
     AddMessage "{}" [VStr RESERVED_WORDS_FILE]);;
  mret reserved_words.

(** Second loop of [check_fields]: a leading digit or underscore. *)
Definition edge_case (changed_names : gmap string string) (fld : string)
  : gmap string string :=
  if PyStr.isdigit (PyStr.first1 fld) then <[fld := "t_" +:+ fld]> changed_names
  else if String.eqb (PyStr.first1 fld) "_" then <[fld := "t" +:+ fld]> changed_names
  else changed_names.

(** [check_fields]; [names] is [[fld.name for fld in arcpy.ListFields(fc)]]. *)
Definition check_fields (file : reading) (names : list string)
  : M (gmap string string) :=
  reserved_words ← _read_reserved_words file;
  let flds := PyStr.upper <$> names in
  AddMessage "Checking feature class field names: \n{}" [VNames flds];;
  changed_names ← for_each flds (∅ : gmap string string) (λ changed_names fld,
    if decide (fld ∈ reserved_words) then
      AddMessage "Field {} is a reserved name, adding an underscore." [VStr fld];;
      mret (<[fld := fld +:+ "_"]> changed_names)
    else mret changed_names);
  AddMessage "Checking for edge cases: digit or underscore starting a field." [];;
  mret (foldl edge_case changed_names flds).

(** ** check_eliminate_output.py *)

(** [check_counts]; the two field lists and the two counts are what
    [ListFields] and [GetCount] answer for [updated] and [orig]. *)
Definition check_counts (flds_update flds_orig : list string)
    (elim_count orig_count : Z) : M unit :=
  let mismatch : gset string := list_to_set flds_orig ∖ list_to_set flds_update in
  let mismatch := if decide ("gap" ∈ mismatch) then mismatch ∖ {["gap"]} else mismatch in
  let mismatch := if decide ("overlap" ∈ mismatch) then mismatch ∖ {["overlap"]} else mismatch in
  (if decide (0 < size mismatch)%nat then
     AddWarning "Missing fields in output feature class: " [];;
     AddWarning "{}" [VNames (elements mismatch)]
   else AddMessage "Input and output fields match." []);;
  if orig_count =? elim_count then
    AddMessage "Feature counts match, {} polygons in original, {} in updated"
      [VInt orig_count; VInt elim_count]
  else if orig_count >? elim_count then
    AddWarning "Feature count mismatch! The original feature class has {} more polygons than the updated."
      [VInt (orig_count - elim_count)]
  else if orig_count <? elim_count then
    AddWarning "Feature count mismatch! The updated feature class has {} more polygons than the original."
      [VInt (elim_count - orig_count)]
  else mret tt.

(** The field-mismatch warning of [check_counts] was issued. *)
Definition warns_missing_fields (m : M unit) : bool :=
  bool_decide (Log Warning "Missing fields in output feature class: " [] ∈ trace m).

(** ** check_input_boundaries.py: gaps and overlaps in the union *)

(** One record of the unioned feature class, with the columns the script
    reads or writes.  [OBJECTID] is the geodatabase row id; [AREA_SQKM] is
    the value [CalculateGeometryAttributes] stored. *)
Record row := mk_row {
  OBJECTID : Z;
  union_uid : option Z;
  AREA_SQKM : Q;
  overlaps_fld : option Z;
  gaps_fld : option Z
}.

#[global] Instance row_eq_dec : EqDecision row.
Proof. solve_decision. Defined.

Definition set_overlaps (r : row) (v : Z) : row :=
  {| OBJECTID := OBJECTID r; union_uid := union_uid r; AREA_SQKM := AREA_SQKM r;
     overlaps_fld := Some v; gaps_fld := gaps_fld r |}.

Definition set_gaps (r : row) (v : Z) : row :=
  {| OBJECTID := OBJECTID r; union_uid := union_uid r; AREA_SQKM := AREA_SQKM r;
     overlaps_fld := overlaps_fld r; gaps_fld := Some v |}.

(** [int(x)] on a nullable integer column: [int(None)] raises. *)
Definition py_int (v : option Z) : M Z :=
  match v with
  | Some z => mret z
  | None => raise "TypeError"
  end.

(** [a > b] on areas *)
Definition Qgt_bool (a b : Q) : bool := negb (Qle_bool a b).

(** [with UpdateCursor(...) as rows: for row in rows: ...; rows.updateRow(row)] *)
Fixpoint update_cursor (rows : list row) (body : row → M row) : M (list row) :=
  match rows with
  | [] => mret []
  | r :: rest => r' ← body r; rest' ← update_cursor rest body; mret (r' :: rest')
  end.

(** Lines 203-209: count the gaps and collect the non-null ids. *)
Definition count_pass (rows : list row) : M (Z * list Z) :=
  for_each rows (0, []) (λ '(gaps, uids) r,
    if negb (truthy (union_uid r)) then mret (gaps + 1, uids)
    else id ← py_int (union_uid r); mret (gaps, uids ++ [id])).

(** Line 227-228: the ids seen more than once.  [visited.add(x)] returns
    [None], so [x] enters the result exactly when it was visited before. *)
Definition dupes_of (uids : list Z) : gset Z :=
  snd (foldl (λ '(visited, dupes) x,
                if decide (x ∈ visited) then (visited, dupes ∪ {[x]})
                else (visited ∪ {[x]}, dupes))
             ((∅ : gset Z), (∅ : gset Z)) uids).

(** Lines 237-246, the body of the size scan: the row id is tested where
    the comment speaks of the unique id ("gaps have no id"). *)
Definition size_step (dupes : gset Z) (overlap_sizes : gmap Z (Q * Z)) (r : row)
  : M (gmap Z (Q * Z)) :=
  if negb (OBJECTID r =? 0) then
    let oid := OBJECTID r in
    id ← py_int (union_uid r);
    let area := AREA_SQKM r in
    if decide (id ∈ dupes) then
      match overlap_sizes !! id with
      | Some (largest, _) =>
          if Qgt_bool area largest then mret (<[id := (area, oid)]> overlap_sizes)
          else mret overlap_sizes
      | None => raise "KeyError"
      end
    else mret overlap_sizes
  else mret overlap_sizes.

(** Lines 234-246: per duplicated id, the largest area seen and its row. *)
Definition size_scan (dupes : gset Z) (rows : list row) : M (gmap Z (Q * Z)) :=
  for_each rows (gset_to_gmap (0%Q, 0) dupes) (size_step dupes).

(** Line 249 *)
Definition main_polys (overlap_sizes : gmap Z (Q * Z)) : gset Z :=
  list_to_set ((λ kv, snd (snd kv)) <$> map_to_list overlap_sizes).

(** Lines 258-267, the body of the overlap update. *)
Definition overlap_flag_row (dupes main_overlap_polys : gset Z) (r : row) : M row :=
  let oid := OBJECTID r in
  id ← py_int (union_uid r);
  if decide (id ∈ dupes) then
    if decide (oid ∈ main_overlap_polys) then mret (set_overlaps r 2)
    else mret (set_overlaps r 1)
  else mret (set_overlaps r 0).

(** Lines 256-268 *)
Definition flag_overlaps (dupes main_overlap_polys : gset Z) (rows : list row)
  : M (list row) :=
  update_cursor rows (overlap_flag_row dupes main_overlap_polys).

(** Lines 274-280 *)
Definition flag_gaps (rows : list row) : M (list row) :=
  update_cursor rows (λ r,
    if negb (truthy (union_uid r)) then mret (set_gaps r 1)
    else mret (set_gaps r 0)).

(** [overlap_gap_analysis].  [original_count] is [GetCount(fc)], [fields] and
    [rows] are the field names and the records of the feature class the
    toolkit's [Union] produced.  The result carries the records as the
    update cursors left them.  [flds] is bound in Python only when a gap or
    an overlap was counted, which is the only place where it is read. *)
Definition overlap_gap_analysis (fc : string) (original_count : Z)
    (fields : list string) (rows : list row) : M (string * list row * Z * Z) :=
  AddMessage "Creating and populating unique ID field" [];;
  tool "management.AddField" [VStr fc; VStr "union_uid"; VStr "LONG"];;
  tool "da.UpdateCursor" [VStr fc; VStr "union_uid"];;
  AddMessage "Running Union operation." [];;
  let fc_union := fc +:+ "_union" in
  tool "analysis.Union" [VStr fc; VStr fc_union; VStr "NO_GAPS"];;
  AddMessage "created {}" [VStr fc_union];;
  let post_union_count := Z.of_nat (length rows) in
  if negb (post_union_count >? original_count) then
    AddMessage "No overlaps or gaps found!" [];;
    mret (fc_union, rows, 0, 0)
  else
    AddMessage "{} overlaps and/or gaps in input feature class"
      [VInt (post_union_count - original_count)];;
    AddMessage "Counting overlaps and gaps." [];;
    '(gaps, uids) ← count_pass rows;
    let overlaps := Z.of_nat (length uids) - original_count in
    AddMessage "Found {} gaps and {} overlaps." [VInt gaps; VInt overlaps];;
    let flds := PyStr.lower <$> fields in
    when (negb (overlaps =? 0) || negb (gaps =? 0))
      (tool "management.CalculateGeometryAttributes"
         [VStr fc_union; VStr "AREA_SQKM"; VStr "AREA_GEODESIC"; VStr "SQUARE_KILOMETERS"]);;
    rows ← (if overlaps >? 0 then
      AddMessage "Flagging overlaps in union of the boundaries." [];;
      let dupes := dupes_of uids in
      when (negb (bool_decide ("overlaps" ∈ flds)))
        (tool "management.AddField" [VStr fc_union; VStr "overlaps"; VStr "SHORT"]);;
      AddMessage "Checking overlap sizes..." [];;
      overlap_sizes ← size_scan dupes rows;
      let main_overlap_polys := main_polys overlap_sizes in
      (if negb (size main_overlap_polys =? size dupes)%nat then
         AddWarning "Not all overlap polygons were matched with a central (main) polygon." [];;
         AddWarning "Overlaps should be manually reviewed." []
       else AddMessage "Main (central) overlap polygons identified" []);;
      AddMessage "Updating union feature class to flag overlaps (1) and central polys (2)." [];;
      flag_overlaps dupes main_overlap_polys rows
    else mret rows);
    rows ← (if gaps >? 0 then
      AddMessage "Flagging gaps in union of the boundaries." [];;
      when (negb (bool_decide ("gaps" ∈ flds)))
        (tool "management.AddField" [VStr fc_union; VStr "gaps"; VStr "SHORT"]);;
      flag_gaps rows
    else mret rows);
    mret (fc_union, rows, gaps, overlaps).

(** [calculate_gap_overlap_stats] is called with a list of field names in
    one place and with a bare string in two others. *)
Inductive fields_arg :=
  | FieldList (l : list string)
  | FieldStr (s : string).

(** The flag column a cursor field name denotes. *)
Definition flag_column (fld : string) (r : row) : option Z :=
  if String.eqb fld "gaps" then gaps_fld r
  else if String.eqb fld "overlaps" then overlaps_fld r
  else None.

(** [areas[fld].append(a)] on a [defaultdict(list)], insertion order kept. *)
Fixpoint areas_append (areas : list (string * list Q)) (fld : string) (a : Q)
  : list (string * list Q) :=
  match areas with
  | [] => [(fld, [a])]
  | (k, v) :: rest =>
      if String.eqb k fld then (k, v ++ [a]) :: rest
      else (k, v) :: areas_append rest fld a
  end.

Definition Qsum (l : list Q) : Q := foldl Qplus 0%Q l.
Definition Qmax_list (l : list Q) : Q :=
  match l with
  | [] => 0%Q
  | x :: r => foldl (λ m y, if Qgt_bool y m then y else m) x r
  end.
Definition average (l : list Q) : Q :=
  (Qsum l / inject_Z (Z.of_nat (length l)))%Q.

(** [calculate_gap_overlap_stats]; sums and means are taken in [Q]. *)
Definition calculate_gap_overlap_stats (rows : list row) (check_fields : fields_arg)
  : M (list (string * Q)) :=
  match check_fields with
  | FieldStr _ => raise "AttributeError"
  | FieldList check_fields =>
      '(areas, poly_area) ← for_each rows ([], 0%Q) (λ st r,
        for_each check_fields st (λ '(areas, poly_area) fld,
          flag ← py_int (flag_column fld r);
          if flag =? 1 then mret (areas_append areas fld (AREA_SQKM r), poly_area)
          else mret (areas, (poly_area + AREA_SQKM r)%Q)));
      mret (("average unit area excluding gaps and overlaps", poly_area)
            :: concat ((λ '(key, value),
                 [(key +:+ " max area", Qmax_list value);
                  (key +:+ " mean area", average value)]) <$> areas))
  end.

(** ** check_input_boundaries.py: geometry, projection, copy and main *)

(** What the toolkit answers during one run of the script. *)
Record world := mk_world {
  fc_exists : bool;                        (* arcpy.Exists(input_features) *)
  ows_abs : string;                        (* Path(ows).absolute().as_posix() *)
  gdb_exists : bool;                       (* arcpy.Exists(ows\out_gdb) *)
  reserved_file : reading;                 (* reading the reserved-words file *)
  field_names : list string;               (* ListFields(input_features) *)
  sr_name : string;                        (* desc spatialReference .name *)
  sr_type : string;                        (* .type *)
  datumCode : Z;
  spheroidCode : Z;
  extent : string;
  geometry_errors : Z;                     (* GetCount of the CheckGeometry table *)
  shapeType : string;
  copy_count : Z;                          (* GetCount of the working copy *)
  union_fields : list string;              (* ListFields of the union *)
  union_rows : list row                    (* records of the union *)
}.

(** [str(x)] of a value that may be [None] *)
Definition py_str (o : option string) : string := default "None" o.

(** Truth value of [None] / [True] / [False] *)
Definition is_true (o : option bool) : bool := default false o.

Definition _check_input_params (w : world) (fc ows : string) (iso : option string)
  : M string :=
  (if negb (fc_exists w) then
     AddError "Input feature class {} not found!" [VStr fc];;
     AddError "Please check your inputs and try again." [];;
     exit 1
   else mret tt);;
  AddMessage "Creating output path." [];;
  tool "Path.mkdir" [VStr ows];;
  AddMessage "Creating output Geodatabase (if it doesn't exist)." [];;
  let out_gdb := py_str iso +:+ "_ingest.gdb" in
  let ows := ows_abs w in
  when (negb (gdb_exists w)) (tool "management.CreateFileGDB" [VStr ows; VStr out_gdb]);;
  mret (ows +:+ "\" +:+ out_gdb).

Definition check_geometry (w : world) (fc : string)
  : M (option bool * option bool * option bool) :=
  AddMessage "Checking spatial reference..." [];;
  if String.eqb (sr_name w) "Unknown" then
    AddWarning "Spatial reference is NOT defined!" [];;
    AddMessage "Spatial extent is: {}" [VStr (extent w)];;
    mret (None, None, Some false)
  else
    AddMessage "{}" [VStr (sr_name w)];;
    AddMessage "Checking geometry..." [];;
    tool "CheckGeometry_management" [VStr fc; VStr "memory\check_geom"];;
    let cnt := geometry_errors w in
    AddMessage "{} geometry errors identified." [VInt cnt];;
    let repair_geometry := if cnt >? 0 then Some true else None in
    tool "Delete_management" [VStr "memory\check_geom"];;
    AddMessage "Checking geometry type..." [];;
    let shape_type := shapeType w in
    if negb (bool_decide (shape_type ∈ ["Polygon"; "MultiPatch"])) then
      AddWarning "Input feature class has {} geometry, not Polygon!" [VStr shape_type];;
      if String.eqb shape_type "MultiPatch"
      then mret (repair_geometry, Some true, Some true)
      else mret (repair_geometry, Some false, Some true)
    else mret (repair_geometry, Some true, Some true).

Definition check_srs (w : world) : M (bool * bool) :=
  let isGeo := String.eqb (sr_type w) "Geographic" in
  let wgs84 := (datumCode w =? 6326) || (spheroidCode w =? 7030) in
  when (negb (isGeo && wgs84))
    (AddWarning "Coordinate system is not Geographic (WGS84), copied feature class will be projected to match" []);;
  mret (isGeo, wgs84).

(** [make_copy]; [out_sr] says whether a target spatial reference was
    passed.  The renames are issued in the order of the map's listing. *)
Definition make_copy (fc out_ws : string) (iso : option string) (out_sr : bool)
    (field_mapping : option (gmap string string)) : M string :=
  when out_sr
    (AddWarning "Output coordinate system is different than input" [];;
     AddWarning "Check alignment of output features against known reference source." []);;
  let out_fc := py_str iso +:+ "_ingest" in
  AddMessage "Creating working copy of feature class." [];;
  tool "management.CopyFeatures" [VStr fc; VStr (out_ws +:+ "\" +:+ out_fc)];;
  match field_mapping with
  | Some fm =>
      when (negb (bool_decide (fm = ∅)))
        (AddMessage "Renaming fields." [];;
         for_each (map_to_list fm) tt (λ _ '(key, value),
           tool "management.AlterField" [VStr out_fc; VStr key; VStr value]))
  | None => mret tt
  end;;
  mret (out_ws +:+ "\" +:+ out_fc).

Record args := mk_args {
  input_features : string;
  iso : string;
  out_folder : string;
  check_iso : bool
}.

(** The script body under [if __name__ == '__main__'], in two parts: the
    checks of lines 337-380 ... *)
Definition main_checks (a : args) (w : world)
  : M (option string * string * gmap string string * option bool * option bool * bool) :=
  iso ← (if check_iso a then
           AddMessage "Checking ISO code..." [];;
           mret (check_iso_code (iso a))
         else mret (Some (PyStr.lower (iso a))));
  AddMessage "Checking input params..." [];;
  ws ← _check_input_params w (input_features a) (out_folder a) iso;
  AddMessage "Checking field names..." [];;
  updated_names ← check_fields (reserved_file w) (field_names w);
  when (negb (bool_decide (updated_names = ∅)))
    (AddMessage "Found fields with reserved words in their names," [];;
     AddMessage "output feature class will have updated names." [];;
     AddMessage "Fields to be changed and the new names are:" [];;
     AddMessage "{}" [VRenames (map_to_list updated_names)];;
     AddMessage "Field names will be renamed in a copy of the feature class." []);;
  AddMessage "Checking geometry..." [];;
  '(repair, topo, has_proj) ← check_geometry w (input_features a);
  (if negb (is_true has_proj) then
     AddError "Projection information is missing." [];;
     AddError "Please investigate and define a projection for the feature class!" [];;
     AddError "Exiting without completing script." [];;
     exit 1
   else mret tt);;
  '(isGeo, wgs84) ← check_srs w;
  let sr := negb (isGeo && wgs84) in
  (if negb (is_true topo) then
     AddError "Input feature class does not contain polygons, please check input!" [];;
     exit 1
   else mret tt);;
  mret (iso, ws, updated_names, repair, topo, sr).

(** ... and the processing of lines 382-407. *)
Definition main_process (a : args) (w : world)
    (c : option string * string * gmap string string * option bool * option bool * bool)
  : M unit :=
  let '(iso, ws, updated_names, repair, topo, sr) := c in
  AddMessage "Making a copy of the feature class to edit." [];;
  fc_copy ← (if negb (bool_decide (updated_names = ∅))
             then make_copy (input_features a) ws iso sr (Some updated_names)
             else make_copy (input_features a) ws iso sr None);
  when (is_true repair)
    (AddWarning "Repairing geometry for {}." [VStr fc_copy];;
     tool "RepairGeometry_management" [VStr fc_copy]);;
  if is_true topo then
    '(fc_unioned, rows, gap_count, overlap_count) ←
      overlap_gap_analysis fc_copy (copy_count w) (union_fields w) (union_rows w);
    topo_stats ← (if (gap_count >? 0) && (overlap_count >? 0) then
                    calculate_gap_overlap_stats rows (FieldList ["gaps"; "overlaps"])
                  else if gap_count >? 0 then
                    calculate_gap_overlap_stats rows (FieldStr "gaps")
                  else if overlap_count >? 0 then
                    calculate_gap_overlap_stats rows (FieldStr "overlaps")
                  else
                    AddMessage "Overlap and Gap statistics:" [];;
                    raise "NameError");
    AddMessage "Overlap and Gap statistics:" [];;
    for_each topo_stats tt (λ _ '(key, value),
      AddMessage "{}: {:,.4f} square km" [VStr key; VNum value])
  else
    AddMessage "No gaps or overlaps found in feature class. " [].

Definition main (a : args) (w : world) : M unit :=
  c ← main_checks a w; main_process a w c.

(** ** eliminate_gaps_overlaps.py *)

(** The where clauses the script writes, as syntax.  [render] gives the text
    sent to the toolkit; [holds] is the toolkit's reading of it, with SQL's
    three truth values ([None] is UNKNOWN, which a selection leaves out). *)
Inductive cond :=
  | Eq (column : string) (z : Z)
  | Lt (column : string) (literal : string)
  | And (a b : cond)
  | Or (a b : cond)
  | Paren (a : cond).

Fixpoint render (c : cond) : string :=
  match c with
  | Eq column z => column +:+ " = " +:+ pretty z
  | Lt column literal => column +:+ " < " +:+ literal
  | And a b => render a +:+ " AND " +:+ render b
  | Or a b => render a +:+ " OR " +:+ render b
  | Paren a => "(" +:+ render a +:+ ")"
  end.

(** How a threshold text is read.  The text is spliced into the where
    clause and it is the toolkit, with the SQL dialect of the data source,
    that reads it: the model takes that reading as an input, [numeric], which
    gives the number a numeric literal denotes and [None] for any other
    text.  [number_literal] is one such reading, used in the sample runs:
    decimal literals, that is digits, optionally a point and more digits. *)
Fixpoint digits_value (s : string) (acc : Z) : option Z :=
  match s with
  | EmptyString => Some acc
  | String c r =>
      if PyStr.isdigit_char c
      then digits_value r (10 * acc + (Z.of_N (N_of_ascii c) - 48))
      else None
  end.

Fixpoint split_point (s : string) : string * option string :=
  match s with
  | EmptyString => (EmptyString, None)
  | String c r =>
      if Ascii.eqb c "." then (EmptyString, Some r)
      else let '(i, f) := split_point r in (String c i, f)
  end.

Definition number_literal (s : string) : option Q :=
  let '(i, f) := split_point s in
  match i with
  | EmptyString => None
  | _ =>
      iv ← digits_value i 0;
      match f with
      | None => Some (inject_Z iv)
      | Some f =>
          fv ← digits_value f 0;
          let scale := 10 ^ Z.of_nat (String.length f) in
          Some (Qmake (iv * scale + fv) (Z.to_pos scale))
      end
  end.

Definition and3 (a b : option bool) : option bool :=
  match a, b with
  | Some false, _ | _, Some false => Some false
  | Some true, Some true => Some true
  | _, _ => None
  end.

Definition or3 (a b : option bool) : option bool :=
  match a, b with
  | Some true, _ | _, Some true => Some true
  | Some false, Some false => Some false
  | _, _ => None
  end.

(** [well_formed numeric flds c]: every column the clause names is in the
    table and every literal is a number; the toolkit rejects any other
    expression. *)
Fixpoint well_formed (numeric : string → option Q) (flds : list string) (c : cond)
  : bool :=
  match c with
  | Eq column _ =>
      bool_decide (column ∈ flds) && bool_decide (column ∈ ["gaps"; "overlaps"])
  | Lt column literal =>
      String.eqb column "AREA_SQKM" && bool_decide (column ∈ flds)
      && bool_decide (is_Some (numeric literal))
  | And a b | Or a b => well_formed numeric flds a && well_formed numeric flds b
  | Paren a => well_formed numeric flds a
  end.

(** The truth value of a clause on one record. *)
Fixpoint holds (numeric : string → option Q) (r : row) (c : cond) : option bool :=
  match c with
  | Eq column z => (λ v, v =? z) <$> flag_column column r
  | Lt column literal =>
      (λ m, negb (Qle_bool m (AREA_SQKM r))) <$> numeric literal
  | And a b => and3 (holds numeric r a) (holds numeric r b)
  | Or a b => or3 (holds numeric r a) (holds numeric r b)
  | Paren a => holds numeric r a
  end.

(** The records a where clause selects, when the toolkit accepts it. *)
Definition select_where (numeric : string → option Q) (flds : list string)
    (c : cond) (rows : list row) : option (list row) :=
  if well_formed numeric flds c
  then Some (List.filter (λ r, bool_decide (holds numeric r c = Some true)) rows)
  else None.

(** A feature layer: the records of its feature class and those selected
    in it.  A tool given the layer works on the selected records. *)
Record feature_layer := mk_feature_layer {
  table_rows : list row;
  selected : list row
}.

(** [MakeFeatureLayer_management(fc, name)]: a layer with every record. *)
Definition MakeFeatureLayer_management (fc name : string) (rows : list row)
  : M feature_layer :=
  tool "MakeFeatureLayer_management" [VStr fc; VStr name];;
  mret (mk_feature_layer rows rows).

(** [SelectLayerByAttribute_management(lyr, 'NEW_SELECTION', where)]: the
    selection of the layer is replaced; a where clause the toolkit rejects
    raises its [ExecuteError]. *)
Definition SelectLayerByAttribute_management (numeric : string → option Q)
    (flds : list string) (lyr : feature_layer) (where_ : cond) : M feature_layer :=
  tool "SelectLayerByAttribute_management"
    [VStr "lyr"; VStr "NEW_SELECTION"; VStr (render where_)];;
  match select_where numeric flds where_ (table_rows lyr) with
  | None => raise "ExecuteError"
  | Some selection => mret (mk_feature_layer (table_rows lyr) selection)
  end.

(** [management.Eliminate(lyr, out_fc)]; the result is the records it is
    invoked on, those selected in the layer when it is called. *)
Definition Eliminate (lyr : feature_layer) (out_fc : string) : M (list row) :=
  tool "management.Eliminate" [VStr "lyr"; VStr out_fc];;
  mret (selected lyr).

Definition check_fc (in_fc : string) (flds : list string) : M (bool * bool) :=
  when (negb (bool_decide ("AREA_SQKM" ∈ flds)))
    (AddError "Field AREA_SQKM is required and cannot be found in {}" [VStr in_fc]);;
  let gaps := bool_decide ("gaps" ∈ flds) in
  let overlaps := bool_decide ("overlaps" ∈ flds) in
  if negb (gaps || overlaps) then
    AddError "No overlap or gap field found in {}" [VStr in_fc];;
    exit 1
  else mret (gaps, overlaps).

(** [run_eliminate]; the result is what [Eliminate] was invoked on. *)
Definition run_eliminate (numeric : string → option Q) (flds : list string)
    (rows : list row) (fc : string) (where_ : cond) : M (list row) :=
  lyr ← MakeFeatureLayer_management fc "lyr" rows;
  lyr ← SelectLayerByAttribute_management numeric flds lyr where_;
  let out_fc := fc +:+ "_elim" in
  Eliminate lyr out_fc.

(** The three f-strings of the script body, as text ... *)
Definition query_text (g o : bool) (max_area : string) : option string :=
  if g && o then Some ("(gaps = 1 OR overlaps = 1) AND AREA_SQKM < " +:+ max_area)
  else if g then Some ("gaps = 1 AND AREA_SQKM < " +:+ max_area)
  else if o then Some ("overlaps = 1 AND AREA_SQKM < " +:+ max_area)
  else None.

(** ... and as syntax. *)
Definition query (g o : bool) (max_area : string) : option cond :=
  if g && o then
    Some (And (Paren (Or (Eq "gaps" 1) (Eq "overlaps" 1))) (Lt "AREA_SQKM" max_area))
  else if g then Some (And (Eq "gaps" 1) (Lt "AREA_SQKM" max_area))
  else if o then Some (And (Eq "overlaps" 1) (Lt "AREA_SQKM" max_area))
  else None.

(** The script body: [flds] and [rows] describe [input_features]. *)
Definition eliminate_main (numeric : string → option Q)
    (input_features max_area : string)
    (flds : list string) (rows : list row) : M (list row) :=
  AddMessage "checking inputs..." [];;
  '(g, o) ← check_fc input_features flds;
  match query g o max_area with
  | None => raise "NameError"
  | Some q =>
      AddMessage "Where query: {}" [VStr (render q)];;
      AddMessage "Eliminating polygons from {}" [VStr input_features];;
      run_eliminate numeric flds rows input_features q
  end.

(** ** setup_gap_overlap_review.py *)

Definition template : string :=
  "F:\GPWv5_prototyping\projects\gaps_overlapps_template\gaps_overlapps_template.aprx".
Definition layers_to_update : gset string :=
  {["overlaps"]} ∪ {["gaps"]} ∪ {["admin_union"]}.
Definition original_layer : string := "original_loaded".

(** A map layer with the connection properties the script rebinds. *)
Record layer := mk_layer {
  lyr_name : string;
  database : string;
  dataset : string
}.

#[global] Instance layer_eq_dec : EqDecision layer.
Proof. solve_decision. Defined.

(** [lyr.updateConnectionProperties(lyr.connectionProperties, d)] with
    [d = {'connection_info': {'database': db}, 'dataset': ds, ...}] *)
Definition updateConnectionProperties (lyr : layer) (d : string * string) : layer :=
  {| lyr_name := lyr_name lyr; database := fst d; dataset := snd d |}.

(** [setup_project].  [layers] are the layers of the first map named
    [Gaps*] after the template is imported ([None]: no such map);
    [existing] lists the datasets for which [arcpy.Exists] is true.  The
    [isinstance(x, int)] test of the script is on two strings and never
    fires.  The result is the layer list of the saved map. *)
Definition setup_project (fc : string) (layers : option (list layer))
    (existing : list string) : M (list layer) :=
  let to_path := PyStr.slice_to fc (PyStr.rfind "\" fc) in
  let to_fc := PyStr.slice_from fc (PyStr.rfind "\" fc + 1) in
  (if negb (PyStr.contains ".gdb" to_path) then
     AddMessage "Error, expected input to be in a File Geodatabase." [];;
     exit 1
   else mret tt);;
  let iso := PyStr.slice_to to_fc 3 in
  let orig_fc := iso +:+ "_ingest" in
  let replace_dict := (to_path, to_fc) in
  tool "aprx.importDocument" [VStr template];;
  match layers with
  | None => raise "IndexError"
  | Some layers =>
      tool "m.name" [VStr "Gaps and Overlaps"];;
      layers ← for_each layers [] (λ kept lyr,
        if decide (lyr_name lyr ∈ layers_to_update) then
          AddMessage "Updating {}" [VStr (lyr_name lyr)];;
          mret (kept ++ [updateConnectionProperties lyr replace_dict])
        else if String.eqb (lyr_name lyr) original_layer then
          if bool_decide (to_path +:+ "/" +:+ orig_fc ∈ existing) then
            let update_dict := (to_path, orig_fc) in
            mret (kept ++ [updateConnectionProperties lyr replace_dict])
          else
            tool "m.removeLayer" [VStr (lyr_name lyr)];;
            mret kept
        else mret (kept ++ [lyr]));
      tool "aprx.save" [];;
      mret layers
  end.

(** ** Vocabulary of the statements *)

(** An event that only writes to the log. *)
Definition is_log (e : event) : Prop :=
  match e with Log _ _ _ => True | Tool _ _ => False end.

(** Something was logged at the given level. *)
Definition logged (lv : level) (t : list event) : bool :=
  existsb (fun e => match e with Log l _ _ => bool_decide (l = lv) | _ => false end) t.

(** The result of [check_iso_code] as the spec words it. *)
Definition replaced_iso (s : string) : string :=
  let l := PyStr.lower s in
  if String.eqb l "and" then "adr"
  else if String.eqb l "vat" then "vcs"
  else l.

(** A file read to its end, and a file that cannot be opened. *)
Definition readable (lines : list string) : reading := mk_reading lines false.
Definition unreadable : reading := mk_reading [] true.

(** The reserved words read from the file: one stripped line for each line
    read, whether or not the read ended in an error. *)
Definition reserved_set (file : reading) : gset string :=
  list_to_set (PyStr.strip <$> lines_read file).

(** The new name [check_fields] gives the upper-cased field name [k]. *)
Definition renamed_to (reserved : gset string) (flds : list string) (k : string)
  : option string :=
  if decide (k ∈ flds) then
    if PyStr.isdigit (PyStr.first1 k) then Some ("t_" +:+ k)
    else if String.eqb (PyStr.first1 k) "_" then Some ("t" +:+ k)
    else if decide (k ∈ reserved) then Some (k +:+ "_")
    else None
  else None.

(** The rename mapping as the claim words it: an underscore appended to
    every reserved name, a prefix for every leading digit or underscore,
    and nothing else. *)
Definition renames_as_stated (file : reading) (names : list string)
  : Prop :=
  let flds := PyStr.upper <$> names in
  ∃ m, result (check_fields file names) = Ret m
    ∧ (∀ k, k ∈ flds → k ∈ reserved_set file → m !! k = Some (k +:+ "_"))
    ∧ (∀ k, k ∈ flds → PyStr.isdigit (PyStr.first1 k) = true →
         m !! k = Some ("t_" +:+ k))
    ∧ (∀ k, k ∈ flds → PyStr.first1 k = "_" → m !! k = Some ("t" +:+ k))
    ∧ (∀ k, is_Some (m !! k) →
         k ∈ flds ∧ (k ∈ reserved_set file
                     ∨ PyStr.isdigit (PyStr.first1 k) = true
                     ∨ PyStr.first1 k = "_")).

(** The step does not end through [sys.exit]. *)
Definition no_exit {A} (m : M A) : Prop := ∀ c, result m ≠ SysExit c.

(** The geometry types [check_geometry] lets through. *)
Definition accepted_shape (w : world) : bool :=
  bool_decide (shapeType w ∈ ["Polygon"; "MultiPatch"]).

(** The three conditions under which the boundary check goes on to copy. *)
Definition checks_pass (w : world) : bool :=
  fc_exists w && negb (String.eqb (sr_name w) "Unknown") && accepted_shape w.

Definition COPY : string := "management.CopyFeatures".

(** The two exit claims as they are worded: the script ends in
    [sys.exit(1)] whenever the reserved-words file cannot be read ... *)
Definition halts_on_unreadable_file (a : args) (w : world) : Prop :=
  io_error (reserved_file w) = true → result (main a w) = SysExit 1.

(** ... and whenever the geometry type is not Polygon, before any copy. *)
Definition halts_on_non_polygon (a : args) (w : world) : Prop :=
  shapeType w ≠ "Polygon" →
  result (main a w) = SysExit 1
  ∧ logged Error (trace (main a w)) = true
  ∧ called COPY (trace (main a w)) = false.

(** Sample runs.  The union has one polygon split in two, one untouched
    polygon and one gap whose id column holds 0. *)
Definition sample_args : args := mk_args "C:\data\abw.shp" "ABW" "C:\out" true.

Definition sample_union : list row :=
  [ mk_row 1 (Some 1) 5 None None;
    mk_row 2 (Some 1) 1 None None;
    mk_row 3 (Some 2) 3 None None;
    mk_row 4 (Some 0) (1 # 2) None None ].

Definition sample_world (file : reading) (shape : string) : world :=
  mk_world true "C:/out" false file ["NAME"; "POP"] "GCS_WGS_1984" "Geographic"
    6326 7030 "-70 12 -69 13" 0 shape 2 ["OBJECTID"; "Shape"; "union_uid"]
    sample_union.

(** The record has one of its existing flags set to 1. *)
Definition flagged (g o : bool) (r : row) : bool :=
  (g && bool_decide (gaps_fld r = Some 1))
  || (o && bool_decide (overlaps_fld r = Some 1)).

(** The record's area is strictly below the threshold. *)
Definition below (m : Q) (r : row) : bool := negb (Qle_bool m (AREA_SQKM r)).

Definition ELIMINATE : string := "management.Eliminate".

(** The eliminate claim as it is worded, for every feature class and every
    threshold that reads as a number: exit 1 without a flag field, and
    otherwise Eliminate invoked on the flagged records below the threshold. *)
Definition eliminates_as_stated (numeric : string → option Q)
    (input_features max_area : string) (flds : list string) (rows : list row)
  : Prop :=
  let g := bool_decide ("gaps" ∈ flds) in
  let o := bool_decide ("overlaps" ∈ flds) in
  let run := eliminate_main numeric input_features max_area flds rows in
  (g || o = false → result run = SysExit 1)
  ∧ (g || o = true → ∀ m, numeric max_area = Some m →
       called ELIMINATE (trace run) = true
       ∧ result run = Ret (List.filter (λ r, flagged g o r && below m r) rows)).

(** The review project of the sample run: the template's four layers and
    the geodatabase that holds both the union and the ingest copy. *)
Definition review_fc : string := "C:\data\abw_ingest.gdb\abw_ingest_union".

Definition review_layers : list layer :=
  [ mk_layer "admin_union" "T:\template.gdb" "xxx_ingest_union";
    mk_layer "gaps" "T:\template.gdb" "xxx_ingest_union";
    mk_layer "overlaps" "T:\template.gdb" "xxx_ingest_union";
    mk_layer "original_loaded" "T:\template.gdb" "xxx_ingest" ].

Definition review_existing : list string := ["C:\data\abw_ingest.gdb/abw_ingest"].

(** *** Unioned feature classes *)

(** The ids the counting pass collects: the truthy ones, in cursor order. *)
Definition uids_of (rows : list row) : list Z :=
  omap (λ r, if truthy (union_uid r) then union_uid r else None) rows.

(** The number of records the counting pass takes for gaps. *)
Definition gap_count (rows : list row) : Z :=
  Z.of_nat (length (List.filter (λ r, negb (truthy (union_uid r))) rows)).

(** The number of records whose unique id is null. *)
Definition null_count (rows : list row) : Z :=
  Z.of_nat (length (List.filter (λ r, bool_decide (union_uid r = None)) rows)).

(** How many fragments carry the unique id [u]. *)
Definition occurrences (u : Z) (rows : list row) : nat :=
  length (List.filter (λ r, bool_decide (union_uid r = Some u)) rows).

Definition has_null (rows : list row) : bool :=
  existsb (λ r, bool_decide (union_uid r = None)) rows.

Definition has_duplicate (rows : list row) : bool :=
  existsb (λ r, match union_uid r with
                | Some u => (1 <? occurrences u rows)%nat
                | None => false
                end) rows.

(** What the toolkit guarantees of the union of a layer of [n] polygons,
    numbered 1..n, with itself: row ids are positive and distinct; a
    non-null unique id is one of 1..n; every input polygon survives in at
    least one fragment; and the count [n] is not negative. *)
Definition union_ok (n : Z) (rows : list row) : bool :=
  forallb (λ r, (0 <? OBJECTID r)
                && match union_uid r with
                   | Some k => (1 <=? k) && (k <=? n)
                   | None => true
                   end) rows
  && bool_decide (NoDup (OBJECTID <$> rows))
  && forallb (λ k, existsb (λ r, bool_decide (union_uid r = Some k)) rows)
       (seqZ 1 n)
  && (0 <=? n).

(** Some fragment of [u] has a positive area. *)
Definition has_positive (u : Z) (rows : list row) : Prop :=
  ∃ r, r ∈ rows ∧ union_uid r = Some u ∧ (0 < AREA_SQKM r)%Q.

(** [c] is a fragment of largest area among those with its unique id. *)
Definition largest_of (rows : list row) (c : row) : Prop :=
  ∀ r, r ∈ rows → union_uid r = union_uid c → (AREA_SQKM r <= AREA_SQKM c)%Q.

(** The largest area met so far for [id] and the row it was met on, as the
    size scan keeps them: a row replaces the record only when its area is
    strictly larger. *)
Definition best_step (id : Z) (acc : Q * Z) (r : row) : Q * Z :=
  if bool_decide (union_uid r = Some id) && Qgt_bool (AREA_SQKM r) (fst acc)
  then (AREA_SQKM r, OBJECTID r) else acc.

Definition best (id : Z) (rows : list row) (init : Q * Z) : Q * Z :=
  foldl (best_step id) init rows.

(** A union with one polygon in two fragments and one whole polygon ... *)
Definition overlap_union : list row :=
  [ mk_row 1 (Some 1) 5 None None;
    mk_row 2 (Some 1) 1 None None;
    mk_row 3 (Some 2) 3 None None ].

(** ... the same with a gap, whose unique id is null ... *)
Definition mixed_union : list row :=
  overlap_union ++ [ mk_row 4 None (1 # 2) None None ].

(** ... and one polygon in two fragments whose stored area is 0. *)
Definition zero_area_union : list row :=
  [ mk_row 1 (Some 1) 0 None None;
    mk_row 2 (Some 1) 0 None None ].

(** The overlap flags as the claim words them: on every well-formed union
    with a duplicated unique id, each duplicated id has one fragment of
    largest area flagged 2 and its other fragments flagged 1, and the
    fragments of an id that appears once are flagged 0. *)
Definition overlaps_as_stated (fc : string) (n : Z) (fields : list string)
    (rows : list row) : Prop :=
  union_ok n rows = true → has_duplicate rows = true →
  ∃ t flag g o,
    overlap_gap_analysis fc n fields rows
    = (t, Ret (fc +:+ "_union", (λ r, set_overlaps r (flag r)) <$> rows, g, o))
    ∧ (∀ u, (1 < occurrences u rows)%nat →
         ∃ c, c ∈ rows ∧ union_uid c = Some u ∧ largest_of rows c
            ∧ ∀ r, r ∈ rows → union_uid r = Some u →
                flag r = if decide (r = c) then 2 else 1)
    ∧ (∀ u r, occurrences u rows = 1%nat →
         r ∈ rows → union_uid r = Some u → flag r = 0).

(** The gap-flagging pass was started. *)
Definition gap_pass_started (t : list event) : bool :=
  bool_decide (Log Message "Flagging gaps in union of the boundaries." [] ∈ t).

(** The flag the overlap update writes on a row that has an id. *)
Definition overlap_flag (dupes main_overlap_polys : gset Z) (r : row) : Z :=
  match union_uid r with
  | Some id =>
      if decide (id ∈ dupes) then
        if decide (OBJECTID r ∈ main_overlap_polys) then 2 else 1
      else 0
  | None => 0
  end.

(** ** Vocabulary of the further properties *)

Definition trace_all {A} (P : event → Prop) (m : M A) : Prop := Forall P (trace m).

(** The toolkit calls of the analysis. *)
Definition analysis_tool (fc : string) (e : event) : Prop :=
  match e with
  | Log _ _ _ => True
  | Tool name (VStr target :: _) =>
      (name = "management.AddField" ∨ name = "da.UpdateCursor"
       ∨ name = "analysis.Union"
       ∨ name = "management.CalculateGeometryAttributes")
      ∧ (target = fc ∨ target = fc +:+ "_union")
  | Tool _ _ => False
  end.

(** A warning that reports one number. *)
Definition number_warned (t : list event) : bool :=
  existsb (λ e, match e with Log Warning _ [VInt _] => true | _ => false end) t.

(** The ISO code the script works with. *)
Definition working_iso (a : args) : string :=
  if check_iso a then replaced_iso (iso a) else PyStr.lower (iso a).

(** The output geodatabase and the working copy in it. *)
Definition out_gdb_path (a : args) (w : world) : string :=
  ows_abs w +:+ "\" +:+ working_iso a +:+ "_ingest.gdb".

Definition copy_path (a : args) (w : world) : string :=
  out_gdb_path a w +:+ "\" +:+ working_iso a +:+ "_ingest".

(** The toolkit calls of the checks. *)
Definition checks_tool (e : event) : Prop :=
  match e with
  | Log _ _ _ => True
  | Tool name _ =>
      name = "Path.mkdir" ∨ name = "management.CreateFileGDB"
      ∨ name = "CheckGeometry_management" ∨ name = "Delete_management"
  end.

(** The mapping [check_fields] computes for the input of a run. *)
Definition run_renames (w : world) (k : string) : option string :=
  renamed_to (reserved_set (reserved_file w)) (PyStr.upper <$> field_names w) k.

(** The rename calls [make_copy] issues for a mapping. *)
Definition rename_calls (out_fc : string) (fm : gmap string string) : list event :=
  (λ kv, Tool "management.AlterField" [VStr out_fc; VStr (fst kv); VStr (snd kv)])
    <$> map_to_list fm.

Definition ALTER : string := "management.AlterField".
Definition REPAIR : string := "RepairGeometry_management".

(** The events of [make_copy] after the projection warnings. *)
Definition copy_events (fc copy out_fc : string) (fm : option (gmap string string))
  : list event :=
  [Log Message "Creating working copy of feature class." [];
   Tool COPY [VStr fc; VStr copy]]
  ++ match fm with
     | Some m =>
         if bool_decide (m = ∅) then []
         else Log Message "Renaming fields." [] :: rename_calls out_fc m
     | None => []
     end.

(** The events of the repair step. *)
Definition repair_events (repair : bool) (copy : string) : list event :=
  if repair then [Log Warning "Repairing geometry for {}." [VStr copy];
                  Tool REPAIR [VStr copy]]
  else [].

(** The analysis and the statistics report that end the script, on the
    working copy [fc]. *)
Definition analysis_and_report (fc : string) (w : world) : M unit :=
  '(fc_unioned, rows, gap_count, overlap_count) ←
    overlap_gap_analysis fc (copy_count w) (union_fields w) (union_rows w);
  topo_stats ← (if (gap_count >? 0) && (overlap_count >? 0) then
                  calculate_gap_overlap_stats rows (FieldList ["gaps"; "overlaps"])
                else if gap_count >? 0 then
                  calculate_gap_overlap_stats rows (FieldStr "gaps")
                else if overlap_count >? 0 then
                  calculate_gap_overlap_stats rows (FieldStr "overlaps")
                else
                  AddMessage "Overlap and Gap statistics:" [];;
                  raise "NameError");
  AddMessage "Overlap and Gap statistics:" [];;
  for_each topo_stats tt (λ _ '(key, value),
    AddMessage "{}: {:,.4f} square km" [VStr key; VNum value]).

(** [m], whenever it returns, returns a value that satisfies [Q]. *)
Definition ensures {A} (m : M A) (Q : A → Prop) : Prop :=
  ∀ a, result m = Ret a → Q a.

(** [r'] is the record [r] with, at most, its two flags rewritten: the
    overlaps flag to 0, 1 or 2 and the gaps flag to 0 or 1. *)
Definition reflagged (r r' : row) : Prop :=
  OBJECTID r' = OBJECTID r ∧ union_uid r' = union_uid r
  ∧ AREA_SQKM r' = AREA_SQKM r
  ∧ (overlaps_fld r' = overlaps_fld r ∨ overlaps_fld r' ∈ [Some 0; Some 1; Some 2])
  ∧ (gaps_fld r' = gaps_fld r ∨ gaps_fld r' ∈ [Some 0; Some 1]).

(** A duplicated unique id none of whose fragments has a positive area:
    the size scan finds it no central polygon. *)
Definition unmatched (rows : list row) (u : Z) : Prop :=
  (1 < occurrences u rows)%nat ∧ ¬ has_positive u rows.

(** The two parts [setup_project] splits its argument into. *)
Definition to_path (fc : string) : string := PyStr.slice_to fc (PyStr.rfind "\" fc).

Definition to_fc (fc : string) : string := PyStr.slice_from fc (PyStr.rfind "\" fc + 1).

(** [arcpy.Exists] of the ingest feature class beside the input. *)
Definition ingest_exists (fc : string) (existing : list string) : bool :=
  bool_decide (to_path fc +:+ "/" +:+ PyStr.slice_to (to_fc fc) 3 +:+ "_ingest"
               ∈ existing).

(** What one pass of the layer loop leaves of a layer. *)
Definition layer_kept (fc : string) (existing : list string) (lyr : layer)
  : option layer :=
  if decide (lyr_name lyr ∈ layers_to_update) then
    Some (updateConnectionProperties lyr (to_path fc, to_fc fc))
  else if String.eqb (lyr_name lyr) original_layer then
    if ingest_exists fc existing
    then Some (updateConnectionProperties lyr (to_path fc, to_fc fc))
    else None
  else Some lyr.

(** The loop removes the layer from the map. *)
Definition layer_removed (fc : string) (existing : list string) (lyr : layer) : bool :=
  match layer_kept fc existing lyr with
  | None => true
  | Some _ => false
  end.

(** The events of the layer loop: messages and layer removals. *)
Definition loop_event (e : event) : Prop :=
  match e with
  | Log lv _ _ => lv = Message
  | Tool name _ => name = "m.removeLayer"
  end.

(** * Properties *)

(** ** Sequencing *)

Lemma bind_Ret {A B} (t : list event) (a : A) (k : A → M B) :
  (t, Ret a) ≫= k = (t ++ trace (k a), result (k a)).
Proof. unfold mbind, M_bind, bind, trace, result. by destruct (k a). Qed.

Lemma bind_returns {A B} (m : M A) (k : A → M B) t1 a t2 b :
  m = (t1, Ret a) → k a = (t2, Ret b) → m ≫= k = (t1 ++ t2, Ret b).
Proof. intros -> E. by rewrite bind_Ret, E. Qed.

Lemma bind_SysExit {A B} (t : list event) (c : Z) (k : A → M B) :
  (t, SysExit c) ≫= k = (t, SysExit c).
Proof. reflexivity. Qed.

Lemma bind_Raise {A B} (t : list event) (e : string) (k : A → M B) :
  (t, Raise e) ≫= k = (t, Raise e).
Proof. reflexivity. Qed.

Lemma M_eta {A} (m : M A) : m = (trace m, result m).
Proof. by destruct m. Qed.

(** A loop whose body always returns is a fold, and what holds of every
    event of every iteration holds of every event of the loop. *)
Lemma for_each_fold {A S} (P : event → Prop) (step : S → A → S)
    (body : S → A → M S) (l : list A) (s : S) :
  (∀ s x, x ∈ l → ∃ t, body s x = (t, Ret (step s x)) ∧ Forall P t) →
  ∃ t, for_each l s body = (t, Ret (foldl step s l)) ∧ Forall P t.
Proof.
  revert s. induction l as [|x l IH]; intros s Hb; simpl.
  - exists []. split; [reflexivity | constructor].
  - destruct (Hb s x) as (t1 & -> & Ht1); [left|].
    destruct (IH (step s x)) as (t2 & E2 & Ht2).
    { intros s' y Hy. apply Hb. by right. }
    rewrite bind_Ret, E2. exists (t1 ++ t2). split; [reflexivity|].
    by apply Forall_app.
Qed.

Lemma called_app (n : string) (t1 t2 : list event) :
  called n (t1 ++ t2) = called n t1 || called n t2.
Proof. unfold called. apply existsb_app. Qed.

Lemma called_logs (n : string) (t : list event) :
  Forall is_log t → called n t = false.
Proof.
  induction 1 as [|e t He _ IH]; [reflexivity|].
  simpl. rewrite IH. by destruct e.
Qed.

(** ** Text *)

Lemma lower_char_idem (c : ascii) :
  PyStr.lower_char (PyStr.lower_char c) = PyStr.lower_char c.
Proof. destruct c as [[] [] [] [] [] [] [] []]; reflexivity. Qed.

Lemma lower_idem (s : string) : PyStr.lower (PyStr.lower s) = PyStr.lower s.
Proof.
  induction s as [|c s IH]; [reflexivity|].
  unfold PyStr.lower in *. simpl. by rewrite lower_char_idem, IH.
Qed.

(** ** check_iso_code *)

Lemma elem_of_BAD_ISOS (s : string) : s ∈ BAD_ISOS ↔ s = "and" ∨ s = "vat".
Proof.
  unfold BAD_ISOS, ISOS_TO_CHANGE.
  rewrite !dom_insert_L, dom_empty_L.
  rewrite !elem_of_union, !elem_of_singleton, elem_of_empty. tauto.
Qed.

(** C9. For every input string, [check_iso_code] returns the lower-cased
    code with "and" replaced by "adr" and "vat" by "vcs"; the result is
    never in the unsupported set, and applying the function to its own
    result changes nothing. *)
Theorem check_iso_code_idempotent_avoiding (s : string) :
  ∃ r, check_iso_code s = Some r
       ∧ r = replaced_iso s
       ∧ (r ∉ BAD_ISOS)
       ∧ check_iso_code r = Some r.
Proof.
  unfold check_iso_code, replaced_iso.
  destruct (String.eqb_spec (PyStr.lower s) "and") as [E|Hand].
  { rewrite E. exists "adr". split_and!; try reflexivity.
    rewrite elem_of_BAD_ISOS. intros [|]; discriminate. }
  destruct (String.eqb_spec (PyStr.lower s) "vat") as [E|Hvat].
  { rewrite E. exists "vcs". split_and!; try reflexivity.
    rewrite elem_of_BAD_ISOS. intros [|]; discriminate. }
  assert (Hbad : PyStr.lower s ∉ BAD_ISOS).
  { rewrite elem_of_BAD_ISOS. intros [|]; contradiction. }
  exists (PyStr.lower s). rewrite lower_idem.
  destruct (decide (PyStr.lower s ∈ BAD_ISOS)); [contradiction|].
  split_and!; try reflexivity. assumption.
Qed.

(** ** check_counts *)

Lemma elem_of_trace_bind {A B} (e : event) (m : M A) (k : A → M B) :
  e ∈ trace (m ≫= k) ↔ e ∈ trace m ∨ ∃ a, result m = Ret a ∧ e ∈ trace (k a).
Proof.
  destruct m as [t [a|c|x]].
  - rewrite bind_Ret. unfold trace at 1, result. simpl fst. simpl snd.
    rewrite elem_of_app. unfold trace at 2. simpl fst.
    split; intros [H|H]; auto.
    + right. by exists a.
    + destruct H as (a' & [= <-] & H). by right.
  - rewrite bind_SysExit. split; [by left|]. intros [H|(a & [=] & _)]. exact H.
  - rewrite bind_Raise. split; [by left|]. intros [H|(a & [=] & _)]. exact H.
Qed.

Lemma elem_of_mismatch (upd orig : list string) (x : string) :
  let mismatch : gset string := list_to_set orig ∖ list_to_set upd in
  let mismatch := if decide ("gap" ∈ mismatch) then mismatch ∖ {["gap"]} else mismatch in
  let mismatch := if decide ("overlap" ∈ mismatch) then mismatch ∖ {["overlap"]} else mismatch in
  x ∈ mismatch ↔ x ∈ orig ∧ x ≠ "gap" ∧ x ≠ "overlap" ∧ x ∉ upd.
Proof.
  cbv zeta. repeat case_decide; set_solver.
Qed.

Lemma check_counts_warns (upd orig : list string) (ec oc : Z) :
  warns_missing_fields (check_counts upd orig ec oc) = true
  ↔ ∃ f, f ∈ orig ∧ f ≠ "gap" ∧ f ≠ "overlap" ∧ f ∉ upd.
Proof.
  unfold warns_missing_fields, check_counts.
  pose proof (elem_of_mismatch upd orig) as Hm. cbv zeta in Hm. cbv zeta.
  set (mismatch := if decide ("overlap" ∈ _) then _ else _) in *.
  clearbody mismatch.
  rewrite bool_decide_eq_true, elem_of_trace_bind.
  destruct (decide (0 < size mismatch)%nat) as [Hpos|Hzero].
  - split.
    + intros _. destruct (size_pos_elem_of mismatch Hpos) as [f Hf].
      exists f. by apply Hm.
    + intros _. left. unfold AddWarning, emit. rewrite bind_Ret.
      unfold trace at 1. simpl fst. left.
  - split.
    + intros [Hin|(u & _ & Hin)].
      * unfold AddMessage, emit, trace in Hin. simpl fst in Hin.
        apply list_elem_of_singleton in Hin. discriminate.
      * cbv beta in Hin.
        destruct (oc =? ec); [|destruct (oc >? ec); [|destruct (oc <? ec)]];
          cbn in Hin; rewrite ?elem_of_cons, ?elem_of_nil in Hin;
          repeat destruct Hin as [Hin|Hin]; try discriminate Hin; try contradiction.
    + intros (f & Hf). exfalso. apply Hm in Hf.
      assert (Hs : size mismatch = 0%nat) by lia.
      apply size_empty_iff in Hs. rewrite Hs in Hf. by apply elem_of_empty in Hf.
Qed.

(** C10. [check_counts] issues the missing-fields warning exactly when some
    field name of the original feature class other than "gap" and "overlap"
    is absent from the updated one; names added on the updated side, absent
    from the original, never change that. *)
Theorem check_counts_warns_iff (flds_update flds_orig : list string)
    (elim_count orig_count : Z) :
  (warns_missing_fields (check_counts flds_update flds_orig elim_count orig_count) = true
   ↔ ∃ f, f ∈ flds_orig ∧ f ≠ "gap" ∧ f ≠ "overlap" ∧ f ∉ flds_update)
  ∧ ∀ extra e c, (∀ f, f ∈ extra → f ∉ flds_orig) →
      warns_missing_fields (check_counts (flds_update ++ extra) flds_orig e c)
      = warns_missing_fields (check_counts flds_update flds_orig elim_count orig_count).
Proof.
  split; [apply check_counts_warns|].
  intros extra e c Hextra.
  apply eq_true_iff_eq. rewrite !check_counts_warns.
  split; intros (f & H1 & H2 & H3 & H4); exists f; split_and!; try assumption.
  - intros Hin. apply H4. apply elem_of_app. by left.
  - intros [Hin|Hin]%elem_of_app; [contradiction|]. by apply (Hextra f).
Qed.

(** ** check_fields *)

Lemma foldl_strip_lines (lines : list string) (W : gset string) :
  foldl (λ (words : gset string) line, words ∪ {[PyStr.strip line]}) W lines
  = W ∪ list_to_set (PyStr.strip <$> lines).
Proof.
  revert W. induction lines as [|l lines IH]; intros W; simpl.
  - by rewrite union_empty_r_L.
  - rewrite IH. by rewrite (assoc_L (∪)).
Qed.

Lemma read_reserved_words_ret (file : reading) :
  ∃ t, _read_reserved_words file = (t, Ret (reserved_set file))
     ∧ Forall is_log t
     ∧ logged Warning t = io_error file.
Proof.
  unfold _read_reserved_words, reserved_set. cbv zeta.
  rewrite foldl_strip_lines, union_empty_l_L.
  destruct file as [lines []]; cbn [io_error lines_read when]; eexists;
    (split_and!; [reflexivity|repeat constructor|reflexivity]).
Qed.

Lemma foldl_reserved_lookup (W : gset string) (l : list string)
    (m : gmap string string) (k : string) :
  foldl (λ (ch : gmap string string) fld,
           if decide (fld ∈ W) then <[fld := fld +:+ "_"]> ch else ch) m l !! k
  = if decide (k ∈ l ∧ k ∈ W) then Some (k +:+ "_") else m !! k.
Proof.
  revert m. induction l as [|x l IH]; intros m; simpl.
  - destruct (decide (k ∈ [] ∧ k ∈ W)) as [[H _]|_]; [|reflexivity].
    by apply elem_of_nil in H.
  - rewrite IH. clear IH.
    destruct (decide (k ∈ x :: l ∧ k ∈ W)) as [[Hc HW]|Hc];
      destruct (decide (k ∈ l ∧ k ∈ W)) as [[Hin HW']|Hn];
      try reflexivity.
    + apply elem_of_cons in Hc as [->|Hc]; [|exfalso; by apply Hn].
      rewrite decide_True by assumption. by rewrite lookup_insert_eq.
    + exfalso. apply Hc. split; [apply elem_of_cons; by right|assumption].
    + destruct (decide (x ∈ W)) as [Hx|Hx]; [|reflexivity].
      rewrite lookup_insert_ne; [reflexivity|].
      intros ->. apply Hc. split; [apply elem_of_cons; by left|assumption].
Qed.

Lemma foldl_edge_lookup (l : list string) (m : gmap string string) (k : string) :
  foldl edge_case m l !! k
  = if decide (k ∈ l) then
      if PyStr.isdigit (PyStr.first1 k) then Some ("t_" +:+ k)
      else if String.eqb (PyStr.first1 k) "_" then Some ("t" +:+ k)
      else m !! k
    else m !! k.
Proof.
  revert m. induction l as [|x l IH]; intros m; simpl.
  - reflexivity.
  - rewrite IH.
    assert (Hx : edge_case m x !! k =
                 if decide (k = x) then
                   if PyStr.isdigit (PyStr.first1 k) then Some ("t_" +:+ k)
                   else if String.eqb (PyStr.first1 k) "_" then Some ("t" +:+ k)
                   else m !! k
                 else m !! k).
    { clear IH. unfold edge_case. destruct (decide (k = x)) as [->|Hne].
      - destruct (PyStr.isdigit (PyStr.first1 x)); [by rewrite lookup_insert_eq|].
        destruct (String.eqb (PyStr.first1 x) "_"); [by rewrite lookup_insert_eq|reflexivity].
      - destruct (PyStr.isdigit (PyStr.first1 x)); [by rewrite lookup_insert_ne|].
        destruct (String.eqb (PyStr.first1 x) "_"); [by rewrite lookup_insert_ne|reflexivity]. }
    rewrite Hx. clear IH Hx.
    destruct (decide (k ∈ x :: l)) as [Hc|Hc];
      destruct (decide (k ∈ l)) as [Hin|Hnin];
      destruct (decide (k = x)) as [E|Hne];
      try reflexivity;
      try (exfalso; apply Hc; apply elem_of_cons; tauto);
      try (exfalso; apply elem_of_cons in Hc; tauto).
    destruct (PyStr.isdigit (PyStr.first1 k)); [reflexivity|].
    by destruct (String.eqb (PyStr.first1 k) "_").
Qed.

(** [check_fields] always returns, logs only, and maps exactly the names
    [renamed_to] renames. *)
Lemma check_fields_ret (file : reading) (names : list string) :
  ∃ t m, check_fields file names = (t, Ret m)
       ∧ Forall is_log t
       ∧ ∀ k, m !! k = renamed_to (reserved_set file) (PyStr.upper <$> names) k.
Proof.
  destruct (read_reserved_words_ret file) as (t0 & E0 & Ht0 & _).
  set (flds := PyStr.upper <$> names). set (W := reserved_set file) in *.
  edestruct (for_each_fold is_log
    (λ (ch : gmap string string) fld,
       if decide (fld ∈ W) then <[fld := fld +:+ "_"]> ch else ch)
    (λ (changed_names : gmap string string) fld,
       if decide (fld ∈ W) then
         AddMessage "Field {} is a reserved name, adding an underscore." [VStr fld];;
         mret (<[fld := fld +:+ "_"]> changed_names)
       else mret changed_names) flds ∅) as (t1 & E1 & Ht1).
  { intros s x _. destruct (decide (x ∈ W)).
    - eexists. split; [reflexivity|]. repeat constructor.
    - eexists. split; [reflexivity|]. constructor. }
  eexists _, _. split; [|split].
  - unfold check_fields.
    eapply bind_returns; [exact E0|].
    eapply bind_returns; [reflexivity|].
    eapply bind_returns; [exact E1|].
    eapply bind_returns; reflexivity.
  - rewrite !Forall_app. split_and!; try assumption; repeat constructor.
  - intros k. rewrite foldl_edge_lookup, foldl_reserved_lookup, lookup_empty.
    unfold renamed_to. fold flds.
    destruct (decide (k ∈ flds)) as [Hin|Hnin].
    + destruct (PyStr.isdigit (PyStr.first1 k)); [reflexivity|].
      destruct (String.eqb (PyStr.first1 k) "_"); [reflexivity|].
      destruct (decide (k ∈ W)).
      * by rewrite decide_True.
      * rewrite decide_False; [reflexivity|]. by intros [_ ?].
    + rewrite decide_False; [reflexivity|]. by intros [? _].
Qed.

(** C7, amended. For every input layer [check_fields] returns, and the
    mapping it returns sends an upper-cased field name to ["t_" + NAME] when
    it starts with a digit, to ["t" + NAME] when it starts with an
    underscore, to [NAME + "_"] when it starts with neither and is in the
    reserved-word set, and has no other entry. *)
Theorem check_fields_mapping (file : reading) (names : list string) :
  ∃ m, result (check_fields file names) = Ret m
     ∧ ∀ k, m !! k = renamed_to (reserved_set file) (PyStr.upper <$> names) k.
Proof.
  destruct (check_fields_ret file names) as (t & m & -> & _ & Hm).
  by exists m.
Qed.

(** C7 as stated fails: a reserved word that starts with an underscore gets
    the prefix, and the entry with the appended underscore is not there. *)
Lemma check_fields_reserved_underscore :
  ¬ renames_as_stated (readable ["_ROWID_"]) ["_rowid_"].
Proof.
  intros (m & _ & Hres & _ & Hund & _).
  specialize (Hres "_ROWID_"). specialize (Hund "_ROWID_").
  rewrite Hund in Hres.
  - assert (Hin : "_ROWID_" ∈ PyStr.upper <$> ["_rowid_"]) by (vm_compute; left).
    assert (HW : "_ROWID_" ∈ reserved_set (readable ["_ROWID_"])).
    { simpl. apply elem_of_union_l, elem_of_singleton. reflexivity. }
    specialize (Hres Hin HW). discriminate.
  - vm_compute; left.
  - reflexivity.
Qed.

(** ** The boundary-check script: where it exits *)

Lemma result_bind {A B} (m : M A) (k : A → M B) :
  result (m ≫= k) =
  match result m with
  | Ret a => result (k a)
  | SysExit c => SysExit c
  | Raise e => Raise e
  end.
Proof.
  destruct m as [t [a|c|e]]; try reflexivity.
  rewrite bind_Ret. reflexivity.
Qed.

Lemma no_exit_ret {A} (a : A) : no_exit (mret a : M A).
Proof. intros c. discriminate. Qed.

Lemma no_exit_emit (e : event) : no_exit (emit e).
Proof. intros c. discriminate. Qed.

Lemma no_exit_raise {A} (e : string) : no_exit (raise e : M A).
Proof. intros c. discriminate. Qed.

Lemma no_exit_bind {A B} (m : M A) (k : A → M B) :
  no_exit m → (∀ a, no_exit (k a)) → no_exit (m ≫= k).
Proof.
  intros Hm Hk c. rewrite result_bind.
  destruct (result m) as [a|c'|e] eqn:E; [apply Hk| |discriminate].
  exfalso. by apply (Hm c').
Qed.

Lemma no_exit_for_each {A S} (l : list A) (s : S) (body : S → A → M S) :
  (∀ s x, no_exit (body s x)) → no_exit (for_each l s body).
Proof.
  intros Hb. revert s. induction l as [|x l IH]; intros s; simpl.
  - apply no_exit_ret.
  - apply no_exit_bind; [apply Hb | apply IH].
Qed.

Lemma no_exit_update_cursor (rows : list row) (body : row → M row) :
  (∀ r, no_exit (body r)) → no_exit (update_cursor rows body).
Proof.
  intros Hb. induction rows as [|r rows IH]; simpl.
  - apply no_exit_ret.
  - apply no_exit_bind; [apply Hb|]. intros r'.
    apply no_exit_bind; [apply IH|]. intros rest. apply no_exit_ret.
Qed.

Ltac no_exit_step :=
  first
    [ apply no_exit_ret
    | apply no_exit_emit
    | apply no_exit_raise
    | apply no_exit_for_each; intros ? ?
    | apply no_exit_update_cursor; intros ?
    | apply no_exit_bind; [|intros ?]
    | match goal with
      | |- no_exit (if ?b then _ else _) => destruct b
      | |- no_exit (match ?x with _ => _ end) => destruct x
      | |- no_exit ((match ?x with _ => _ end) _) => destruct x; cbv beta
      end ].

Ltac no_exit := repeat no_exit_step.

Lemma no_exit_overlap_gap_analysis fc n fields rows :
  no_exit (overlap_gap_analysis fc n fields rows).
Proof.
  unfold overlap_gap_analysis, count_pass, size_scan, size_step, flag_overlaps,
    overlap_flag_row, flag_gaps, py_int, when, AddMessage, AddWarning, tool.
  no_exit.
Qed.

Lemma no_exit_stats rows cf : no_exit (calculate_gap_overlap_stats rows cf).
Proof.
  unfold calculate_gap_overlap_stats, py_int, AddMessage. no_exit.
Qed.

Lemma no_exit_make_copy fc ws iso sr fm : no_exit (make_copy fc ws iso sr fm).
Proof.
  unfold make_copy, when, AddMessage, AddWarning, tool. no_exit.
Qed.

Lemma no_exit_main_process a w c : no_exit (main_process a w c).
Proof.
  destruct c as [[[[[iso ws] names] repair] topo] sr].
  unfold main_process.
  apply no_exit_bind; [apply no_exit_emit|]. intros _.
  apply no_exit_bind.
  { destruct (negb _); apply no_exit_make_copy. }
  intros fc_copy.
  apply no_exit_bind.
  { unfold when, AddWarning, tool. no_exit. }
  intros _. destruct (is_true topo); [|apply no_exit_emit].
  apply no_exit_bind; [apply no_exit_overlap_gap_analysis|].
  intros [[[fcu rows] g] o].
  apply no_exit_bind.
  { repeat match goal with |- no_exit (if ?b then _ else _) => destruct b end;
      try apply no_exit_stats.
    unfold AddMessage. no_exit. }
  intros stats. unfold AddMessage. no_exit.
Qed.

Lemma bind_step {A B} (m : M A) (k : A → M B) t1 a t2 r :
  m = (t1, Ret a) → k a = (t2, r) → m ≫= k = (t1 ++ t2, r).
Proof. intros -> E. by rewrite bind_Ret, E. Qed.

Lemma logged_app lv t1 t2 : logged lv (t1 ++ t2) = logged lv t1 || logged lv t2.
Proof. unfold logged. apply existsb_app. Qed.

Lemma check_input_params_spec w fc ows iso :
  ∃ t, (if fc_exists w
        then ∃ ws, _check_input_params w fc ows iso = (t, Ret ws)
        else _check_input_params w fc ows iso = (t, SysExit 1) ∧ logged Error t = true)
       ∧ called COPY t = false.
Proof.
  unfold _check_input_params.
  destruct (fc_exists w); simpl.
  - destruct (gdb_exists w); eexists; (split; [eexists; reflexivity|]); reflexivity.
  - eexists. split; [split; reflexivity|]. reflexivity.
Qed.

Lemma check_geometry_spec w fc :
  ∃ t repair,
    check_geometry w fc =
      (t, Ret (repair,
               (if String.eqb (sr_name w) "Unknown" then None
                else Some (accepted_shape w)),
               Some (negb (String.eqb (sr_name w) "Unknown"))))
    ∧ called COPY t = false.
Proof.
  unfold check_geometry, accepted_shape.
  destruct (String.eqb (sr_name w) "Unknown"); simpl.
  { eexists _, _. split; reflexivity. }
  destruct (bool_decide (shapeType w ∈ ["Polygon"; "MultiPatch"])) eqn:Hshape; simpl.
  { eexists _, _. split; reflexivity. }
  destruct (String.eqb_spec (shapeType w) "MultiPatch") as [E|_].
  { apply bool_decide_eq_false in Hshape. exfalso. apply Hshape.
    rewrite E. apply elem_of_cons. right. apply elem_of_cons. by left. }
  eexists _, _. split; reflexivity.
Qed.

Lemma check_srs_spec w :
  ∃ t r, check_srs w = (t, Ret r) ∧ called COPY t = false.
Proof.
  unfold check_srs.
  destruct (negb _); eexists _, _; split; reflexivity.
Qed.

(** The checks either pass, with [topo] true, or end in [sys.exit(1)] after
    an error message; no copy is made during them. *)
Lemma main_checks_spec a w :
  ∃ t, (if checks_pass w
        then ∃ iso ws names repair sr,
               main_checks a w = (t, Ret (iso, ws, names, repair, Some true, sr))
        else main_checks a w = (t, SysExit 1) ∧ logged Error t = true)
       ∧ called COPY t = false.
Proof.
  assert (Hiso : ∃ t0 i,
    (if check_iso a
     then AddMessage "Checking ISO code..." [];; mret (check_iso_code (iso a))
     else mret (Some (PyStr.lower (iso a)))) = (t0, Ret i) ∧ called COPY t0 = false).
  { destruct (check_iso a); eexists _, _; split; reflexivity. }
  destruct Hiso as (t0 & i & E0 & H0).
  destruct (check_input_params_spec w (input_features a) (out_folder a) i)
    as (t1 & Hp & H1).
  destruct (check_fields_ret (reserved_file w) (field_names w)) as (t2 & m & E2 & H2 & _).
  apply (called_logs COPY) in H2.
  assert (Hren : ∃ t3,
    when (negb (bool_decide (m = ∅)))
      (AddMessage "Found fields with reserved words in their names," [];;
       AddMessage "output feature class will have updated names." [];;
       AddMessage "Fields to be changed and the new names are:" [];;
       AddMessage "{}" [VRenames (map_to_list m)];;
       AddMessage "Field names will be renamed in a copy of the feature class." [])
    = (t3, Ret tt) ∧ called COPY t3 = false).
  { destruct (negb _); eexists; split; reflexivity. }
  destruct Hren as (t3 & E3 & H3).
  destruct (check_geometry_spec w (input_features a)) as (t4 & repair & E4 & H4).
  destruct (check_srs_spec w) as (t5 & [g84 wgs] & E5 & H5).
  unfold checks_pass, main_checks.
  destruct (fc_exists w); simpl andb.
  2:{ destruct Hp as [Ep Herr]. eexists. split; [split|].
      - eapply bind_step; [exact E0|].
        eapply bind_step; [reflexivity|].
        rewrite Ep. reflexivity.
      - rewrite !logged_app, Herr. by rewrite !orb_true_r.
      - rewrite !called_app, H0, H1. reflexivity. }
  destruct Hp as [ws Ep].
  destruct (String.eqb (sr_name w) "Unknown"); simpl negb in *; simpl andb.
  { eexists. split; [split|].
    - eapply bind_step; [exact E0|].
      eapply bind_step; [reflexivity|].
      eapply bind_step; [exact Ep|].
      eapply bind_step; [reflexivity|].
      eapply bind_step; [exact E2|].
      eapply bind_step; [exact E3|].
      eapply bind_step; [reflexivity|].
      eapply bind_step; [exact E4|].
      reflexivity.
    - rewrite !logged_app. simpl. by rewrite !orb_true_r.
    - rewrite !called_app, H0, H1, H2, H3, H4. reflexivity. }
  destruct (accepted_shape w).
  - eexists. split.
    + eexists _, _, _, _, _.
      eapply bind_step; [exact E0|].
      eapply bind_step; [reflexivity|].
      eapply bind_step; [exact Ep|].
      eapply bind_step; [reflexivity|].
      eapply bind_step; [exact E2|].
      eapply bind_step; [exact E3|].
      eapply bind_step; [reflexivity|].
      eapply bind_step; [exact E4|].
      eapply bind_step; [reflexivity|].
      eapply bind_step; [exact E5|].
      reflexivity.
    + rewrite !called_app, H0, H1, H2, H3, H4, H5. reflexivity.
  - eexists. split; [split|].
    + eapply bind_step; [exact E0|].
      eapply bind_step; [reflexivity|].
      eapply bind_step; [exact Ep|].
      eapply bind_step; [reflexivity|].
      eapply bind_step; [exact E2|].
      eapply bind_step; [exact E3|].
      eapply bind_step; [reflexivity|].
      eapply bind_step; [exact E4|].
      eapply bind_step; [reflexivity|].
      eapply bind_step; [exact E5|].
      reflexivity.
    + rewrite !logged_app. simpl. by rewrite !orb_true_r.
    + rewrite !called_app, H0, H1, H2, H3, H4, H5. reflexivity.
Qed.

Lemma trace_bind {A B} (m : M A) (k : A → M B) :
  trace (m ≫= k) =
  match result m with
  | Ret a => trace m ++ trace (k a)
  | _ => trace m
  end.
Proof.
  destruct m as [t [a|c|e]]; try reflexivity.
  by rewrite bind_Ret.
Qed.

Lemma called_bind_l {A B} n (m : M A) (k : A → M B) :
  called n (trace m) = true → called n (trace (m ≫= k)) = true.
Proof.
  intros H. rewrite trace_bind. destruct (result m); try assumption.
  by rewrite called_app, H.
Qed.

Lemma called_bind_r {A B} n (m : M A) (k : A → M B) a :
  result m = Ret a → called n (trace (k a)) = true →
  called n (trace (m ≫= k)) = true.
Proof.
  intros E H. rewrite trace_bind, E, called_app, H. by rewrite orb_true_r.
Qed.

Lemma make_copy_trace fc ws iso sr fm :
  called COPY (trace (make_copy fc ws iso sr fm)) = true.
Proof.
  unfold make_copy.
  eapply called_bind_r. { by destruct sr. }
  eapply called_bind_r; [reflexivity|].
  by apply called_bind_l.
Qed.

Lemma main_process_copies a w iso ws names repair topo sr :
  called COPY (trace (main_process a w (iso, ws, names, repair, topo, sr))) = true.
Proof.
  unfold main_process.
  eapply called_bind_r; [reflexivity|].
  apply called_bind_l.
  destruct (negb _); apply make_copy_trace.
Qed.

(** The whole script ends in [sys.exit(1)] exactly when the checks fail;
    when they pass, the working copy is made. *)
Lemma main_spec a w :
  if checks_pass w
  then called COPY (trace (main a w)) = true ∧ exited1 (main a w) = false
  else result (main a w) = SysExit 1
       ∧ logged Error (trace (main a w)) = true
       ∧ called COPY (trace (main a w)) = false.
Proof.
  unfold main. destruct (main_checks_spec a w) as (t & Hc & Ht).
  destruct (checks_pass w).
  - destruct Hc as (iso & ws & names & repair & sr & E).
    split.
    + eapply called_bind_r; [by rewrite E|]. apply main_process_copies.
    + unfold exited1. rewrite result_bind, E. simpl.
      pose proof (no_exit_main_process a w (iso, ws, names, repair, Some true, sr)) as Hn.
      destruct (result _) as [u|c|e] eqn:E'; try reflexivity.
      exfalso. by apply (Hn c).
  - destruct Hc as [-> Herr]. by rewrite bind_SysExit.
Qed.

(** C4, amended. When reading the reserved-words file ends in [IOError],
    [_read_reserved_words] reports it as a warning and returns the words of
    the lines read before the error, none when the file cannot be opened, and
    the script goes on: it ends in [sys.exit(1)] exactly when the input is
    missing, its projection is unknown or its geometry type is not
    accepted. *)
Theorem unreadable_reserved_words_not_fatal (a : args) (w : world) :
  io_error (reserved_file w) = true →
  (∃ t, _read_reserved_words (reserved_file w)
        = (t, Ret (list_to_set (PyStr.strip <$> lines_read (reserved_file w))))
        ∧ logged Warning t = true)
  ∧ (lines_read (reserved_file w) = [] →
     result (_read_reserved_words (reserved_file w)) = Ret ∅)
  ∧ (exited1 (main a w) = true ↔ checks_pass w = false).
Proof.
  intros Herr. split_and!.
  - destruct (read_reserved_words_ret (reserved_file w)) as (t & E & _ & Hw).
    exists t. split; [exact E|]. by rewrite Hw.
  - intros Hnil.
    destruct (read_reserved_words_ret (reserved_file w)) as (t & E & _ & _).
    rewrite E. unfold reserved_set. by rewrite Hnil.
  - pose proof (main_spec a w) as H. destruct (checks_pass w).
    + destruct H as [_ ->]. split; discriminate.
    + destruct H as (E & _). unfold exited1. by rewrite E.
Qed.

Lemma unreadable_reserved_words_not_fatal_witness :
  result (_read_reserved_words (mk_reading ["DATE "; "USER "] true))
  = Ret (list_to_set ["DATE"; "USER"])
  ∧ (exited1 (main sample_args
                (sample_world (mk_reading ["DATE "; "USER "] true) "Polygon")) = true
     ↔ checks_pass (sample_world (mk_reading ["DATE "; "USER "] true) "Polygon") = false).
Proof.
  destruct (unreadable_reserved_words_not_fatal sample_args
              (sample_world (mk_reading ["DATE "; "USER "] true) "Polygon") eq_refl)
    as ((t & E & _) & _ & Hexit).
  split; [|exact Hexit].
  change (reserved_file (sample_world (mk_reading ["DATE "; "USER "] true) "Polygon"))
    with (mk_reading ["DATE "; "USER "] true) in E.
  by rewrite E.
Defined.

(** C4 as stated fails: with the file unreadable and the input sound, the
    script makes its copy and runs to its end. *)
Lemma unreadable_reserved_words_run_completes :
  ¬ halts_on_unreadable_file sample_args (sample_world unreadable "Polygon").
Proof.
  intros H. specialize (H eq_refl). vm_compute in H. discriminate H.
Qed.

(** C5, amended. For every input whose geometry type is neither Polygon
    nor MultiPatch, the script reports an error and ends in [sys.exit(1)]
    without having made a working copy. *)
Theorem non_polygon_exits_before_copy (a : args) (w : world) :
  accepted_shape w = false →
  result (main a w) = SysExit 1
  ∧ logged Error (trace (main a w)) = true
  ∧ called COPY (trace (main a w)) = false.
Proof.
  intros Hs. pose proof (main_spec a w) as H.
  unfold checks_pass in H. rewrite Hs, andb_false_r in H. exact H.
Qed.

Lemma non_polygon_exits_before_copy_witness :
  result (main sample_args (sample_world unreadable "Polyline")) = SysExit 1
  ∧ logged Error (trace (main sample_args (sample_world unreadable "Polyline"))) = true
  ∧ called COPY (trace (main sample_args (sample_world unreadable "Polyline"))) = false.
Proof.
  apply (non_polygon_exits_before_copy sample_args (sample_world unreadable "Polyline")).
  reflexivity.
Defined.

(** C5 as stated fails: a MultiPatch input is not Polygon, and it is copied
    and analysed. *)
Lemma multipatch_is_copied :
  ¬ halts_on_non_polygon sample_args (sample_world (readable []) "MultiPatch").
Proof.
  intros H. destruct H as (H & _); [discriminate|].
  vm_compute in H. discriminate H.
Qed.

(** ** The eliminate script *)

Lemma render_query (g o : bool) (max_area : string) :
  render <$> query g o max_area = query_text g o max_area.
Proof. destruct g, o; reflexivity. Qed.

Lemma check_fc_spec in_fc flds :
  ∃ t, check_fc in_fc flds =
         (t, if bool_decide ("gaps" ∈ flds) || bool_decide ("overlaps" ∈ flds)
             then Ret (bool_decide ("gaps" ∈ flds), bool_decide ("overlaps" ∈ flds))
             else SysExit 1)
       ∧ called ELIMINATE t = false.
Proof.
  unfold check_fc.
  destruct (bool_decide ("AREA_SQKM" ∈ flds)), (bool_decide ("gaps" ∈ flds)),
    (bool_decide ("overlaps" ∈ flds)); eexists; split; reflexivity.
Qed.

Lemma holds_query (numeric : string → option Q) (g o : bool) (max_area : string)
    (m : Q) (q : cond) (r : row) :
  g || o = true →
  numeric max_area = Some m →
  query g o max_area = Some q →
  bool_decide (holds numeric r q = Some true) = flagged g o r && below m r.
Proof.
  intros Hgo Hm Hq. unfold flagged, below.
  destruct g, o; try discriminate Hgo; injection Hq as <-; simpl;
    rewrite Hm; simpl; unfold flag_column; simpl;
    destruct (gaps_fld r) as [zg|], (overlaps_fld r) as [zo|];
    destruct (Qle_bool m (AREA_SQKM r)); simpl;
    repeat match goal with
    | |- context [?z =? 1] =>
        destruct (Z.eqb_spec z 1) as [->|?]; simpl
    end;
    repeat match goal with
    | |- context [bool_decide (?P)] =>
        first [ rewrite (bool_decide_eq_true_2 P) by congruence
              | rewrite (bool_decide_eq_false_2 P) by congruence ]
    end; reflexivity.
Qed.

Lemma well_formed_query (numeric : string → option Q) (g o : bool)
    (max_area : string) (flds : list string) (m : Q) (q : cond) :
  g = bool_decide ("gaps" ∈ flds) → o = bool_decide ("overlaps" ∈ flds) →
  bool_decide ("AREA_SQKM" ∈ flds) = true →
  numeric max_area = Some m →
  query g o max_area = Some q →
  well_formed numeric flds q = true.
Proof.
  intros Hg Ho Ha Hm Hq.
  destruct g, o; try discriminate Hq; injection Hq as <-; simpl;
    rewrite <- ?Hg, <- ?Ho, Ha, Hm; reflexivity.
Qed.

(** A where clause on a missing AREA_SQKM column is rejected. *)
Lemma ill_formed_query (numeric : string → option Q) (g o : bool)
    (max_area : string) (flds : list string) (q : cond) :
  bool_decide ("AREA_SQKM" ∈ flds) = false →
  query g o max_area = Some q →
  well_formed numeric flds q = false.
Proof.
  intros Ha Hq.
  destruct g, o; try discriminate Hq; injection Hq as <-; simpl;
    rewrite Ha; by rewrite ?andb_false_r.
Qed.

(** C6, amended. If the feature class has neither a "gaps" nor an
    "overlaps" field the eliminate script ends in [sys.exit(1)] without
    running Eliminate.  Otherwise, when the feature class has an AREA_SQKM
    field and the threshold reads as a number, the script logs and sends the
    where clause of the three that fits the flag fields present, calls the
    toolkit three times and in this order (layer, selection, Eliminate on
    that layer), and Eliminate is invoked on exactly the records with an
    existing flag equal to 1 and an area strictly below the threshold. *)
Theorem eliminate_selects_flagged_below (numeric : string → option Q)
    (input_features max_area : string) (flds : list string) (rows : list row) :
  let g := bool_decide ("gaps" ∈ flds) in
  let o := bool_decide ("overlaps" ∈ flds) in
  let run := eliminate_main numeric input_features max_area flds rows in
  (g || o = false → result run = SysExit 1 ∧ called ELIMINATE (trace run) = false)
  ∧ (g || o = true → bool_decide ("AREA_SQKM" ∈ flds) = true →
     ∀ m, numeric max_area = Some m →
       ∃ q, query_text g o max_area = Some q
          ∧ trace run
            = [ Log Message "checking inputs..." [];
                Log Message "Where query: {}" [VStr q];
                Log Message "Eliminating polygons from {}" [VStr input_features];
                Tool "MakeFeatureLayer_management" [VStr input_features; VStr "lyr"];
                Tool "SelectLayerByAttribute_management"
                  [VStr "lyr"; VStr "NEW_SELECTION"; VStr q];
                Tool ELIMINATE [VStr "lyr"; VStr (input_features +:+ "_elim")] ]
          ∧ result run = Ret (List.filter (λ r, flagged g o r && below m r) rows)).
Proof.
  intros g o run. subst run. unfold eliminate_main. split.
  - intros Hgo.
    destruct (check_fc_spec input_features flds) as (t & E & Ht).
    fold g o in E. rewrite Hgo in E.
    assert (Hrun : ∀ k : bool * bool → M (list row),
      (AddMessage "checking inputs..." [];; check_fc input_features flds ≫= k)
      = ([Log Message "checking inputs..." []] ++ t, SysExit 1)).
    { intros k. eapply bind_step; [reflexivity|]. by rewrite E. }
    rewrite Hrun. split; [reflexivity|].
    unfold trace. cbn [fst]. by rewrite called_app, Ht.
  - intros Hgo Harea m Hm.
    assert (E : check_fc input_features flds = ([], Ret (g, o))).
    { unfold check_fc. rewrite Harea. cbn [negb when].
      eapply (bind_step _ _ [] tt []); [reflexivity|]. cbv beta zeta.
      fold g o. by rewrite Hgo. }
    destruct (query g o max_area) as [q|] eqn:Hq.
    2:{ destruct g, o; discriminate. }
    pose proof (well_formed_query numeric g o max_area flds m q eq_refl eq_refl
                  Harea Hm Hq) as Hwf.
    exists (render q). split; [by rewrite <- render_query, Hq|].
    assert (Hrun :
      (AddMessage "checking inputs..." [];;
       check_fc input_features flds ≫= λ '(g, o),
         match query g o max_area with
         | Some q =>
             AddMessage "Where query: {}" [VStr (render q)];;
             AddMessage "Eliminating polygons from {}" [VStr input_features];;
             run_eliminate numeric flds rows input_features q
         | None => raise "NameError"
         end)
      = ([Log Message "checking inputs..." []] ++ [] ++
         [Log Message "Where query: {}" [VStr (render q)]] ++
         [Log Message "Eliminating polygons from {}" [VStr input_features]] ++
         ([Tool "MakeFeatureLayer_management" [VStr input_features; VStr "lyr"]] ++ []) ++
         ([Tool "SelectLayerByAttribute_management"
            [VStr "lyr"; VStr "NEW_SELECTION"; VStr (render q)]] ++ []) ++
         [Tool ELIMINATE [VStr "lyr"; VStr (input_features +:+ "_elim")]] ++ [],
         Ret (List.filter (λ r, bool_decide (holds numeric r q = Some true)) rows))).
    { eapply bind_step; [reflexivity|].
      eapply bind_step; [exact E|]. cbv beta iota. rewrite Hq.
      eapply bind_step; [reflexivity|].
      eapply bind_step; [reflexivity|].
      unfold run_eliminate.
      eapply bind_step.
      { unfold MakeFeatureLayer_management. eapply bind_step; reflexivity. }
      cbv beta.
      eapply bind_step.
      { unfold SelectLayerByAttribute_management. eapply bind_step; [reflexivity|].
        cbn [table_rows]. unfold select_where. rewrite Hwf. reflexivity. }
      cbv beta zeta. unfold Eliminate.
      eapply bind_step; reflexivity. }
    rewrite Hrun. unfold trace, result. cbn [fst snd]. split; [reflexivity|].
    f_equal. apply List.filter_ext. intros r.
    by apply (holds_query numeric g o max_area).
Qed.

Lemma eliminate_selects_flagged_below_witness :
  ∃ q, query_text true true "0.5" = Some q
     ∧ trace (eliminate_main number_literal "abw_ingest_union" "0.5"
                ["gaps"; "overlaps"; "AREA_SQKM"]
                [mk_row 1 (Some 1) (1 # 4) (Some 1) (Some 0);
                 mk_row 2 None (1 # 4) (Some 0) (Some 1);
                 mk_row 3 None 2 (Some 0) (Some 1);
                 mk_row 4 (Some 2) (1 # 10) (Some 2) (Some 0)])
       = [ Log Message "checking inputs..." [];
           Log Message "Where query: {}" [VStr q];
           Log Message "Eliminating polygons from {}" [VStr "abw_ingest_union"];
           Tool "MakeFeatureLayer_management" [VStr "abw_ingest_union"; VStr "lyr"];
           Tool "SelectLayerByAttribute_management"
             [VStr "lyr"; VStr "NEW_SELECTION"; VStr q];
           Tool ELIMINATE [VStr "lyr"; VStr ("abw_ingest_union" +:+ "_elim")] ]
     ∧ result (eliminate_main number_literal "abw_ingest_union" "0.5"
                 ["gaps"; "overlaps"; "AREA_SQKM"]
                 [mk_row 1 (Some 1) (1 # 4) (Some 1) (Some 0);
                  mk_row 2 None (1 # 4) (Some 0) (Some 1);
                  mk_row 3 None 2 (Some 0) (Some 1);
                  mk_row 4 (Some 2) (1 # 10) (Some 2) (Some 0)])
       = Ret [mk_row 1 (Some 1) (1 # 4) (Some 1) (Some 0);
              mk_row 2 None (1 # 4) (Some 0) (Some 1)].
Proof.
  destruct (proj2 (eliminate_selects_flagged_below number_literal
                     "abw_ingest_union" "0.5"
                     ["gaps"; "overlaps"; "AREA_SQKM"]
                     [mk_row 1 (Some 1) (1 # 4) (Some 1) (Some 0);
                      mk_row 2 None (1 # 4) (Some 0) (Some 1);
                      mk_row 3 None 2 (Some 0) (Some 1);
                      mk_row 4 (Some 2) (1 # 10) (Some 2) (Some 0)])
              eq_refl eq_refl (5 # 10)%Q eq_refl) as (q & Hq & Ht & Hr).
  exists q. split_and!; [exact Hq | exact Ht | exact Hr].
Defined.

(** C6 as stated fails: on a feature class with a gaps field and no
    AREA_SQKM field the script reports the missing field and goes on, the
    selection is rejected, and Eliminate is not invoked. *)
Lemma eliminate_needs_area_field :
  ¬ eliminates_as_stated number_literal "abw_ingest_union" "0.5"
      ["OBJECTID"; "gaps"] [mk_row 1 None (1 # 4) None (Some 1)].
Proof.
  intros [_ H]. destruct (H eq_refl (5 # 10)%Q eq_refl) as [Hc _].
  vm_compute in Hc. discriminate Hc.
Qed.

(** ** The review project *)

(** C8 at a union named [abw_ingest_union] whose geodatabase also holds
    [abw_ingest]: the three union layers are rebound to the input, the
    project is saved, and the layer [original_loaded] is rebound to the
    input feature class as well, not to [abw_ingest]. *)
Theorem setup_project_rebinds_original_to_input :
  let run := setup_project review_fc (Some review_layers) review_existing in
  PyStr.slice_to (PyStr.slice_from review_fc (PyStr.rfind "\" review_fc + 1)) 3
    +:+ "_ingest" = "abw_ingest"
  ∧ result run =
      Ret [ mk_layer "admin_union" "C:\data\abw_ingest.gdb" "abw_ingest_union";
            mk_layer "gaps" "C:\data\abw_ingest.gdb" "abw_ingest_union";
            mk_layer "overlaps" "C:\data\abw_ingest.gdb" "abw_ingest_union";
            mk_layer "original_loaded" "C:\data\abw_ingest.gdb" "abw_ingest_union" ]
  ∧ called "aprx.importDocument" (trace run) = true
  ∧ called "aprx.save" (trace run) = true.
Proof. vm_compute. split_and!; reflexivity. Qed.

(** ** The counting pass *)

Lemma for_each_cons {A S} (x : A) (l : list A) (s : S) (body : S → A → M S) :
  for_each (x :: l) s body = body s x ≫= λ s', for_each l s' body.
Proof. reflexivity. Qed.

Lemma truthy_Some (v : option Z) :
  truthy v = true → ∃ z, v = Some z ∧ z ≠ 0.
Proof.
  destruct v as [z|]; [|discriminate]. simpl.
  destruct (Z.eqb_spec z 0); [discriminate|]. intros _. by exists z.
Qed.

Lemma gap_count_cons (r : row) (rows : list row) :
  gap_count (r :: rows) = (if truthy (union_uid r) then 0 else 1) + gap_count rows.
Proof.
  unfold gap_count. simpl List.filter.
  destruct (truthy (union_uid r)); cbn [negb length]; lia.
Qed.

Lemma uids_of_cons (r : row) (rows : list row) :
  uids_of (r :: rows)
  = (if truthy (union_uid r) then option_list (union_uid r) else []) ++ uids_of rows.
Proof.
  unfold uids_of. simpl. destruct (truthy (union_uid r)) eqn:Ht; simpl.
  - by destruct (union_uid r).
  - reflexivity.
Qed.

Lemma count_pass_from (rows : list row) (gaps : Z) (uids : list Z) :
  for_each rows (gaps, uids) (λ '(gaps, uids) r,
    if negb (truthy (union_uid r)) then mret (gaps + 1, uids)
    else id ← py_int (union_uid r); mret (gaps, uids ++ [id]))
  = ([], Ret (gaps + gap_count rows, uids ++ uids_of rows)).
Proof.
  revert gaps uids. induction rows as [|r rows IH]; intros gaps uids.
  - unfold gap_count, uids_of. simpl. by rewrite Z.add_0_r, app_nil_r.
  - rewrite for_each_cons. cbv beta iota.
    rewrite gap_count_cons, uids_of_cons.
    destruct (truthy (union_uid r)) eqn:Ht; cbn [negb].
    + destruct (truthy_Some _ Ht) as (z & -> & _). cbn [py_int option_list].
      erewrite bind_step; [|eapply bind_step; reflexivity|apply IH].
      simpl. by rewrite <- app_assoc.
    + erewrite bind_step; [|reflexivity|apply IH]. simpl.
      by replace (gaps + (1 + gap_count rows)) with (gaps + 1 + gap_count rows) by lia.
Qed.

Lemma count_pass_ok (rows : list row) :
  count_pass rows = ([], Ret (gap_count rows, uids_of rows)).
Proof. unfold count_pass. by rewrite count_pass_from. Qed.

Lemma rows_split (rows : list row) :
  Z.of_nat (length rows) = gap_count rows + Z.of_nat (length (uids_of rows)).
Proof.
  induction rows as [|r rows IH]; [reflexivity|].
  rewrite gap_count_cons, uids_of_cons, length_app, length_cons.
  destruct (truthy (union_uid r)) eqn:Ht.
  - destruct (truthy_Some _ Ht) as (z & -> & _). simpl option_list. simpl length. lia.
  - simpl length. lia.
Qed.

(** ** Duplicated ids *)

Lemma dupes_of_spec (uids : list Z) (x : Z) :
  x ∈ dupes_of uids ↔ (2 <= count_occ Z.eq_dec uids x)%nat.
Proof.
  unfold dupes_of.
  assert (H : ∀ l,
    let st := foldl (λ '(visited, dupes) x,
                if decide (x ∈ visited) then (visited, dupes ∪ {[x]})
                else (visited ∪ {[x]}, dupes))
             ((∅ : gset Z), (∅ : gset Z)) l in
    (∀ y, y ∈ fst st ↔ (1 <= count_occ Z.eq_dec l y)%nat)
    ∧ (∀ y, y ∈ snd st ↔ (2 <= count_occ Z.eq_dec l y)%nat)).
  { induction l as [|a l IH] using rev_ind.
    - simpl. split; intros y; rewrite elem_of_empty; lia.
    - rewrite foldl_snoc. cbv zeta in IH.
      destruct (foldl _ _ l) as [visited dupes]. simpl in IH.
      destruct IH as [IHv IHd].
      cbv zeta. 
      assert (Hc : ∀ y, count_occ Z.eq_dec (l ++ [a]) y
                        = (count_occ Z.eq_dec l y + if decide (a = y) then 1 else 0)%nat).
      { intros y. rewrite count_occ_app. simpl.
        destruct (Z.eq_dec a y), (decide (a = y)); try contradiction; lia. }
      destruct (decide (a ∈ visited)) as [Hin|Hnin]; simpl; split; intros y;
        rewrite Hc, ?elem_of_union, ?elem_of_singleton, ?IHv, ?IHd;
        destruct (decide (a = y)) as [->|Hne];
        try (apply IHv in Hin); try (rewrite IHv in Hnin); try lia.
      all: split; [intros [?|?]; try lia; congruence | intros; left; lia]. }
  apply (H uids).
Qed.

(** ** Well-formed unions *)

Lemma union_ok_inv (n : Z) (rows : list row) :
  union_ok n rows = true →
  (∀ r, r ∈ rows → 0 < OBJECTID r ∧ ∀ k, union_uid r = Some k → 1 <= k <= n)
  ∧ NoDup (OBJECTID <$> rows)
  ∧ (∀ k, 1 <= k <= n → ∃ r, r ∈ rows ∧ union_uid r = Some k).
Proof.
  unfold union_ok. rewrite !andb_true_iff, !forallb_forall, bool_decide_eq_true.
  intros [[[Hrows Hnd] Hcov] _]. split_and!; [|assumption|].
  - intros r Hr. apply list_elem_of_In, Hrows in Hr.
    apply andb_true_iff in Hr as [Ho Hu]. split; [lia|].
    intros k Hk. rewrite Hk in Hu. lia.
  - intros k Hk. specialize (Hcov k).
    destruct (existsb_exists (λ r, bool_decide (union_uid r = Some k)) rows) as [He _].
    destruct He as (r & Hr & Hb).
    { apply Hcov, list_elem_of_In, elem_of_seqZ. lia. }
    exists r. split; [by apply list_elem_of_In|]. by apply bool_decide_eq_true in Hb.
Qed.

Lemma count_occ_uids (u : Z) (rows : list row) :
  u ≠ 0 → count_occ Z.eq_dec (uids_of rows) u = occurrences u rows.
Proof.
  intros Hu. unfold occurrences.
  induction rows as [|r rows IH]; [reflexivity|].
  rewrite uids_of_cons, count_occ_app, IH. simpl List.filter.
  destruct (bool_decide_reflect (union_uid r = Some u)) as [E|E].
  - rewrite E. cbn [truthy]. destruct (Z.eqb_spec u 0); [contradiction|].
    change (option_list (Some u)) with [u]. simpl count_occ.
    destruct (Z.eq_dec u u); [reflexivity|contradiction].
  - destruct (truthy (union_uid r)) eqn:Ht; [|reflexivity].
    destruct (truthy_Some _ Ht) as (z & Hz & _). rewrite Hz in *.
    change (option_list (Some z)) with [z]. simpl count_occ.
    destruct (Z.eq_dec z u) as [->|_]; [contradiction|].
    reflexivity.
Qed.

Lemma elem_of_uids_of (k : Z) (rows : list row) :
  k ∈ uids_of rows ↔ k ≠ 0 ∧ ∃ r, r ∈ rows ∧ union_uid r = Some k.
Proof.
  unfold uids_of. rewrite list_elem_of_omap. split.
  - intros (r & Hr & Hk). destruct (truthy (union_uid r)) eqn:Ht; [|discriminate].
    destruct (truthy_Some _ Ht) as (z & Hz & Hne).
    rewrite Hz in Hk. injection Hk as <-. split; [assumption|]. by exists r.
  - intros (Hne & r & Hr & Hk). exists r. split; [assumption|].
    rewrite Hk. simpl. by destruct (Z.eqb_spec k 0).
Qed.

Lemma has_duplicate_inv (rows : list row) :
  has_duplicate rows = true →
  ∃ r u, r ∈ rows ∧ union_uid r = Some u ∧ (1 < occurrences u rows)%nat.
Proof.
  unfold has_duplicate. intros H. apply existsb_exists in H as (r & Hr & Hb).
  destruct (union_uid r) as [u|] eqn:E; [|discriminate].
  exists r, u. split_and!; [by apply list_elem_of_In|assumption|].
  by apply Nat.ltb_lt in Hb.
Qed.

(** With every input polygon present, a repeated id makes the collected
    ids outnumber the input polygons: the script's test for overlaps. *)
Lemma duplicate_gives_overlaps (n : Z) (rows : list row) :
  union_ok n rows = true → has_duplicate rows = true →
  n < Z.of_nat (length (uids_of rows)).
Proof.
  intros Hok Hdup. destruct (union_ok_inv n rows Hok) as (Hrows & _ & Hcov).
  destruct (has_duplicate_inv rows Hdup) as (r & u & Hr & Hu & Hocc).
  assert (Hu0 : u ≠ 0). { destruct (Hrows r Hr) as [_ H]. specialize (H u Hu). lia. }
  destruct (Z.lt_ge_cases n (Z.of_nat (length (uids_of rows)))) as [|Hle]; [assumption|].
  exfalso.
  assert (Hsub : seqZ 1 n ⊆+ uids_of rows).
  { apply NoDup_submseteq; [apply NoDup_seqZ|].
    intros k Hk. apply elem_of_seqZ in Hk. apply elem_of_uids_of.
    split; [lia|]. apply Hcov. lia. }
  assert (Hperm : seqZ 1 n ≡ₚ uids_of rows).
  { apply submseteq_length_Permutation; [assumption|]. rewrite length_seqZ. lia. }
  assert (Hnd : NoDup (uids_of rows)).
  { rewrite <- Hperm. apply NoDup_seqZ. }
  apply NoDup_ListNoDup in Hnd.
  pose proof (proj1 (NoDup_count_occ Z.eq_dec (uids_of rows)) Hnd u) as Hc.
  rewrite count_occ_uids in Hc by assumption. lia.
Qed.

(** ** The size scan *)

Lemma result_bind_Ret {A B} (m : M A) (k : A → M B) (a : A) :
  result m = Ret a → result (m ≫= k) = result (k a).
Proof. intros E. by rewrite result_bind, E. Qed.

Lemma result_bind_Raise {A B} (m : M A) (k : A → M B) (e : string) :
  result m = Raise e → result (m ≫= k) = Raise e.
Proof. intros E. by rewrite result_bind, E. Qed.

Lemma mret_bind {A B} (a : A) (k : A → M B) : mret a ≫= k = k a.
Proof.
  change (mret a : M A) with (([], Ret a) : M A). rewrite bind_Ret.
  simpl. symmetry. apply M_eta.
Qed.

(** On a row with an id, the step returns, and each record moves as
    [best_step] says. *)
Lemma size_step_ok (dupes : gset Z) (sizes : gmap Z (Q * Z)) (r : row) (u : Z) :
  OBJECTID r ≠ 0 → union_uid r = Some u →
  (∀ id, id ∈ dupes → is_Some (sizes !! id)) →
  ∃ sizes', size_step dupes sizes r = ([], Ret sizes')
    ∧ ∀ id, sizes' !! id = if decide (id ∈ dupes)
                           then (λ acc, best_step id acc r) <$> sizes !! id
                           else sizes !! id.
Proof.
  intros Ho Hu Hdom. unfold size_step.
  destruct (Z.eqb_spec (OBJECTID r) 0) as [|_]; [contradiction|]. cbn [negb].
  rewrite Hu. cbn [py_int]. rewrite mret_bind. cbv zeta.
  assert (Hother : ∀ id, id ≠ u → id ∈ dupes →
            (λ acc, best_step id acc r) <$> sizes !! id = sizes !! id).
  { intros id Hne Hin. destruct (Hdom id Hin) as [acc ->]. simpl.
    unfold best_step. rewrite Hu, bool_decide_eq_false_2 by congruence. reflexivity. }
  destruct (decide (u ∈ dupes)) as [Hin|Hnin].
  - destruct (Hdom u Hin) as [[largest lo] Hl]. rewrite Hl.
    destruct (Qgt_bool (AREA_SQKM r) largest) eqn:Hgt.
    + eexists. split; [reflexivity|]. intros id.
      destruct (decide (id ∈ dupes)) as [Hid|Hid].
      * destruct (decide (id = u)) as [->|Hne].
        -- rewrite lookup_insert_eq, Hl. simpl. unfold best_step. simpl.
           by rewrite Hu, bool_decide_eq_true_2, Hgt.
        -- rewrite lookup_insert_ne by congruence. by rewrite Hother.
      * rewrite lookup_insert_ne; [reflexivity|]. intros ->. contradiction.
    + eexists. split; [reflexivity|]. intros id.
      destruct (decide (id ∈ dupes)) as [Hid|Hid]; [|reflexivity].
      destruct (decide (id = u)) as [->|Hne].
      * rewrite Hl. simpl. unfold best_step. simpl.
        by rewrite Hgt, andb_false_r.
      * by rewrite Hother.
  - eexists. split; [reflexivity|]. intros id.
    destruct (decide (id ∈ dupes)) as [Hid|Hid]; [|reflexivity].
    rewrite Hother; [reflexivity| |assumption]. intros ->. contradiction.
Qed.

Lemma size_scan_from (dupes : gset Z) (rows : list row) (sizes : gmap Z (Q * Z)) :
  (∀ r, r ∈ rows → OBJECTID r ≠ 0 ∧ is_Some (union_uid r)) →
  (∀ id, id ∈ dupes → is_Some (sizes !! id)) →
  ∃ sizes', for_each rows sizes (size_step dupes) = ([], Ret sizes')
    ∧ ∀ id, sizes' !! id = if decide (id ∈ dupes)
                           then best id rows <$> sizes !! id
                           else sizes !! id.
Proof.
  revert sizes. induction rows as [|r rows IH]; intros sizes Hrows Hdom.
  - exists sizes. split; [reflexivity|]. intros id.
    destruct (decide (id ∈ dupes)); [|reflexivity].
    unfold best. simpl. by destruct (sizes !! id).
  - destruct (Hrows r) as [Ho [u Hu]]; [apply elem_of_cons; by left|].
    destruct (size_step_ok dupes sizes r u Ho Hu Hdom) as (s1 & E1 & H1).
    destruct (IH s1) as (s2 & E2 & H2).
    { intros r' Hr'. apply Hrows. apply elem_of_cons. by right. }
    { intros id Hid. rewrite H1. rewrite decide_True by assumption.
      destruct (Hdom id Hid) as [acc ->]. by eexists. }
    exists s2. split.
    + rewrite for_each_cons. eapply (bind_step _ _ [] s1 []); [exact E1|exact E2].
    + intros id. rewrite H2, H1.
      destruct (decide (id ∈ dupes)); [|reflexivity].
      destruct (sizes !! id); reflexivity.
Qed.

Lemma size_scan_ok (dupes : gset Z) (rows : list row) :
  (∀ r, r ∈ rows → OBJECTID r ≠ 0 ∧ is_Some (union_uid r)) →
  ∃ sizes, size_scan dupes rows = ([], Ret sizes)
    ∧ ∀ id, sizes !! id = if decide (id ∈ dupes)
                          then Some (best id rows (0%Q, 0)) else None.
Proof.
  intros Hrows.
  destruct (size_scan_from dupes rows (gset_to_gmap (0%Q, 0) dupes) Hrows)
    as (sizes & E & H).
  { intros id Hid. exists (0%Q, 0). by apply lookup_gset_to_gmap_Some. }
  exists sizes. split; [exact E|]. intros id. rewrite H.
  rewrite lookup_gset_to_gmap.
  destruct (decide (id ∈ dupes)) as [Hid|Hid].
  - by rewrite option_guard_True.
  - by rewrite option_guard_False.
Qed.

Lemma has_null_cons (r : row) (rows : list row) :
  has_null (r :: rows) = bool_decide (union_uid r = None) || has_null rows.
Proof. reflexivity. Qed.

Lemma size_scan_null_from (dupes : gset Z) (rows : list row) (sizes : gmap Z (Q * Z)) :
  (∀ r, r ∈ rows → OBJECTID r ≠ 0) →
  has_null rows = true →
  (∀ id, id ∈ dupes → is_Some (sizes !! id)) →
  for_each rows sizes (size_step dupes) = ([], Raise "TypeError").
Proof.
  revert sizes. induction rows as [|r rows IH]; intros sizes Hrows Hnull Hdom.
  - discriminate.
  - assert (Ho : OBJECTID r ≠ 0) by (apply Hrows, elem_of_cons; by left).
    rewrite for_each_cons.
    destruct (union_uid r) as [u|] eqn:Hu.
    + destruct (size_step_ok dupes sizes r u Ho Hu Hdom) as (s1 & E1 & H1).
      rewrite E1, bind_Ret. rewrite IH; [reflexivity| | |].
      * intros r' Hr'. apply Hrows, elem_of_cons. by right.
      * rewrite has_null_cons, Hu in Hnull.
        by rewrite bool_decide_eq_false_2 in Hnull by discriminate.
      * intros id Hid. rewrite H1, decide_True by assumption.
        destruct (Hdom id Hid) as [acc ->]. by eexists.
    + unfold size_step.
      destruct (Z.eqb_spec (OBJECTID r) 0) as [|_]; [contradiction|]. cbn [negb].
      rewrite Hu. reflexivity.
Qed.

Lemma update_cursor_cons (r : row) (rows : list row) (body : row → M row) :
  update_cursor (r :: rows) body
  = r' ← body r; rest' ← update_cursor rows body; mret (r' :: rest').
Proof. reflexivity. Qed.

Lemma overlap_flag_row_Some (dupes mp : gset Z) (r : row) :
  is_Some (union_uid r) →
  overlap_flag_row dupes mp r = ([], Ret (set_overlaps r (overlap_flag dupes mp r))).
Proof.
  intros [u Hu]. unfold overlap_flag_row, overlap_flag. rewrite Hu.
  cbn [py_int]. cbv zeta. rewrite mret_bind.
  destruct (decide (u ∈ dupes)); [destruct (decide (OBJECTID r ∈ mp))|];
    reflexivity.
Qed.

Lemma overlap_flag_row_None (dupes mp : gset Z) (r : row) :
  union_uid r = None → overlap_flag_row dupes mp r = ([], Raise "TypeError").
Proof. intros Hu. unfold overlap_flag_row. by rewrite Hu. Qed.

Lemma flag_overlaps_null (dupes mp : gset Z) (rows : list row) :
  has_null rows = true →
  flag_overlaps dupes mp rows = ([], Raise "TypeError").
Proof.
  unfold flag_overlaps. induction rows as [|r rows IH]; [discriminate|].
  rewrite has_null_cons, update_cursor_cons. intros Hnull.
  destruct (union_uid r) as [u|] eqn:Hu.
  - rewrite overlap_flag_row_Some by (rewrite Hu; by eexists).
    rewrite bind_Ret, IH; [reflexivity|].
    by rewrite bool_decide_eq_false_2 in Hnull by discriminate.
  - by rewrite overlap_flag_row_None.
Qed.

Lemma flag_overlaps_ok (dupes mp : gset Z) (rows : list row) :
  (∀ r, r ∈ rows → is_Some (union_uid r)) →
  flag_overlaps dupes mp rows
  = ([], Ret ((λ r, set_overlaps r (overlap_flag dupes mp r)) <$> rows)).
Proof.
  unfold flag_overlaps. induction rows as [|r rows IH]; [reflexivity|].
  intros Hrows. rewrite update_cursor_cons.
  rewrite overlap_flag_row_Some by (apply Hrows, elem_of_cons; by left).
  rewrite IH by (intros r' Hr'; apply Hrows, elem_of_cons; by right).
  reflexivity.
Qed.

Lemma flag_gaps_ok (rows : list row) :
  flag_gaps rows
  = ([], Ret ((λ r, set_gaps r (if truthy (union_uid r) then 0 else 1)) <$> rows)).
Proof.
  unfold flag_gaps. induction rows as [|r rows IH]; [reflexivity|].
  rewrite update_cursor_cons, IH. rewrite fmap_cons.
  destruct (truthy (union_uid r)); cbn [negb]; by rewrite mret_bind, bind_Ret.
Qed.

(** ** Areas *)

Lemma Qgt_bool_true (a b : Q) : Qgt_bool a b = true ↔ (b < a)%Q.
Proof.
  unfold Qgt_bool. rewrite negb_true_iff, <- not_true_iff_false, Qle_bool_iff.
  split; [apply Qnot_le_lt | apply Qlt_not_le].
Qed.

Lemma Qgt_bool_false (a b : Q) : Qgt_bool a b = false ↔ (a <= b)%Q.
Proof.
  unfold Qgt_bool. rewrite negb_false_iff. apply Qle_bool_iff.
Qed.

Lemma best_step_ge (id : Z) (acc : Q * Z) (r : row) :
  (fst acc <= fst (best_step id acc r))%Q.
Proof.
  unfold best_step.
  destruct (bool_decide _); simpl; [|apply Qle_refl].
  destruct (Qgt_bool _ _) eqn:E; simpl; [|apply Qle_refl].
  by apply Qlt_le_weak, Qgt_bool_true.
Qed.

Lemma best_ge (id : Z) (rows : list row) (init : Q * Z) :
  (fst init <= fst (best id rows init))%Q.
Proof.
  unfold best. revert init. induction rows as [|r rows IH]; intros init; simpl.
  - apply Qle_refl.
  - eapply Qle_trans; [apply (best_step_ge id init r)|apply IH].
Qed.

(** The record kept is at least as large as every fragment of the id. *)
Lemma best_upper (id : Z) (rows : list row) (init : Q * Z) (r : row) :
  r ∈ rows → union_uid r = Some id →
  (AREA_SQKM r <= fst (best id rows init))%Q.
Proof.
  unfold best. revert init. induction rows as [|x rows IH]; intros init Hin Hu.
  - by apply elem_of_nil in Hin.
  - simpl. apply elem_of_cons in Hin as [->|Hin]; [|by apply IH].
    eapply Qle_trans; [|apply (best_ge id rows)].
    unfold best_step. rewrite bool_decide_eq_true_2 by assumption. simpl.
    destruct (Qgt_bool _ _) eqn:E; simpl; [apply Qle_refl|].
    by apply Qgt_bool_false.
Qed.

(** The record kept is the initial one or comes from a fragment of the id
    that is strictly larger than the initial area. *)
Lemma best_source (id : Z) (rows : list row) (init : Q * Z) :
  best id rows init = init
  ∨ ∃ r, r ∈ rows ∧ union_uid r = Some id
       ∧ best id rows init = (AREA_SQKM r, OBJECTID r)
       ∧ (fst init < AREA_SQKM r)%Q.
Proof.
  unfold best. revert init. induction rows as [|x rows IH]; intros init.
  - by left.
  - simpl. destruct (IH (best_step id init x)) as [E|(r & Hr & Hu & E & Hlt)].
    + rewrite E. unfold best_step.
      destruct (bool_decide_reflect (union_uid x = Some id)) as [Hx|Hx]; simpl;
        [|by left].
      destruct (Qgt_bool _ _) eqn:G; [|by left].
      right. exists x. split_and!; [apply elem_of_cons; by left|assumption|reflexivity|].
      by apply Qgt_bool_true.
    + right. exists r. split_and!; [apply elem_of_cons; by right|assumption|assumption|].
      eapply Qle_lt_trans; [apply (best_step_ge id init x)|exact Hlt].
Qed.

(** ** The central polygons *)

Lemma elem_of_main_polys (sizes : gmap Z (Q * Z)) (o : Z) :
  o ∈ main_polys sizes ↔ ∃ id a, sizes !! id = Some (a, o).
Proof.
  unfold main_polys. rewrite elem_of_list_to_set, list_elem_of_fmap. split.
  - intros ([id [a o']] & -> & Hin). apply elem_of_map_to_list in Hin.
    by exists id, a.
  - intros (id & a & H). exists (id, (a, o)). split; [reflexivity|].
    by apply elem_of_map_to_list.
Qed.

Lemma NoDup_fmap_eq {A B} (f : A → B) (l : list A) (x y : A) :
  NoDup (f <$> l) → x ∈ l → y ∈ l → f x = f y → x = y.
Proof.
  induction l as [|a l IH]; intros Hnd Hx Hy Hf.
  - by apply elem_of_nil in Hx.
  - rewrite fmap_cons in Hnd. apply NoDup_cons in Hnd as [Hna Hnd].
    apply elem_of_cons in Hx as [->|Hx]; apply elem_of_cons in Hy as [->|Hy].
    + reflexivity.
    + exfalso. apply Hna. rewrite Hf. by apply list_elem_of_fmap_2.
    + exfalso. apply Hna. rewrite <- Hf. by apply list_elem_of_fmap_2.
    + by apply IH.
Qed.

(** ** The analysis as a whole *)

Lemma bind_stop {A B} (m : M A) (k : A → M B) (t : list event) (e : string) :
  m = (t, Raise e) → m ≫= k = (t, Raise e).
Proof. by intros ->. Qed.

Lemma when_tool (b : bool) (name : string) (args : list value) :
  when b (tool name args) = (if b then [Tool name args] else [], Ret tt).
Proof. by destruct b. Qed.

Lemma truthy_union_ok (n : Z) (rows : list row) (r : row) :
  union_ok n rows = true → r ∈ rows →
  truthy (union_uid r) = negb (bool_decide (union_uid r = None)).
Proof.
  intros Hok Hr. destruct (union_ok_inv n rows Hok) as (Hrows & _ & _).
  destruct (Hrows r Hr) as [_ Hk].
  destruct (union_uid r) as [k|]; [|reflexivity].
  specialize (Hk k eq_refl). simpl. destruct (Z.eqb_spec k 0); [lia|reflexivity].
Qed.

Lemma gap_count_null_count (n : Z) (rows : list row) :
  union_ok n rows = true → gap_count rows = null_count rows.
Proof.
  intros Hok. unfold gap_count, null_count. do 2 f_equal.
  apply List.filter_ext_in. intros r Hr.
  rewrite (truthy_union_ok n rows r Hok) by (by apply list_elem_of_In).
  by rewrite negb_involutive.
Qed.

Lemma null_count_0 (rows : list row) :
  has_null rows = false → null_count rows = 0.
Proof.
  unfold has_null, null_count. induction rows as [|r rows IH]; [reflexivity|].
  simpl. intros [H1 H2]%orb_false_iff. rewrite H1. by apply IH.
Qed.

Lemma has_null_false (rows : list row) (r : row) :
  has_null rows = false → r ∈ rows → is_Some (union_uid r).
Proof.
  unfold has_null. induction rows as [|x rows IH]; intros H Hr.
  - by apply elem_of_nil in Hr.
  - simpl in H. apply orb_false_iff in H as [H1 H2].
    apply elem_of_cons in Hr as [->|Hr]; [|by apply IH].
    apply bool_decide_eq_false in H1. by destruct (union_uid x); [eexists|].
Qed.

Ltac step := eapply bind_step; [reflexivity|cbv beta].

(** C3, as the code has it. On every well-formed union that contains both
    a record with a null unique id and a duplicated unique id, the size scan
    converts the null id with [int] and raises, and so would the flag
    update; the analysis ends in that exception. *)
Theorem overlap_pass_raises_on_null_uid (fc : string) (n : Z)
    (fields : list string) (rows : list row) :
  union_ok n rows = true → has_null rows = true → has_duplicate rows = true →
  result (size_scan (dupes_of (uids_of rows)) rows) = Raise "TypeError"
  ∧ (∀ mp, result (flag_overlaps (dupes_of (uids_of rows)) mp rows) = Raise "TypeError")
  ∧ result (overlap_gap_analysis fc n fields rows) = Raise "TypeError".
Proof.
  intros Hok Hnull Hdup.
  destruct (union_ok_inv n rows Hok) as (Hrows & _ & _).
  pose proof (duplicate_gives_overlaps n rows Hok Hdup) as Hover.
  pose proof (rows_split rows) as Hsplit.
  assert (Hgap : 0 <= gap_count rows) by (unfold gap_count; lia).
  assert (Hscan : size_scan (dupes_of (uids_of rows)) rows = ([], Raise "TypeError")).
  { apply size_scan_null_from; [|assumption|].
    - intros r Hr. destruct (Hrows r Hr). lia.
    - intros id Hid. exists (0%Q, 0). by apply lookup_gset_to_gmap_Some. }
  split_and!.
  - by rewrite Hscan.
  - intros mp. by rewrite flag_overlaps_null.
  - assert (E : ∃ t, overlap_gap_analysis fc n fields rows = (t, Raise "TypeError")).
    { unfold overlap_gap_analysis. eexists.
      do 6 step. cbv zeta.
      destruct (Z.gtb_spec (Z.of_nat (length rows)) n) as [_|]; [|lia]. cbn [negb].
      do 2 step.
      eapply bind_step; [apply count_pass_ok|]. cbv beta iota zeta.
      step.
      eapply bind_step; [apply when_tool|]. cbv beta.
      apply bind_stop.
      destruct (Z.gtb_spec (Z.of_nat (length (uids_of rows)) - n) 0) as [_|]; [|lia].
      step.
      eapply bind_step; [apply when_tool|]. cbv beta.
      step.
      apply bind_stop. exact Hscan. }
    destruct E as [t ->]. reflexivity.
Qed.

Lemma overlap_pass_raises_on_null_uid_witness :
  result (size_scan (dupes_of (uids_of mixed_union)) mixed_union) = Raise "TypeError"
  ∧ (∀ mp, result (flag_overlaps (dupes_of (uids_of mixed_union)) mp mixed_union)
           = Raise "TypeError")
  ∧ result (overlap_gap_analysis "abw_ingest" 2 ["OBJECTID"; "Shape"; "union_uid"]
              mixed_union) = Raise "TypeError".
Proof.
  apply (overlap_pass_raises_on_null_uid "abw_ingest" 2
           ["OBJECTID"; "Shape"; "union_uid"] mixed_union); reflexivity.
Defined.

(** ** Which fragment is central *)

Section central.
Context (n : Z) (rows : list row).
Hypothesis Hok : union_ok n rows = true.
Hypothesis Hnonull : has_null rows = false.

Let dupes : gset Z := dupes_of (uids_of rows).

Lemma uid_nonzero (r : row) (u : Z) : r ∈ rows → union_uid r = Some u → u ≠ 0.
Proof.
  intros Hr Hu. destruct (union_ok_inv n rows Hok) as (Hrows & _ & _).
  destruct (Hrows r Hr) as [_ H]. specialize (H u Hu). lia.
Qed.

Lemma occurrences_pos (r : row) (u : Z) :
  r ∈ rows → union_uid r = Some u → (0 < occurrences u rows)%nat.
Proof.
  intros Hr Hu. unfold occurrences.
  assert (Hin : r ∈ List.filter (λ r, bool_decide (union_uid r = Some u)) rows).
  { apply list_elem_of_In, filter_In. split; [by apply list_elem_of_In|].
    by apply bool_decide_eq_true. }
  destruct (List.filter _ rows); [by apply elem_of_nil in Hin|simpl; lia].
Qed.

Lemma elem_of_dupes (r : row) (u : Z) :
  r ∈ rows → union_uid r = Some u →
  u ∈ dupes ↔ (1 < occurrences u rows)%nat.
Proof.
  intros Hr Hu. unfold dupes. rewrite dupes_of_spec, count_occ_uids; [lia|].
  by apply (uid_nonzero r).
Qed.

(** A row id among the central ones belongs to a fragment of positive
    area that holds the record of its own unique id. *)
Lemma main_poly_inv (sizes : gmap Z (Q * Z)) (r : row) (u : Z) :
  (∀ id, sizes !! id = if decide (id ∈ dupes)
                       then Some (best id rows (0%Q, 0)) else None) →
  r ∈ rows → union_uid r = Some u →
  OBJECTID r ∈ main_polys sizes →
  best u rows (0%Q, 0) = (AREA_SQKM r, OBJECTID r) ∧ (0 < AREA_SQKM r)%Q.
Proof.
  intros Hsizes Hr Hu Hin.
  destruct (union_ok_inv n rows Hok) as (Hrows & Hnd & _).
  apply elem_of_main_polys in Hin as (id & a & Hl).
  rewrite Hsizes in Hl. destruct (decide (id ∈ dupes)); [|discriminate].
  injection Hl as Hb.
  destruct (best_source id rows (0%Q, 0)) as [E|(r' & Hr' & Hu' & E & Hpos)].
  - rewrite E in Hb. injection Hb as _ Ho.
    destruct (Hrows r Hr) as [Hp _]. lia.
  - rewrite E in Hb. injection Hb as Ha Ho.
    assert (r' = r) as -> by (by apply (NoDup_fmap_eq OBJECTID rows)).
    rewrite Hu in Hu'. injection Hu' as ->. by split.
Qed.

Lemma central_flags (sizes : gmap Z (Q * Z)) (u : Z) :
  (∀ id, sizes !! id = if decide (id ∈ dupes)
                       then Some (best id rows (0%Q, 0)) else None) →
  (1 < occurrences u rows)%nat → has_positive u rows →
  ∃ c, c ∈ rows ∧ union_uid c = Some u ∧ largest_of rows c
     ∧ ∀ r, r ∈ rows → union_uid r = Some u →
         overlap_flag dupes (main_polys sizes) r = if decide (r = c) then 2 else 1.
Proof.
  intros Hsizes Hocc (p & Hp & Hup & Hpos).
  assert (Hd : u ∈ dupes) by (by apply (elem_of_dupes p)).
  destruct (best_source u rows (0%Q, 0)) as [E|(c & Hc & Huc & E & Hcpos)].
  { exfalso. pose proof (best_upper u rows (0%Q, 0) p Hp Hup) as Hle.
    rewrite E in Hle. simpl in Hle.
    apply (Qlt_irrefl 0). by eapply Qlt_le_trans. }
  exists c. split_and!; [assumption|assumption| |].
  - intros r Hr Hur. rewrite Huc in Hur.
    pose proof (best_upper u rows (0%Q, 0) r Hr Hur) as Hle.
    by rewrite E in Hle.
  - intros r Hr Hur. unfold overlap_flag. rewrite Hur.
    rewrite decide_True by assumption.
    destruct (decide (r = c)) as [->|Hne].
    + rewrite decide_True; [reflexivity|].
      apply elem_of_main_polys. exists u, (AREA_SQKM c).
      by rewrite Hsizes, decide_True, E.
    + rewrite decide_False; [reflexivity|]. intros Hin.
      destruct (main_poly_inv sizes r u Hsizes Hr Hur Hin) as [Hb _].
      rewrite E in Hb. injection Hb as _ Ho.
      destruct (union_ok_inv n rows Hok) as (_ & Hnd & _).
      apply Hne. symmetry. by apply (NoDup_fmap_eq OBJECTID rows).
Qed.

Lemma no_central_flags (sizes : gmap Z (Q * Z)) (u : Z) (r : row) :
  (∀ id, sizes !! id = if decide (id ∈ dupes)
                       then Some (best id rows (0%Q, 0)) else None) →
  (1 < occurrences u rows)%nat → ¬ has_positive u rows →
  r ∈ rows → union_uid r = Some u →
  overlap_flag dupes (main_polys sizes) r = 1.
Proof.
  intros Hsizes Hocc Hnp Hr Hur. unfold overlap_flag. rewrite Hur.
  rewrite decide_True by (by apply (elem_of_dupes r)).
  rewrite decide_False; [reflexivity|]. intros Hin.
  destruct (main_poly_inv sizes r u Hsizes Hr Hur Hin) as [_ Hpos].
  apply Hnp. by exists r.
Qed.

Lemma single_flags (mp : gset Z) (u : Z) (r : row) :
  occurrences u rows = 1%nat → r ∈ rows → union_uid r = Some u →
  overlap_flag dupes mp r = 0.
Proof.
  intros Hocc Hr Hur. unfold overlap_flag. rewrite Hur.
  rewrite decide_False; [reflexivity|].
  rewrite (elem_of_dupes r) by assumption. lia.
Qed.

End central.

Lemma if_ret (b : bool) (m1 m2 : M unit) (t1 t2 : list event) :
  m1 = (t1, Ret tt) → m2 = (t2, Ret tt) →
  (if b then m1 else m2) = (if b then t1 else t2, Ret tt).
Proof. intros -> ->. by destruct b. Qed.

(** Where the overlap flags are right.  On every well-formed union without
    a null unique id and with at least one duplicated unique id, the analysis returns, reports no
    gap, and writes the overlaps field of every record: for a unique id that
    appears more than once and has a fragment of positive area, 2 on exactly
    one fragment, which has the largest area among the fragments of that id,
    and 1 on every other fragment of that id; for a unique id that appears
    more than once with no fragment of positive area, 1 on every fragment;
    and 0 on every fragment whose unique id appears exactly once. *)
Theorem overlaps_flagged_by_largest_area (fc : string) (n : Z)
    (fields : list string) (rows : list row) :
  union_ok n rows = true → has_null rows = false → has_duplicate rows = true →
  ∃ t flag,
    overlap_gap_analysis fc n fields rows
    = (t, Ret (fc +:+ "_union", (λ r, set_overlaps r (flag r)) <$> rows,
               0, Z.of_nat (length rows) - n))
    ∧ (∀ u, (1 < occurrences u rows)%nat → has_positive u rows →
         ∃ c, c ∈ rows ∧ union_uid c = Some u ∧ largest_of rows c
            ∧ ∀ r, r ∈ rows → union_uid r = Some u →
                flag r = if decide (r = c) then 2 else 1)
    ∧ (∀ u r, (1 < occurrences u rows)%nat → ¬ has_positive u rows →
         r ∈ rows → union_uid r = Some u → flag r = 1)
    ∧ (∀ u r, occurrences u rows = 1%nat →
         r ∈ rows → union_uid r = Some u → flag r = 0).
Proof.
  intros Hok Hnonull Hdup.
  destruct (union_ok_inv n rows Hok) as (Hrows & _ & _).
  pose proof (duplicate_gives_overlaps n rows Hok Hdup) as Hover.
  pose proof (rows_split rows) as Hsplit.
  assert (Hgap : gap_count rows = 0).
  { rewrite (gap_count_null_count n) by assumption. by apply null_count_0. }
  rewrite Hgap in Hsplit.
  set (dupes := dupes_of (uids_of rows)).
  destruct (size_scan_ok dupes rows) as (sizes & Hscan & Hsizes).
  { intros r Hr. split; [destruct (Hrows r Hr); lia|by apply (has_null_false rows)]. }
  assert (Hlen : Z.of_nat (length (uids_of rows)) = Z.of_nat (length rows)) by lia.
  eexists _, (overlap_flag dupes (main_polys sizes)). split_and!.
  - unfold overlap_gap_analysis.
    do 6 step. cbv zeta.
    destruct (Z.gtb_spec (Z.of_nat (length rows)) n) as [_|]; [|lia]. cbn [negb].
    do 2 step.
    eapply bind_step; [apply count_pass_ok|]. cbv beta iota zeta.
    rewrite Hgap, Hlen.
    step.
    eapply bind_step; [apply when_tool|]. cbv beta.
    destruct (Z.gtb_spec (Z.of_nat (length rows) - n) 0) as [_|]; [|lia].
    eapply bind_step.
    { step. eapply bind_step; [apply when_tool|]. cbv beta. step.
      eapply bind_step; [exact Hscan|]. cbv beta zeta.
      eapply bind_step; [apply if_ret; reflexivity|]. cbv beta.
      step. apply flag_overlaps_ok.
      intros r Hr. by apply (has_null_false rows). }
    cbv beta. reflexivity.
  - intros u Hocc Hpos. by apply (central_flags n rows Hok sizes u).
  - intros u r Hocc Hnp Hr Hu. by apply (no_central_flags n rows Hok sizes u r).
  - intros u r Hocc Hr Hu. by apply (single_flags n rows Hok _ u r).
Qed.

Lemma overlaps_flagged_by_largest_area_witness :
  ∃ t flag,
    overlap_gap_analysis "abw_ingest" 2 ["OBJECTID"; "Shape"; "union_uid"]
      overlap_union
    = (t, Ret ("abw_ingest" +:+ "_union",
               (λ r, set_overlaps r (flag r)) <$> overlap_union,
               0, Z.of_nat (length overlap_union) - 2))
    ∧ flag (mk_row 1 (Some 1) 5 None None) = 2
    ∧ flag (mk_row 2 (Some 1) 1 None None) = 1
    ∧ flag (mk_row 3 (Some 2) 3 None None) = 0.
Proof.
  destruct (overlaps_flagged_by_largest_area "abw_ingest" 2
              ["OBJECTID"; "Shape"; "union_uid"] overlap_union
              eq_refl eq_refl eq_refl) as (t & flag & E & Hc & _ & Hs).
  exists t, flag. split; [exact E|].
  destruct (Hc 1) as (c & Hin & Hu & Hl & Hf).
  { vm_compute. lia. }
  { exists (mk_row 1 (Some 1) 5 None None). split_and!; [|reflexivity|reflexivity].
    apply elem_of_cons. by left. }
  assert (Hc1 : c = mk_row 1 (Some 1) 5 None None).
  { unfold overlap_union in Hin.
    rewrite !elem_of_cons, elem_of_nil in Hin.
    destruct Hin as [->|[->|[->|[]]]]; [reflexivity| |discriminate Hu].
    exfalso. specialize (Hl (mk_row 1 (Some 1) 5 None None)).
    assert (H : (5 <= 1)%Q).
    { apply Hl; [apply elem_of_cons; by left|reflexivity]. }
    vm_compute in H. by apply H. }
  subst c. split_and!.
  - rewrite Hf; [reflexivity| |reflexivity]. apply elem_of_cons. by left.
  - rewrite Hf; [reflexivity| |reflexivity].
    apply elem_of_cons. right. apply elem_of_cons. by left.
  - apply (Hs 2); [reflexivity| |reflexivity].
    apply elem_of_cons. right. apply elem_of_cons. right. apply elem_of_cons. by left.
Defined.

(** When both fragments of a duplicated id have a stored area of 0,
    neither replaces the initial record of the size scan, no row id becomes
    central, and both fragments are flagged 1. *)
Lemma zero_area_has_no_central :
  ¬ overlaps_as_stated "abw_ingest" 1 ["OBJECTID"; "Shape"; "union_uid"]
      zero_area_union.
Proof.
  intros H. destruct (H eq_refl eq_refl) as (t & flag & g & o & E & Hc & _).
  destruct (Hc 1) as (c & Hin & Hu & _ & Hf); [vm_compute; lia|].
  specialize (Hf c Hin Hu). rewrite decide_True in Hf by reflexivity.
  vm_compute in E. injection E as _ E1 E2 _ _.
  unfold zero_area_union in Hin. rewrite !elem_of_cons, elem_of_nil in Hin.
  destruct Hin as [->|[->|[]]].
  - rewrite Hf in E1. discriminate E1.
  - rewrite Hf in E2. discriminate E2.
Qed.

(** C2 at the mixed union: the unique id 1 appears on two fragments, of
    areas 5 and 1, and the overlap pass is started, but the size scan raises
    on the null id of the gap record before the update of lines 256-268 is
    reached, so no fragment is flagged central, overlap or 0.  And at the
    union whose two fragments of one id have a stored area of 0, the
    analysis returns and reports the central polygons as identified, with
    both fragments flagged 1 and none flagged 2. *)
Theorem overlaps_not_flagged_on_mixed_union :
  let run := overlap_gap_analysis "abw_ingest" 2
               ["OBJECTID"; "Shape"; "union_uid"] mixed_union in
  let run0 := overlap_gap_analysis "abw_ingest" 1
                ["OBJECTID"; "Shape"; "union_uid"] zero_area_union in
  union_ok 2 mixed_union = true
  ∧ occurrences 1 mixed_union = 2%nat
  ∧ Log Message "Flagging overlaps in union of the boundaries." [] ∈ trace run
  ∧ (Log Message "Updating union feature class to flag overlaps (1) and central polys (2)." []
       ∉ trace run)
  ∧ result run = Raise "TypeError"
  ∧ union_ok 1 zero_area_union = true
  ∧ Log Message "Main (central) overlap polygons identified" [] ∈ trace run0
  ∧ result run0
    = Ret ("abw_ingest_union",
           [ mk_row 1 (Some 1) 0 (Some 1) None;
             mk_row 2 (Some 1) 0 (Some 1) None ], 0, 1).
Proof.
  cbv zeta. split_and!; try reflexivity;
    apply (bool_decide_unpack _); vm_compute; exact I.
Qed.

(** ** Gaps *)

Lemma has_duplicate_false (rows : list row) (r : row) (u : Z) :
  has_duplicate rows = false → r ∈ rows → union_uid r = Some u →
  (occurrences u rows <= 1)%nat.
Proof.
  unfold has_duplicate. intros H Hr Hu.
  destruct (Nat.ltb_spec 1 (occurrences u rows)) as [Hlt|]; [|assumption].
  exfalso. apply not_true_iff_false in H. apply H.
  apply existsb_exists. exists r. split; [by apply list_elem_of_In|].
  rewrite Hu. by apply Nat.ltb_lt.
Qed.

(** Without a repeated id the collected ids are exactly the input
    polygons, so the script counts no overlap. *)
Lemma no_duplicate_no_overlaps (n : Z) (rows : list row) :
  union_ok n rows = true → has_duplicate rows = false →
  Z.of_nat (length (uids_of rows)) = n.
Proof.
  intros Hok Hdup. destruct (union_ok_inv n rows Hok) as (Hrows & _ & Hcov).
  assert (Hn : 0 <= n).
  { unfold union_ok in Hok. apply andb_true_iff in Hok as [_ Hn]. lia. }
  assert (Hnd : NoDup (uids_of rows)).
  { apply NoDup_ListNoDup, (NoDup_count_occ Z.eq_dec). intros x.
    destruct (decide (x ∈ uids_of rows)) as [Hin|Hnin].
    - apply elem_of_uids_of in Hin as (Hx & r & Hr & Hu).
      rewrite count_occ_uids by assumption. by apply (has_duplicate_false rows r).
    - rewrite (proj1 (count_occ_not_In Z.eq_dec _ _)); [lia|].
      intros Hin. by apply Hnin, list_elem_of_In. }
  assert (H1 : seqZ 1 n ⊆+ uids_of rows).
  { apply NoDup_submseteq; [apply NoDup_seqZ|].
    intros k Hk. apply elem_of_seqZ in Hk. apply elem_of_uids_of.
    split; [lia|]. apply Hcov. lia. }
  assert (H2 : uids_of rows ⊆+ seqZ 1 n).
  { apply NoDup_submseteq; [assumption|].
    intros k Hk. apply elem_of_uids_of in Hk as (_ & r & Hr & Hu).
    apply elem_of_seqZ. destruct (Hrows r Hr) as [_ H]. specialize (H k Hu). lia. }
  apply submseteq_length in H1, H2. rewrite length_seqZ in *. lia.
Qed.

(** On every well-formed union without a duplicated unique id the analysis
    returns; the gaps it reports are the records with a null unique id; and
    when there is one, the gaps field is 1 on exactly those records and 0 on
    the others. *)
Lemma gaps_flagged_without_overlaps (fc : string) (n : Z)
    (fields : list string) (rows : list row) :
  union_ok n rows = true → has_duplicate rows = false →
  ∃ t, overlap_gap_analysis fc n fields rows
       = (t, Ret (fc +:+ "_union",
                  (if 0 <? null_count rows
                   then (λ r, set_gaps r (if bool_decide (union_uid r = None)
                                          then 1 else 0)) <$> rows
                   else rows),
                  null_count rows, 0)).
Proof.
  intros Hok Hdup.
  pose proof (no_duplicate_no_overlaps n rows Hok Hdup) as Hlen.
  pose proof (rows_split rows) as Hsplit.
  pose proof (gap_count_null_count n rows Hok) as Hgap.
  assert (Hnn : 0 <= null_count rows) by (unfold null_count; lia).
  unfold overlap_gap_analysis.
  destruct (Z.ltb_spec 0 (null_count rows)) as [Hpos|Hzero]; eexists;
    do 6 step; cbv zeta.
  - destruct (Z.gtb_spec (Z.of_nat (length rows)) n) as [_|]; [|lia]. cbn [negb].
    do 2 step.
    eapply bind_step; [apply count_pass_ok|]. cbv beta iota zeta.
    rewrite Hgap, Hlen, Z.sub_diag.
    step.
    eapply bind_step; [apply when_tool|]. cbv beta.
    change (0 >? 0) with false. cbv iota. rewrite mret_bind.
    destruct (Z.gtb_spec (null_count rows) 0) as [_|]; [|lia].
    eapply bind_step.
    { step. eapply bind_step; [apply when_tool|]. cbv beta. apply flag_gaps_ok. }
    cbv beta.
    replace ((λ r, set_gaps r (if truthy (union_uid r) then 0 else 1)) <$> rows)
      with ((λ r, set_gaps r (if bool_decide (union_uid r = None) then 1 else 0))
              <$> rows).
    { reflexivity. }
    apply list_fmap_ext. intros i r Hr. apply list_elem_of_lookup_2 in Hr.
    rewrite (truthy_union_ok n rows r Hok Hr).
    by destruct (bool_decide (union_uid r = None)).
  - destruct (Z.gtb_spec (Z.of_nat (length rows)) n) as [|_]; [lia|]. cbn [negb].
    step. replace (null_count rows) with 0 by lia. reflexivity.
Qed.

Lemma gaps_flagged_without_overlaps_witness :
  ∃ t, overlap_gap_analysis "abw_ingest" 2 ["OBJECTID"; "Shape"; "union_uid"]
         [ mk_row 1 (Some 1) 5 None None;
           mk_row 2 (Some 2) 3 None None;
           mk_row 3 None (1 # 2) None None ]
       = (t, Ret ("abw_ingest_union",
                  [ mk_row 1 (Some 1) 5 None (Some 0);
                    mk_row 2 (Some 2) 3 None (Some 0);
                    mk_row 3 None (1 # 2) None (Some 1) ],
                  1, 0)).
Proof.
  apply (gaps_flagged_without_overlaps "abw_ingest" 2
           ["OBJECTID"; "Shape"; "union_uid"]
           [ mk_row 1 (Some 1) 5 None None;
             mk_row 2 (Some 2) 3 None None;
             mk_row 3 None (1 # 2) None None ]); reflexivity.
Defined.

(** C1 at the mixed union: there is one record with a null unique id and
    the count is logged, but the overlap pass raises before the gap pass is
    reached, so the gaps field is written on no record. *)
Theorem gaps_not_flagged_on_mixed_union :
  let run := overlap_gap_analysis "abw_ingest" 2
               ["OBJECTID"; "Shape"; "union_uid"] mixed_union in
  union_ok 2 mixed_union = true
  ∧ null_count mixed_union = 1
  ∧ Log Message "Found {} gaps and {} overlaps." [VInt 1; VInt 1] ∈ trace run
  ∧ gap_pass_started (trace run) = false
  ∧ result run = Raise "TypeError".
Proof.
  cbv zeta. split_and!; try reflexivity.
  apply (bool_decide_unpack _). vm_compute. exact I.
Qed.

(** * Further properties *)

(** ** Predicates on traces *)

Lemma trace_all_ret {A} P (a : A) : trace_all P (mret a : M A).
Proof. constructor. Qed.

Lemma trace_all_raise {A} P (e : string) : trace_all P (raise e : M A).
Proof. constructor. Qed.

Lemma trace_all_exit {A} P (c : Z) : trace_all P (exit c : M A).
Proof. constructor. Qed.

Lemma trace_all_emit P (e : event) : P e → trace_all P (emit e).
Proof. intros H. by repeat constructor. Qed.

Lemma trace_all_bind {A B} P (m : M A) (k : A → M B) :
  trace_all P m → (∀ a, trace_all P (k a)) → trace_all P (m ≫= k).
Proof.
  unfold trace_all. intros Hm Hk. rewrite trace_bind.
  destruct (result m); try assumption. apply Forall_app. split; [assumption|apply Hk].
Qed.

Lemma trace_all_for_each {A S} P (l : list A) (s : S) (body : S → A → M S) :
  (∀ s x, trace_all P (body s x)) → trace_all P (for_each l s body).
Proof.
  intros Hb. revert s. induction l as [|x l IH]; intros s; simpl.
  - apply trace_all_ret.
  - apply trace_all_bind; [apply Hb | apply IH].
Qed.

Lemma trace_all_update_cursor P (rows : list row) (body : row → M row) :
  (∀ r, trace_all P (body r)) → trace_all P (update_cursor rows body).
Proof.
  intros Hb. induction rows as [|r rows IH]; simpl.
  - apply trace_all_ret.
  - apply trace_all_bind; [apply Hb|]. intros r'.
    apply trace_all_bind; [apply IH|]. intros rest. apply trace_all_ret.
Qed.

Ltac trace_all_step tac :=
  first
    [ apply trace_all_ret
    | apply trace_all_raise
    | apply trace_all_exit
    | apply trace_all_emit; tac
    | apply trace_all_for_each; intros ? ?
    | apply trace_all_update_cursor; intros ?
    | apply trace_all_bind; [|intros ?]
    | match goal with
      | |- trace_all _ (if ?b then _ else _) => destruct b
      | |- trace_all _ (match ?x with _ => _ end) => destruct x
      | |- trace_all _ ((match ?x with _ => _ end) _) => destruct x; cbv beta
      end ].

Ltac trace_all tac := repeat trace_all_step tac.

Lemma analysis_tools (fc : string) (n : Z) (fields : list string) (rows : list row) :
  trace_all (analysis_tool fc) (overlap_gap_analysis fc n fields rows).
Proof.
  unfold overlap_gap_analysis, count_pass, size_scan, size_step, flag_overlaps,
    overlap_flag_row, flag_gaps, py_int, when, AddMessage, AddWarning, tool.
  trace_all ltac:(simpl; tauto).
Qed.

(** ** The count report of check_counts *)

Lemma check_counts_trace (upd orig : list string) (ec oc : Z) :
  ∃ t0 e,
    trace (check_counts upd orig ec oc) = t0 ++ [e]
    ∧ number_warned t0 = false
    ∧ (∀ lv fmt z, Log lv fmt [VInt z] ∉ t0)
    ∧ (∀ z1 z2, Log Message "Feature counts match, {} polygons in original, {} in updated"
                  [VInt z1; VInt z2] ∉ t0)
    ∧ e = if oc =? ec then
            Log Message "Feature counts match, {} polygons in original, {} in updated"
              [VInt oc; VInt ec]
          else if oc >? ec then
            Log Warning "Feature count mismatch! The original feature class has {} more polygons than the updated."
              [VInt (oc - ec)]
          else
            Log Warning "Feature count mismatch! The updated feature class has {} more polygons than the original."
              [VInt (ec - oc)].
Proof.
  unfold check_counts. cbv zeta.
  set (mismatch := if decide ("overlap" ∈ _) then _ else _). clearbody mismatch.
  assert (Hfirst : ∃ t0,
    (if decide (0 < size mismatch)%nat
     then AddWarning "Missing fields in output feature class: " [];;
          AddWarning "{}" [VNames (elements mismatch)]
     else AddMessage "Input and output fields match." []) = (t0, Ret tt)
    ∧ number_warned t0 = false
    ∧ (∀ lv fmt z, Log lv fmt [VInt z] ∉ t0)
    ∧ (∀ z1 z2, Log Message "Feature counts match, {} polygons in original, {} in updated"
                  [VInt z1; VInt z2] ∉ t0)).
  { destruct (decide (0 < size mismatch)%nat).
    - eexists. split; [eapply bind_step; reflexivity|]. split_and!; [reflexivity| |].
      + intros lv fmt z H. simpl in H. rewrite !elem_of_cons, elem_of_nil in H.
        destruct H as [H|[H|[]]]; discriminate H.
      + intros z1 z2 H. simpl in H. rewrite !elem_of_cons, elem_of_nil in H.
        destruct H as [H|[H|[]]]; discriminate H.
    - eexists. split; [reflexivity|]. split_and!; [reflexivity| |].
      + intros lv fmt z H. rewrite !elem_of_cons, elem_of_nil in H.
        destruct H as [H|[]]; discriminate H.
      + intros z1 z2 H. rewrite !elem_of_cons, elem_of_nil in H.
        destruct H as [H|[]]; discriminate H. }
  destruct Hfirst as (t0 & E0 & H1 & H2 & H3).
  exists t0. eexists. split; [|split_and!; [exact H1|exact H2|exact H3|reflexivity]].
  rewrite trace_bind, E0. cbn [result snd trace fst]. f_equal.
  destruct (Z.eqb_spec oc ec); [reflexivity|].
  destruct (Z.gtb_spec oc ec); [reflexivity|].
  destruct (Z.ltb_spec oc ec); [reflexivity|lia].
Qed.

(** [check_counts] reports the counts once, as the last event of its run:
    the run is the report on the fields followed by exactly one event, and
    the report on the fields holds neither a message with a number nor the
    match message.  The last event is the match message when the two counts
    are equal, and otherwise one warning, which names the larger side and
    gives the positive difference. *)
Theorem check_counts_count_report (upd orig : list string) (ec oc : Z) :
  ∃ t0 e,
    trace (check_counts upd orig ec oc) = t0 ++ [e]
    ∧ number_warned t0 = false
    ∧ (∀ lv fmt z, Log lv fmt [VInt z] ∉ t0)
    ∧ (∀ z1 z2, Log Message "Feature counts match, {} polygons in original, {} in updated"
                  [VInt z1; VInt z2] ∉ t0)
    ∧ (oc = ec →
       e = Log Message "Feature counts match, {} polygons in original, {} in updated"
             [VInt oc; VInt ec])
    ∧ (ec < oc →
       e = Log Warning "Feature count mismatch! The original feature class has {} more polygons than the updated."
             [VInt (oc - ec)]
       ∧ 0 < oc - ec)
    ∧ (oc < ec →
       e = Log Warning "Feature count mismatch! The updated feature class has {} more polygons than the original."
             [VInt (ec - oc)]
       ∧ 0 < ec - oc).
Proof.
  destruct (check_counts_trace upd orig ec oc) as (t0 & e & E & H1 & H2 & H3 & ->).
  exists t0. eexists. split; [exact E|]. split_and!; [exact H1|exact H2|exact H3| | |].
  - intros ->. by rewrite Z.eqb_refl.
  - intros Hlt. destruct (Z.eqb_spec oc ec); [lia|].
    destruct (Z.gtb_spec oc ec); [|lia]. split; [reflexivity|lia].
  - intros Hlt. destruct (Z.eqb_spec oc ec); [lia|].
    destruct (Z.gtb_spec oc ec); [lia|]. split; [reflexivity|lia].
Qed.

(** ** The checks one by one *)

(** [check_geometry]: with an unknown spatial reference it returns at once,
    projection undefined, without calling the toolkit; otherwise it checks
    the geometry, deletes the in-memory table it made, asks for a repair
    exactly when errors were counted, and warns exactly when the shape type
    is not accepted. *)
Theorem check_geometry_result (w : world) (fc : string) :
  let m := check_geometry w fc in
  if String.eqb (sr_name w) "Unknown" then
    result m = Ret (None, None, Some false)
    ∧ Forall is_log (trace m)
    ∧ logged Warning (trace m) = true
  else
    result m = Ret (if geometry_errors w >? 0 then Some true else None,
                    Some (accepted_shape w), Some true)
    ∧ called "CheckGeometry_management" (trace m) = true
    ∧ called "Delete_management" (trace m) = true
    ∧ logged Warning (trace m) = negb (accepted_shape w).
Proof.
  cbv zeta. unfold check_geometry, accepted_shape.
  destruct (String.eqb (sr_name w) "Unknown"); simpl.
  { split_and!; try reflexivity. repeat constructor. }
  destruct (bool_decide (shapeType w ∈ ["Polygon"; "MultiPatch"])) eqn:Hshape; simpl.
  { split_and!; reflexivity. }
  destruct (String.eqb_spec (shapeType w) "MultiPatch") as [E|_].
  { apply bool_decide_eq_false in Hshape. exfalso. apply Hshape.
    rewrite E. apply elem_of_cons. right. apply elem_of_cons. by left. }
  split_and!; reflexivity.
Qed.

(** [_check_input_params]: a missing input ends the script with two error
    messages before anything is created; otherwise the folder is made, the
    geodatabase is created exactly when it does not exist yet, and the path
    returned is the absolute folder joined to [<iso>_ingest.gdb]. *)
Theorem check_input_params_result (w : world) (fc ows : string) (iso : option string) :
  let m := _check_input_params w fc ows iso in
  if fc_exists w then
    result m = Ret (ows_abs w +:+ "\" +:+ py_str iso +:+ "_ingest.gdb")
    ∧ called "Path.mkdir" (trace m) = true
    ∧ called "management.CreateFileGDB" (trace m) = negb (gdb_exists w)
    ∧ logged Error (trace m) = false
  else
    result m = SysExit 1
    ∧ Forall is_log (trace m)
    ∧ logged Error (trace m) = true.
Proof.
  cbv zeta. unfold _check_input_params.
  destruct (fc_exists w); simpl.
  - destruct (gdb_exists w); split_and!; reflexivity.
  - split_and!; try reflexivity. repeat constructor.
Qed.

(** [check_srs] warns exactly when the data are not both geographic and on
    WGS84, where WGS84 is recognised by the datum code or, failing that, by
    the spheroid code; it never calls the toolkit to change anything. *)
Theorem check_srs_result (w : world) :
  let m := check_srs w in
  let isGeo := String.eqb (sr_type w) "Geographic" in
  let wgs84 := (datumCode w =? 6326) || (spheroidCode w =? 7030) in
  result m = Ret (isGeo, wgs84)
  ∧ logged Warning (trace m) = negb (isGeo && wgs84)
  ∧ Forall is_log (trace m).
Proof.
  cbv zeta. unfold check_srs.
  destruct (String.eqb (sr_type w) "Geographic"), (datumCode w =? 6326),
    (spheroidCode w =? 7030); simpl; split_and!; try reflexivity;
    repeat constructor.
Qed.

(** ** The boundary-check script: names, copy, renames and repair *)

Lemma check_iso_code_replaced (s : string) :
  check_iso_code s = Some (replaced_iso s).
Proof.
  unfold check_iso_code, replaced_iso.
  destruct (String.eqb_spec (PyStr.lower s) "and") as [E|Hand]; [by rewrite E|].
  destruct (String.eqb_spec (PyStr.lower s) "vat") as [E|Hvat]; [by rewrite E|].
  rewrite decide_False; [reflexivity|].
  rewrite elem_of_BAD_ISOS. intros [|]; contradiction.
Qed.

Lemma Forall_is_log_checks (t : list event) : Forall is_log t → Forall checks_tool t.
Proof. intros H. eapply Forall_impl; [exact H|]. by intros []. Qed.

(** What the checks hand over when they pass. *)
Lemma main_checks_values (a : args) (w : world) :
  checks_pass w = true →
  ∃ t names,
    main_checks a w
    = (t, Ret (Some (working_iso a), out_gdb_path a w, names,
               (if geometry_errors w >? 0 then Some true else None), Some true,
               negb (String.eqb (sr_type w) "Geographic"
                     && ((datumCode w =? 6326) || (spheroidCode w =? 7030)))))
    ∧ (∀ k, names !! k = run_renames w k)
    ∧ Forall checks_tool t.
Proof.
  unfold checks_pass. intros Hpass.
  apply andb_true_iff in Hpass as [Hpass Hshape].
  apply andb_true_iff in Hpass as [Hex Hsr]. apply negb_true_iff in Hsr.
  assert (Hiso : ∃ t0,
    (if check_iso a
     then AddMessage "Checking ISO code..." [];; mret (check_iso_code (iso a))
     else mret (Some (PyStr.lower (iso a)))) = (t0, Ret (Some (working_iso a)))
    ∧ Forall checks_tool t0).
  { unfold working_iso. destruct (check_iso a).
    - rewrite check_iso_code_replaced. eexists. split; [reflexivity|].
      by repeat constructor.
    - eexists. split; [reflexivity|]. constructor. }
  destruct Hiso as (t0 & E0 & H0).
  assert (Ep : ∃ t1, _check_input_params w (input_features a) (out_folder a)
                       (Some (working_iso a)) = (t1, Ret (out_gdb_path a w))
                     ∧ Forall checks_tool t1).
  { unfold _check_input_params, out_gdb_path. rewrite Hex. simpl.
    destruct (gdb_exists w); eexists; (split; [reflexivity|]);
      repeat constructor; simpl; tauto. }
  destruct Ep as (t1 & Ep & H1).
  destruct (check_fields_ret (reserved_file w) (field_names w)) as (t2 & m & E2 & H2 & Hm).
  apply Forall_is_log_checks in H2.
  assert (Hren : ∃ t3,
    when (negb (bool_decide (m = ∅)))
      (AddMessage "Found fields with reserved words in their names," [];;
       AddMessage "output feature class will have updated names." [];;
       AddMessage "Fields to be changed and the new names are:" [];;
       AddMessage "{}" [VRenames (map_to_list m)];;
       AddMessage "Field names will be renamed in a copy of the feature class." [])
    = (t3, Ret tt) ∧ Forall checks_tool t3).
  { destruct (bool_decide (m = ∅)); eexists; (split; [reflexivity|]);
      by repeat constructor. }
  destruct Hren as (t3 & E3 & H3).
  assert (E4 : ∃ t4, check_geometry w (input_features a)
      = (t4, Ret (if geometry_errors w >? 0 then Some true else None,
                  Some true, Some true)) ∧ Forall checks_tool t4).
  { unfold check_geometry. rewrite Hsr. unfold accepted_shape in Hshape.
    rewrite Hshape. simpl. eexists. split; [reflexivity|].
    repeat constructor; simpl; tauto. }
  destruct E4 as (t4 & E4 & H4).
  assert (E5 : ∃ t5, check_srs w
      = (t5, Ret (String.eqb (sr_type w) "Geographic",
                  (datumCode w =? 6326) || (spheroidCode w =? 7030)))
      ∧ Forall checks_tool t5).
  { unfold check_srs.
    destruct (String.eqb (sr_type w) "Geographic"), (datumCode w =? 6326),
      (spheroidCode w =? 7030); eexists; (split; [reflexivity|]);
      by repeat constructor. }
  destruct E5 as (t5 & E5 & H5).
  eexists _, m. split_and!; [|exact Hm|].
  - unfold main_checks.
    eapply bind_step; [exact E0|].
    eapply bind_step; [reflexivity|].
    eapply bind_step; [exact Ep|].
    eapply bind_step; [reflexivity|].
    eapply bind_step; [exact E2|].
    eapply bind_step; [exact E3|].
    eapply bind_step; [reflexivity|].
    eapply bind_step; [exact E4|].
    eapply bind_step; [reflexivity|].
    eapply bind_step; [exact E5|].
    reflexivity.
  - rewrite !Forall_app. split_and!; try assumption; by repeat constructor.
Qed.

Lemma for_each_renames (out_fc : string) (l : list (string * string)) :
  for_each l tt (λ _ '(key, value),
    tool "management.AlterField" [VStr out_fc; VStr key; VStr value])
  = ((λ kv, Tool "management.AlterField" [VStr out_fc; VStr (fst kv); VStr (snd kv)])
       <$> l, Ret tt).
Proof.
  induction l as [|[k v] l IH]; [reflexivity|].
  rewrite for_each_cons. eapply (bind_step _ _ [_]); [reflexivity|]. exact IH.
Qed.

Lemma make_copy_spec (fc ws : string) (iso : option string) (sr : bool)
    (fm : option (gmap string string)) :
  ∃ tw, Forall is_log tw
    ∧ make_copy fc ws iso sr fm
      = (tw ++ copy_events fc (ws +:+ "\" +:+ py_str iso +:+ "_ingest")
                 (py_str iso +:+ "_ingest") fm,
         Ret (ws +:+ "\" +:+ py_str iso +:+ "_ingest")).
Proof.
  unfold make_copy, copy_events.
  exists (if sr then [Log Warning "Output coordinate system is different than input" [];
                      Log Warning "Check alignment of output features against known reference source." []]
          else []).
  split. { destruct sr; repeat constructor. }
  eapply bind_step. { by destruct sr. }
  cbv beta zeta. f_equal.
  eapply (bind_step _ _ [_]); [reflexivity|].
  eapply (bind_step _ _ [_]); [reflexivity|]. cbv beta.
  destruct fm as [m|]; [|reflexivity].
  destruct (bool_decide (m = ∅)); cbn [negb when].
  - reflexivity.
  - erewrite bind_step;
      [|eapply (bind_step _ _ [_]); [reflexivity|apply for_each_renames]
       |reflexivity].
    unfold rename_calls. by rewrite app_nil_r.
Qed.

Lemma trace_all_stats P (rows : list row) (cf : fields_arg) :
  trace_all P (calculate_gap_overlap_stats rows cf).
Proof.
  unfold calculate_gap_overlap_stats, py_int. trace_all idtac.
Qed.

(** The trace of a run whose checks pass: the checks, the copy with its
    renames, the repair, and the analysis on the copy. *)
Lemma main_trace (a : args) (w : world) :
  checks_pass w = true →
  ∃ t tw t_an names,
    Forall checks_tool t ∧ Forall is_log tw
    ∧ Forall (analysis_tool (copy_path a w)) t_an
    ∧ (∀ k, names !! k = run_renames w k)
    ∧ trace (main a w)
      = t ++ Log Message "Making a copy of the feature class to edit." []
             :: tw
             ++ copy_events (input_features a) (copy_path a w)
                  (working_iso a +:+ "_ingest") (Some names)
             ++ repair_events (geometry_errors w >? 0) (copy_path a w)
             ++ t_an.
Proof.
  intros Hpass.
  destruct (main_checks_values a w Hpass) as (t & names & Ec & Hnames & Ht).
  set (fm := if negb (bool_decide (names = ∅)) then Some names else None).
  destruct (make_copy_spec (input_features a) (out_gdb_path a w)
              (Some (working_iso a))
              (negb (String.eqb (sr_type w) "Geographic"
                     && ((datumCode w =? 6326) || (spheroidCode w =? 7030)))) fm)
    as (tw & Htw & Emc).
  change (out_gdb_path a w +:+ "\" +:+ py_str (Some (working_iso a)) +:+ "_ingest")
    with (copy_path a w) in Emc.
  change (py_str (Some (working_iso a))) with (working_iso a) in Emc.
  assert (Hfm : copy_events (input_features a) (copy_path a w)
                  (working_iso a +:+ "_ingest") fm
                = copy_events (input_features a) (copy_path a w)
                    (working_iso a +:+ "_ingest") (Some names)).
  { subst fm. unfold copy_events.
    destruct (bool_decide (names = ∅)) eqn:E; simpl; rewrite ?E; reflexivity. }
  rewrite Hfm in Emc.
  exists t, tw. eexists. exists names. split_and!; [exact Ht|exact Htw| |exact Hnames|].
  2:{ unfold main. rewrite trace_bind, Ec. cbn [result snd trace fst]. f_equal.
      unfold main_process. rewrite trace_bind. cbn [result snd trace fst AddMessage emit].
      cbn [app]. f_equal.
      rewrite trace_bind.
      assert (Emc' :
        (if negb (bool_decide (names = ∅))
         then make_copy (input_features a) (out_gdb_path a w) (Some (working_iso a))
                (negb (String.eqb (sr_type w) "Geographic"
                       && ((datumCode w =? 6326) || (spheroidCode w =? 7030))))
                (Some names)
         else make_copy (input_features a) (out_gdb_path a w) (Some (working_iso a))
                (negb (String.eqb (sr_type w) "Geographic"
                       && ((datumCode w =? 6326) || (spheroidCode w =? 7030))))
                None)
        = make_copy (input_features a) (out_gdb_path a w) (Some (working_iso a))
            (negb (String.eqb (sr_type w) "Geographic"
                   && ((datumCode w =? 6326) || (spheroidCode w =? 7030)))) fm).
      { subst fm. by destruct (negb (bool_decide (names = ∅))). }
      rewrite Emc', Emc. cbn [result snd trace fst].
      rewrite <- !app_assoc. do 2 f_equal.
      rewrite trace_bind.
      assert (Er : when (is_true (if geometry_errors w >? 0 then Some true else None))
                     (AddWarning "Repairing geometry for {}." [VStr (copy_path a w)];;
                      tool "RepairGeometry_management" [VStr (copy_path a w)])
                   = (repair_events (geometry_errors w >? 0) (copy_path a w), Ret tt)).
      { by destruct (geometry_errors w >? 0). }
      rewrite Er. cbn [result snd trace fst]. reflexivity. }
  apply trace_all_bind; [apply analysis_tools|]. intros [[[fcu rows] g] o].
  apply trace_all_bind.
  { repeat match goal with |- trace_all _ (if ?b then _ else _) => destruct b end;
      try apply trace_all_stats.
    unfold AddMessage. trace_all ltac:(exact I). }
  intros stats. unfold AddMessage. trace_all ltac:(exact I).
Qed.

Lemma checks_tool_in (t : list event) (n : string) (args : list value) :
  Forall checks_tool t → Tool n args ∈ t →
  n = "Path.mkdir" ∨ n = "management.CreateFileGDB"
  ∨ n = "CheckGeometry_management" ∨ n = "Delete_management".
Proof.
  intros Ht Hin. rewrite Forall_forall in Ht. exact (Ht _ Hin).
Qed.

Lemma analysis_tool_in (fc : string) (t : list event) (n : string) (args : list value) :
  Forall (analysis_tool fc) t → Tool n args ∈ t →
  n = "management.AddField" ∨ n = "da.UpdateCursor" ∨ n = "analysis.Union"
  ∨ n = "management.CalculateGeometryAttributes".
Proof.
  intros Ht Hin. rewrite Forall_forall in Ht. specialize (Ht _ Hin). simpl in Ht.
  destruct args as [|[] ?]; try contradiction. tauto.
Qed.

Lemma is_log_in (t : list event) (n : string) (args : list value) :
  Forall is_log t → Tool n args ∉ t.
Proof.
  intros Ht Hin. rewrite Forall_forall in Ht. exact (Ht _ Hin).
Qed.

Lemma elem_of_copy_events (fc copy out_fc : string) (m : gmap string string)
    (n : string) (args : list value) :
  Tool n args ∈ copy_events fc copy out_fc (Some m) ↔
  (n = COPY ∧ args = [VStr fc; VStr copy])
  ∨ (n = ALTER ∧ ∃ k v, m !! k = Some v ∧ args = [VStr out_fc; VStr k; VStr v]).
Proof.
  unfold copy_events. rewrite elem_of_app, !elem_of_cons, elem_of_nil.
  assert (Hr : Tool n args ∈ rename_calls out_fc m ↔
               n = ALTER ∧ ∃ k v, m !! k = Some v
                                  ∧ args = [VStr out_fc; VStr k; VStr v]).
  { unfold rename_calls. rewrite list_elem_of_fmap. split.
    - intros ([k v] & [= -> ->] & Hin). apply elem_of_map_to_list in Hin.
      split; [reflexivity|]. by exists k, v.
    - intros (-> & k & v & Hl & ->). exists (k, v). split; [reflexivity|].
      by apply elem_of_map_to_list. }
  destruct (bool_decide_reflect (m = ∅)) as [->|Hne].
  - rewrite elem_of_nil. split.
    + intros [[H|[H|[]]]|[]]; [discriminate H|]. injection H as -> ->. by left.
    + intros [[-> ->]|(_ & k & v & Hl & _)]; [left; right; by left|].
      by rewrite lookup_empty in Hl.
  - rewrite elem_of_cons, Hr. split.
    + intros [[H|[H|[]]]|[H|H]]; try discriminate H; [|by right].
      injection H as -> ->. by left.
    + intros [[-> ->]|H]; [left; right; by left|]. right. by right.
Qed.

Lemma elem_of_repair_events (b : bool) (copy n : string) (args : list value) :
  Tool n args ∈ repair_events b copy ↔ b = true ∧ n = REPAIR ∧ args = [VStr copy].
Proof.
  unfold repair_events. destruct b.
  - rewrite !elem_of_cons, elem_of_nil. split.
    + intros [H|[H|[]]]; [discriminate H|]. by injection H as -> ->.
    + intros (_ & -> & ->). right. by left.
  - rewrite elem_of_nil. split; [intros []|]. by intros [[=] _].
Qed.

(** Every toolkit call of a run that passes the checks. *)
Lemma main_tools (a : args) (w : world) (n : string) (args : list value) :
  checks_pass w = true →
  Tool n args ∈ trace (main a w) →
  (n = "Path.mkdir" ∨ n = "management.CreateFileGDB"
   ∨ n = "CheckGeometry_management" ∨ n = "Delete_management")
  ∨ (n = COPY ∧ args = [VStr (input_features a); VStr (copy_path a w)])
  ∨ (n = ALTER ∧ ∃ k v, run_renames w k = Some v
       ∧ args = [VStr (working_iso a +:+ "_ingest"); VStr k; VStr v])
  ∨ (n = REPAIR ∧ 0 < geometry_errors w ∧ args = [VStr (copy_path a w)])
  ∨ (n = "management.AddField" ∨ n = "da.UpdateCursor" ∨ n = "analysis.Union"
     ∨ n = "management.CalculateGeometryAttributes").
Proof.
  intros Hpass Hin.
  destruct (main_trace a w Hpass) as (t & tw & t_an & names & Ht & Htw & Han & Hnames & E).
  rewrite E in Hin. clear E.
  rewrite elem_of_app, elem_of_cons, !elem_of_app in Hin.
  destruct Hin as [Hin|[Hin|[Hin|[Hin|[Hin|Hin]]]]].
  - left. by apply (checks_tool_in t n args).
  - discriminate Hin.
  - by apply is_log_in in Hin.
  - apply elem_of_copy_events in Hin as [H|(-> & k & v & Hl & ->)].
    + right. by left.
    + right. right. left. split; [reflexivity|]. exists k, v. by rewrite <- Hnames.
  - apply elem_of_repair_events in Hin as (Hb & -> & ->).
    right. right. right. left. split_and!; [reflexivity| |reflexivity].
    by apply Z.gtb_lt in Hb.
  - do 4 right. by apply (analysis_tool_in (copy_path a w) t_an n args).
Qed.

Lemma main_tools_copy (a : args) (w : world) :
  checks_pass w = true →
  Tool COPY [VStr (input_features a); VStr (copy_path a w)] ∈ trace (main a w).
Proof.
  intros Hpass.
  destruct (main_trace a w Hpass) as (t & tw & t_an & names & _ & _ & _ & _ & E).
  rewrite E. rewrite elem_of_app, elem_of_cons, !elem_of_app.
  right. right. right. left. apply elem_of_copy_events. left. by split.
Qed.

Lemma main_tools_alter (a : args) (w : world) (k v : string) :
  checks_pass w = true → run_renames w k = Some v →
  Tool ALTER [VStr (working_iso a +:+ "_ingest"); VStr k; VStr v] ∈ trace (main a w).
Proof.
  intros Hpass Hk.
  destruct (main_trace a w Hpass) as (t & tw & t_an & names & _ & _ & _ & Hnames & E).
  rewrite E. rewrite elem_of_app, elem_of_cons, !elem_of_app.
  right. right. right. left. apply elem_of_copy_events. right.
  split; [reflexivity|]. exists k, v. by rewrite Hnames.
Qed.


Lemma replaced_iso_not_bad (s : string) : replaced_iso s ∉ BAD_ISOS.
Proof.
  unfold replaced_iso. rewrite elem_of_BAD_ISOS.
  destruct (String.eqb_spec (PyStr.lower s) "and"); [intros [|]; discriminate|].
  destruct (String.eqb_spec (PyStr.lower s) "vat"); [intros [|]; discriminate|].
  intros [|]; contradiction.
Qed.

(** When the checks pass, the script copies the input exactly to
    [<folder>\<iso>_ingest.gdb\<iso>_ingest], where [<iso>] is the lower-cased
    code, replaced when [--check_iso] is given; with that flag the names never
    carry one of the unsupported codes. *)
Theorem copy_named_by_working_iso (a : args) (w : world) :
  checks_pass w = true →
  let I := if check_iso a then replaced_iso (iso a) else PyStr.lower (iso a) in
  (∀ args, Tool COPY args ∈ trace (main a w) ↔
     args = [VStr (input_features a);
             VStr ((ows_abs w +:+ "\" +:+ I +:+ "_ingest.gdb")
                   +:+ "\" +:+ I +:+ "_ingest")])
  ∧ (check_iso a = true → I ∉ BAD_ISOS).
Proof.
  intros Hpass I. split.
  - intros args. split.
    + intros Hin. unfold COPY in *.
      destruct (main_tools a w _ args Hpass Hin)
        as [[H|[H|[H|H]]]|[[_ H]|[[H _]|[[H _]|[H|[H|[H|H]]]]]]];
        try discriminate H. exact H.
    + intros ->. by apply main_tools_copy.
  - intros Hc. subst I. rewrite Hc. apply replaced_iso_not_bad.
Qed.

Lemma copy_named_by_working_iso_witness :
  (∀ args, Tool COPY args ∈ trace (main sample_args (sample_world unreadable "Polygon")) ↔
     args = [VStr "C:\data\abw.shp"; VStr "C:/out\abw_ingest.gdb\abw_ingest"])
  ∧ (check_iso sample_args = true → "abw" ∉ BAD_ISOS).
Proof.
  apply (copy_named_by_working_iso sample_args (sample_world unreadable "Polygon")).
  reflexivity.
Defined.

Lemma filter_eq_absent (X : event) (l : list event) :
  X ∉ l → filter (λ e, e = X) l = [].
Proof.
  induction l as [|e l IH]; [reflexivity|]. intros Hn.
  rewrite filter_cons_False.
  - apply IH. intros H. apply Hn. by right.
  - intros ->. apply Hn. by left.
Qed.

Lemma length_filter_app (X : event) (l1 l2 : list event) :
  length (filter (λ e, e = X) (l1 ++ l2))
  = (length (filter (λ e, e = X) l1) + length (filter (λ e, e = X) l2))%nat.
Proof. by rewrite filter_app, length_app. Qed.

Lemma length_filter_fmap_NoDup {A} `{EqDecision A} (f : A → event) (l : list A) (y : A) :
  (∀ x, f x = f y → x = y) → NoDup l →
  length (filter (λ e, e = f y) (f <$> l)) = if decide (y ∈ l) then 1%nat else 0%nat.
Proof.
  intros Hinj Hnd. induction Hnd as [|x l Hx Hnd IH]; [reflexivity|].
  rewrite fmap_cons. destruct (decide (x = y)) as [->|Hne].
  - rewrite filter_cons_True by reflexivity.
    rewrite decide_True by (by left). simpl. f_equal.
    rewrite IH. by rewrite decide_False.
  - rewrite filter_cons_False by (intros E; by apply Hne, Hinj).
    rewrite IH. destruct (decide (y ∈ l)) as [Hin|Hnin].
    + rewrite decide_True; [reflexivity|]. by right.
    + rewrite decide_False; [reflexivity|].
      intros [E|H]%elem_of_cons; [by apply Hne|contradiction].
Qed.

(** The number of times one rename is called in [make_copy]. *)
Lemma rename_call_count (out_fc : string) (m : gmap string string) (k v : string) :
  length (filter (λ e, e = Tool ALTER [VStr out_fc; VStr k; VStr v]) (rename_calls out_fc m))
  = if decide (m !! k = Some v) then 1%nat else 0%nat.
Proof.
  unfold rename_calls.
  rewrite (length_filter_fmap_NoDup
             (λ kv : string * string,
                Tool "management.AlterField" [VStr out_fc; VStr kv.1; VStr kv.2])
             (map_to_list m) (k, v)).
  - destruct (decide ((k, v) ∈ map_to_list m)) as [Hin|Hnin].
    + rewrite decide_True; [reflexivity|]. by apply elem_of_map_to_list.
    + rewrite decide_False; [reflexivity|]. intros H. by apply Hnin, elem_of_map_to_list.
  - intros [k' v'] [= -> ->]. reflexivity.
  - apply NoDup_map_to_list.
Qed.

Lemma copy_events_rename_count (fc copy out_fc : string) (m : gmap string string)
    (k v : string) :
  length (filter (λ e, e = Tool ALTER [VStr out_fc; VStr k; VStr v])
            (copy_events fc copy out_fc (Some m)))
  = if decide (m !! k = Some v) then 1%nat else 0%nat.
Proof.
  unfold copy_events. rewrite length_filter_app.
  rewrite filter_eq_absent.
  2:{ rewrite !elem_of_cons, elem_of_nil. intros [H|[H|[]]]; discriminate H. }
  destruct (bool_decide_reflect (m = ∅)) as [->|_].
  - rewrite decide_False; [reflexivity|]. by rewrite lookup_empty.
  - rewrite filter_cons_False by discriminate. apply rename_call_count.
Qed.

(** When the checks pass, each entry of the mapping [check_fields] computed
    for the input is renamed exactly once in the copy, by one AlterField
    call from the upper-cased name to its new name, and AlterField is called
    for nothing else. *)
Theorem renames_applied_to_copy (a : args) (w : world) :
  checks_pass w = true →
  (∀ k v,
     length (filter (λ e, e = Tool ALTER [VStr (working_iso a +:+ "_ingest");
                                           VStr k; VStr v])
               (trace (main a w)))
     = if decide (renamed_to (reserved_set (reserved_file w))
                    (PyStr.upper <$> field_names w) k = Some v)
       then 1%nat else 0%nat)
  ∧ (∀ args, Tool ALTER args ∈ trace (main a w) →
       ∃ k v, renamed_to (reserved_set (reserved_file w))
                (PyStr.upper <$> field_names w) k = Some v
            ∧ args = [VStr (working_iso a +:+ "_ingest"); VStr k; VStr v]).
Proof.
  intros Hpass. split.
  - intros k v.
    destruct (main_trace a w Hpass) as (t & tw & t_an & names & Ht & Htw & Han & Hnames & E).
    rewrite E. clear E.
    rewrite length_filter_app.
    rewrite (filter_eq_absent _ t).
    2:{ intros Hin. destruct (checks_tool_in t _ _ Ht Hin) as [H|[H|[H|H]]];
          discriminate H. }
    rewrite filter_cons_False by discriminate.
    rewrite !length_filter_app.
    rewrite (filter_eq_absent _ tw) by (by apply is_log_in).
    rewrite (filter_eq_absent _ (repair_events _ _)).
    2:{ intros Hin. apply elem_of_repair_events in Hin as (_ & H & _). discriminate H. }
    rewrite (filter_eq_absent _ t_an).
    2:{ intros Hin. destruct (analysis_tool_in _ t_an _ _ Han Hin) as [H|[H|[H|H]]];
          discriminate H. }
    rewrite copy_events_rename_count. simpl.
    rewrite Nat.add_0_r. unfold run_renames in Hnames. by rewrite Hnames.
  - intros args Hin. unfold ALTER in *.
    destruct (main_tools a w _ args Hpass Hin)
      as [[H|[H|[H|H]]]|[[H _]|[[_ H]|[[H _]|[H|[H|[H|H]]]]]]];
      try discriminate H. exact H.
Qed.

Lemma renames_applied_to_copy_witness :
  length (filter (λ e, e = Tool ALTER [VStr "abw_ingest"; VStr "DATE"; VStr "DATE_"])
            (trace (main sample_args
               (mk_world true "C:/out" false (readable ["DATE "]) ["date"; "_id"] "GCS_WGS_1984"
                  "Geographic" 6326 7030 "-70 12 -69 13" 0 "Polygon" 2
                  ["OBJECTID"] sample_union))))
  = 1%nat.
Proof.
  etrans.
  - apply (proj1 (renames_applied_to_copy sample_args
                    (mk_world true "C:/out" false (readable ["DATE "]) ["date"; "_id"]
                       "GCS_WGS_1984" "Geographic" 6326 7030 "-70 12 -69 13" 0 "Polygon" 2
                       ["OBJECTID"] sample_union)
                    eq_refl) "DATE" "DATE_").
  - vm_compute. reflexivity.
Defined.



(** ** The boundary-check script: what a failed check leaves behind *)

Lemma main_checks_tools (a : args) (w : world) :
  trace_all checks_tool (main_checks a w).
Proof.
  unfold main_checks.
  apply trace_all_bind.
  { unfold AddMessage. trace_all ltac:(exact I). }
  intros i. apply trace_all_bind; [by apply trace_all_emit|]. intros _.
  apply trace_all_bind.
  { unfold _check_input_params, when, AddMessage, AddError, tool.
    trace_all ltac:(simpl; tauto). }
  intros ws. apply trace_all_bind; [by apply trace_all_emit|]. intros _.
  apply trace_all_bind.
  { destruct (check_fields_ret (reserved_file w) (field_names w)) as (t & m & E & Ht & _).
    unfold trace_all. rewrite E. by apply Forall_is_log_checks. }
  intros names. apply trace_all_bind.
  { unfold when, AddMessage. trace_all ltac:(exact I). }
  intros _. apply trace_all_bind; [by apply trace_all_emit|]. intros _.
  apply trace_all_bind.
  { unfold check_geometry, AddMessage, AddWarning, tool.
    trace_all ltac:(simpl; tauto). }
  intros [[repair topo] has_proj]. apply trace_all_bind.
  { unfold AddError. trace_all ltac:(exact I). }
  intros _. apply trace_all_bind.
  { unfold check_srs, when, AddWarning. trace_all ltac:(exact I). }
  intros [g84 wgs]. cbv zeta. apply trace_all_bind.
  { unfold AddError. trace_all ltac:(exact I). }
  intros _. apply trace_all_ret.
Qed.

(** When a check fails the script has called the toolkit only to make the
    output folder and geodatabase and to check geometry (with the deletion of
    the in-memory table): nothing is copied, renamed, repaired or unioned;
    and when the input is missing it has called nothing at all. *)
Theorem failed_checks_change_nothing (a : args) (w : world) :
  checks_pass w = false →
  Forall checks_tool (trace (main a w))
  ∧ (fc_exists w = false → Forall is_log (trace (main a w))).
Proof.
  intros Hfail. pose proof (main_spec a w) as Hs. rewrite Hfail in Hs.
  destruct Hs as (Hres & _ & _).
  assert (Et : trace (main a w) = trace (main_checks a w)).
  { unfold main in *. rewrite trace_bind. rewrite result_bind in Hres.
    destruct (result (main_checks a w)) as [c|c|e] eqn:E; try reflexivity.
    exfalso. by apply (no_exit_main_process a w c 1). }
  rewrite Et. split; [apply main_checks_tools|].
  intros Hex. unfold main_checks.
  assert (Hiso : ∃ t0 i,
    (if check_iso a
     then AddMessage "Checking ISO code..." [];; mret (check_iso_code (iso a))
     else mret (Some (PyStr.lower (iso a)))) = (t0, Ret i) ∧ Forall is_log t0).
  { destruct (check_iso a); eexists _, _; (split; [reflexivity|]);
      by repeat constructor. }
  destruct Hiso as (t0 & i & E0 & H0).
  assert (E : ∃ t, Forall is_log t ∧
    (* the rest of the checks is not reached *)
    ∀ k : string → M (option string * string * gmap string string
                      * option bool * option bool * bool),
      (_check_input_params w (input_features a) (out_folder a) i ≫= k)
      = (t, SysExit 1)).
  { unfold _check_input_params. rewrite Hex. eexists. split; [|reflexivity].
    by repeat constructor. }
  destruct E as (t1 & H1 & E1).
  erewrite bind_step; [|exact E0|eapply bind_step; [reflexivity|apply E1]].
  cbn [trace fst]. rewrite !Forall_app. split_and!; try assumption.
  by repeat constructor.
Qed.

Lemma failed_checks_change_nothing_witness :
  Forall checks_tool (trace (main sample_args (sample_world unreadable "Polyline")))
  ∧ (fc_exists (sample_world unreadable "Polyline") = false →
     Forall is_log (trace (main sample_args (sample_world unreadable "Polyline")))).
Proof.
  apply (failed_checks_change_nothing sample_args (sample_world unreadable "Polyline")).
  reflexivity.
Defined.

(** ** The boundary-check script: how a run that passes the checks ends *)

Lemma main_result (a : args) (w : world) :
  checks_pass w = true →
  result (main a w) = result (analysis_and_report (copy_path a w) w).
Proof.
  intros Hpass.
  destruct (main_checks_values a w Hpass) as (t & names & Ec & _ & _).
  unfold main. rewrite result_bind, Ec. cbn [result snd].
  unfold main_process.
  rewrite result_bind_Ret with (a := tt) by reflexivity. cbv beta.
  set (sr := negb (String.eqb (sr_type w) "Geographic"
                   && ((datumCode w =? 6326) || (spheroidCode w =? 7030)))).
  assert (Emc : ∃ tc,
    (if negb (bool_decide (names = ∅))
     then make_copy (input_features a) (out_gdb_path a w) (Some (working_iso a)) sr
            (Some names)
     else make_copy (input_features a) (out_gdb_path a w) (Some (working_iso a)) sr
            None) = (tc, Ret (copy_path a w))).
  { destruct (bool_decide (names = ∅)); cbn [negb].
    - destruct (make_copy_spec (input_features a) (out_gdb_path a w)
                  (Some (working_iso a)) sr None) as (tw & _ & E).
      eexists. exact E.
    - destruct (make_copy_spec (input_features a) (out_gdb_path a w)
                  (Some (working_iso a)) sr (Some names)) as (tw & _ & E).
      eexists. exact E. }
  destruct Emc as (tc & Emc).
  rewrite result_bind, Emc. cbn [result snd].
  rewrite result_bind_Ret with (a := tt).
  - reflexivity.
  - by destruct (geometry_errors w >? 0).
Qed.

Lemma null_count_pos (rows : list row) :
  has_null rows = true → 0 < null_count rows.
Proof.
  unfold has_null, null_count. induction rows as [|r rows IH]; [discriminate|].
  simpl. destruct (bool_decide (union_uid r = None)); simpl; [lia|].
  intros H. specialize (IH H). lia.
Qed.

(** The analysis on a union with a duplicated id and no null id returns,
    with no gap and a positive overlap count. *)
Lemma analysis_overlaps_only (fc : string) (n : Z) (fields : list string)
    (rows : list row) :
  union_ok n rows = true → has_null rows = false → has_duplicate rows = true →
  ∃ t rows', overlap_gap_analysis fc n fields rows
             = (t, Ret (fc +:+ "_union", rows', 0, Z.of_nat (length rows) - n))
           ∧ 0 < Z.of_nat (length rows) - n.
Proof.
  intros Hok Hnonull Hdup.
  destruct (union_ok_inv n rows Hok) as (Hrows & _ & _).
  pose proof (duplicate_gives_overlaps n rows Hok Hdup) as Hover.
  pose proof (rows_split rows) as Hsplit.
  assert (Hgap : gap_count rows = 0).
  { rewrite (gap_count_null_count n) by assumption. by apply null_count_0. }
  rewrite Hgap in Hsplit.
  destruct (size_scan_ok (dupes_of (uids_of rows)) rows) as (sizes & Hscan & _).
  { intros r Hr. split; [destruct (Hrows r Hr); lia|by apply (has_null_false rows)]. }
  assert (Hlen : Z.of_nat (length (uids_of rows)) = Z.of_nat (length rows)) by lia.
  eexists _, _. split; [|lia].
  unfold overlap_gap_analysis.
  do 6 step. cbv zeta.
  destruct (Z.gtb_spec (Z.of_nat (length rows)) n) as [_|]; [|lia]. cbn [negb].
  do 2 step.
  eapply bind_step; [apply count_pass_ok|]. cbv beta iota zeta.
  rewrite Hgap, Hlen.
  step.
  eapply bind_step; [apply when_tool|]. cbv beta.
  destruct (Z.gtb_spec (Z.of_nat (length rows) - n) 0) as [_|]; [|lia].
  eapply bind_step.
  { step. eapply bind_step; [apply when_tool|]. cbv beta. step.
    eapply bind_step; [exact Hscan|]. cbv beta zeta.
    eapply bind_step; [apply if_ret; reflexivity|]. cbv beta.
    step. apply flag_overlaps_ok.
    intros r Hr. by apply (has_null_false rows). }
  cbv beta. reflexivity.
Qed.

(** The analysis on a union with a duplicated id and a null id raises. *)
Lemma analysis_mixed_raises (fc : string) (n : Z) (fields : list string)
    (rows : list row) :
  union_ok n rows = true → has_null rows = true → has_duplicate rows = true →
  ∃ t, overlap_gap_analysis fc n fields rows = (t, Raise "TypeError").
Proof.
  intros Hok Hnull Hdup.
  destruct (union_ok_inv n rows Hok) as (Hrows & _ & _).
  pose proof (duplicate_gives_overlaps n rows Hok Hdup) as Hover.
  pose proof (rows_split rows) as Hsplit.
  assert (Hgap : 0 <= gap_count rows) by (unfold gap_count; lia).
  assert (Hscan : size_scan (dupes_of (uids_of rows)) rows = ([], Raise "TypeError")).
  { apply size_scan_null_from; [|assumption|].
    - intros r Hr. destruct (Hrows r Hr). lia.
    - intros id Hid. exists (0%Q, 0). by apply lookup_gset_to_gmap_Some. }
  unfold overlap_gap_analysis. eexists.
  do 6 step. cbv zeta.
  destruct (Z.gtb_spec (Z.of_nat (length rows)) n) as [_|]; [|lia]. cbn [negb].
  do 2 step.
  eapply bind_step; [apply count_pass_ok|]. cbv beta iota zeta.
  step.
  eapply bind_step; [apply when_tool|]. cbv beta.
  apply bind_stop.
  destruct (Z.gtb_spec (Z.of_nat (length (uids_of rows)) - n) 0) as [_|]; [|lia].
  step.
  eapply bind_step; [apply when_tool|]. cbv beta.
  step.
  apply bind_stop. exact Hscan.
Qed.

(** On a well-formed union whose gaps have a null id, a run that passes the
    checks never ends normally: it ends in NameError when there is neither a
    gap nor an overlap, in AttributeError when there are only gaps or only
    overlaps (the statistics function is handed a bare string), and in
    TypeError when there are both (the overlap pass meets a null id). *)
Theorem passing_run_ends_in_exception (a : args) (w : world) :
  checks_pass w = true →
  union_ok (copy_count w) (union_rows w) = true →
  result (main a w)
  = Raise (if has_null (union_rows w) && has_duplicate (union_rows w) then "TypeError"
           else if has_null (union_rows w) || has_duplicate (union_rows w)
                then "AttributeError"
                else "NameError").
Proof.
  intros Hpass Hok. rewrite (main_result a w Hpass). unfold analysis_and_report.
  destruct (has_duplicate (union_rows w)) eqn:Hdup;
    destruct (has_null (union_rows w)) eqn:Hnull; cbn [andb orb].
  - destruct (analysis_mixed_raises (copy_path a w) _ (union_fields w) _ Hok Hnull Hdup)
      as (t & E).
    by rewrite result_bind, E.
  - destruct (analysis_overlaps_only (copy_path a w) _ (union_fields w) _ Hok Hnull Hdup)
      as (t & rows' & E & Hpos).
    rewrite result_bind, E. cbn [result snd].
    change (0 >? 0) with false. cbn [andb].
    destruct (Z.gtb_spec (Z.of_nat (length (union_rows w)) - copy_count w) 0); [|lia].
    reflexivity.
  - destruct (gaps_flagged_without_overlaps (copy_path a w) _ (union_fields w) _ Hok Hdup)
      as (t & E).
    rewrite result_bind, E. cbn [result snd].
    pose proof (null_count_pos _ Hnull) as Hpos.
    destruct (Z.gtb_spec (null_count (union_rows w)) 0); [|lia].
    change (0 >? 0) with false. cbn [andb]. reflexivity.
  - destruct (gaps_flagged_without_overlaps (copy_path a w) _ (union_fields w) _ Hok Hdup)
      as (t & E).
    rewrite result_bind, E. cbn [result snd].
    rewrite (null_count_0 _ Hnull).
    change (0 >? 0) with false. cbn [andb]. reflexivity.
Qed.

Lemma passing_run_ends_in_exception_witness :
  result (main sample_args
            (mk_world true "C:/out" false unreadable ["NAME"] "GCS_WGS_1984"
               "Geographic" 6326 7030 "-70 12 -69 13" 0 "Polygon" 2
               ["OBJECTID"] overlap_union))
  = Raise "AttributeError".
Proof.
  apply (passing_run_ends_in_exception sample_args
           (mk_world true "C:/out" false unreadable ["NAME"] "GCS_WGS_1984"
              "Geographic" 6326 7030 "-70 12 -69 13" 0 "Polygon" 2
              ["OBJECTID"] overlap_union)); reflexivity.
Defined.

(** ** More on the analysis *)

(** The set comprehension of lines 227-228 collects exactly the ids that
    occur at least twice; it is empty exactly when the ids are pairwise
    distinct. *)
Theorem dupes_are_repeated_ids (uids : list Z) :
  (∀ x, x ∈ dupes_of uids ↔ (2 <= count_occ Z.eq_dec uids x)%nat)
  ∧ (dupes_of uids = ∅ ↔ NoDup uids)
  ∧ (∀ x, x ∈ dupes_of uids → x ∈ uids).
Proof.
  split_and!.
  - apply dupes_of_spec.
  - rewrite NoDup_ListNoDup, (NoDup_count_occ Z.eq_dec). split.
    + intros He x.
      destruct (Nat.le_gt_cases (count_occ Z.eq_dec uids x) 1) as [|Hgt]; [assumption|].
      exfalso. assert (Hx : x ∈ dupes_of uids) by (apply dupes_of_spec; lia).
      rewrite He in Hx. by apply elem_of_empty in Hx.
    + intros Hc. apply set_eq. intros x. rewrite elem_of_empty, dupes_of_spec.
      specialize (Hc x). lia.
  - intros x Hx. apply dupes_of_spec in Hx. apply list_elem_of_In.
    apply (count_occ_In Z.eq_dec). lia.
Qed.

(** The counting pass never raises, although it calls [int] on the id
    column: every record is counted once, as a gap when its id is null or 0
    and as an id otherwise, and the ids are collected in cursor order. *)
Theorem count_pass_counts_every_record (rows : list row) :
  ∃ gaps uids,
    count_pass rows = ([], Ret (gaps, uids))
    ∧ gaps + Z.of_nat (length uids) = Z.of_nat (length rows)
    ∧ gaps = Z.of_nat (length (List.filter
               (λ r, bool_decide (union_uid r = None ∨ union_uid r = Some 0)) rows))
    ∧ uids = omap (λ r, match union_uid r with
                        | Some 0 => None
                        | u => u
                        end) rows.
Proof.
  exists (gap_count rows), (uids_of rows). split_and!.
  - apply count_pass_ok.
  - symmetry. apply rows_split.
  - unfold gap_count. do 2 f_equal. apply List.filter_ext. intros r.
    destruct (union_uid r) as [z|]; [|reflexivity].
    destruct (Z.eqb_spec z 0) as [->|Hz]; [reflexivity|].
    case_bool_decide as Hd.
    + destruct Hd as [|Hd]; [discriminate|]. congruence.
    + by destruct z.
  - unfold uids_of. apply list_omap_ext. apply Forall2_same_length_lookup.
    split; [reflexivity|]. intros i r r' Hr Hr'. rewrite Hr in Hr'. injection Hr' as <-.
    destruct (union_uid r) as [z|]; simpl; [|reflexivity].
    destruct (Z.eqb_spec z 0) as [->|Hz]; simpl; [reflexivity|].
    by destruct z.
Qed.

(** When the union has no more records than the input, the analysis stops
    after the union: it reports no gap and no overlap, leaves the records as
    they are and computes no area, whatever the records hold. *)
Theorem analysis_returns_early (fc : string) (n : Z) (fields : list string)
    (rows : list row) :
  Z.of_nat (length rows) <= n →
  let run := overlap_gap_analysis fc n fields rows in
  result run = Ret (fc +:+ "_union", rows, 0, 0)
  ∧ Log Message "No overlaps or gaps found!" [] ∈ trace run
  ∧ called "management.CalculateGeometryAttributes" (trace run) = false.
Proof.
  intros Hle. cbv zeta.
  assert (E : ∃ t, overlap_gap_analysis fc n fields rows
                   = (t, Ret (fc +:+ "_union", rows, 0, 0))
                 ∧ Log Message "No overlaps or gaps found!" [] ∈ t
                 ∧ called "management.CalculateGeometryAttributes" t = false).
  { unfold overlap_gap_analysis. eexists. split.
    - do 6 step. cbv zeta.
      destruct (Z.gtb_spec (Z.of_nat (length rows)) n) as [|_]; [lia|]. cbn [negb].
      step. reflexivity.
    - split; [|reflexivity]. apply (bool_decide_unpack _). vm_compute. exact I. }
  destruct E as (t & -> & H1 & H2). by split_and!.
Qed.

Lemma analysis_returns_early_witness :
  result (overlap_gap_analysis "abw_ingest" 2 ["OBJECTID"]
            [mk_row 1 (Some 1) 5 None None; mk_row 2 None 1 None None])
  = Ret ("abw_ingest_union",
         [mk_row 1 (Some 1) 5 None None; mk_row 2 None 1 None None], 0, 0).
Proof.
  apply (analysis_returns_early "abw_ingest" 2 ["OBJECTID"]
           [mk_row 1 (Some 1) 5 None None; mk_row 2 None 1 None None]).
  vm_compute. discriminate.
Defined.

(** ** What the analysis leaves untouched *)

Lemma ensures_bind {A B} (m : M A) (k : A → M B) (P : A → Prop) (Q : B → Prop) :
  ensures m P → (∀ a, P a → ensures (k a) Q) → ensures (m ≫= k) Q.
Proof.
  unfold ensures. intros Hm Hk b. rewrite result_bind.
  destruct (result m) as [a| |]; [|discriminate..].
  intros H. exact (Hk a (Hm a eq_refl) b H).
Qed.

Lemma ensures_ret {A} (a : A) (Q : A → Prop) : Q a → ensures (mret a) Q.
Proof. intros H b [= <-]. exact H. Qed.

Lemma ensures_any {A} (m : M A) : ensures m (λ _, True).
Proof. by intros a _. Qed.

Lemma ensures_eq {A} (m : M A) (t : list event) (a : A) :
  m = (t, Ret a) → ensures m (λ x, x = a).
Proof. intros -> b [= <-]. reflexivity. Qed.

Lemma ensures_update_cursor (rows : list row) (body : row → M row)
    (R : row → row → Prop) :
  (∀ r, ensures (body r) (R r)) →
  ensures (update_cursor rows body) (Forall2 R rows).
Proof.
  intros Hbody. induction rows as [|r rows IH].
  - apply ensures_ret. constructor.
  - rewrite update_cursor_cons.
    eapply ensures_bind; [apply Hbody|]. intros r' Hr'.
    eapply ensures_bind; [apply IH|]. intros rest Hrest.
    apply ensures_ret. by constructor.
Qed.

Lemma ensures_overlap_flag_row (dupes mp : gset Z) (r : row) :
  ensures (overlap_flag_row dupes mp r)
          (λ r', ∃ v, v ∈ [0; 1; 2] ∧ r' = set_overlaps r v).
Proof.
  intros r' H. unfold overlap_flag_row in H.
  destruct (union_uid r) as [u|]; [|discriminate].
  cbn [py_int] in H. cbv zeta in H. rewrite mret_bind in H.
  destruct (decide (u ∈ dupes)); [destruct (decide (OBJECTID r ∈ mp))|];
    injection H as <-; eexists; (split; [|reflexivity]); set_solver.
Qed.

Lemma reflagged_refl (rows : list row) : Forall2 reflagged rows rows.
Proof.
  apply Forall2_same_length_lookup. split; [reflexivity|].
  intros i r r' H1 H2. rewrite H1 in H2. injection H2 as <-.
  unfold reflagged. split_and!; auto.
Qed.

Ltac skip_step := eapply ensures_bind; [apply ensures_any|intros _ _].

(** Whenever the analysis returns, whatever the records of the union hold,
    the feature class it names is the input's name with [_union] appended
    and the records are those it read, in the same order and number, with
    nothing changed but the two flags: an overlaps flag is 0, 1 or 2 or left
    as it was, a gaps flag 0 or 1 or left as it was.  When it reports an
    overlap, every record has its overlaps flag set, and when it reports a
    gap, every record has its gaps flag set. *)
Theorem analysis_rewrites_only_flags (fc : string) (n : Z)
    (fields : list string) (rows : list row) :
  ensures (overlap_gap_analysis fc n fields rows)
    (λ '(fc_union, rows', gaps, overlaps),
       fc_union = fc +:+ "_union"
       ∧ Forall2 reflagged rows rows'
       ∧ (0 < overlaps →
          Forall (λ r', overlaps_fld r' ∈ [Some 0; Some 1; Some 2]) rows')
       ∧ (0 < gaps → Forall (λ r', gaps_fld r' ∈ [Some 0; Some 1]) rows')).
Proof.
  unfold overlap_gap_analysis. do 6 skip_step. cbv zeta.
  destruct (negb (Z.of_nat (length rows) >? n)).
  { skip_step. apply ensures_ret.
    split_and!; [reflexivity|apply reflagged_refl|lia|lia]. }
  do 2 skip_step.
  eapply ensures_bind; [eapply ensures_eq, count_pass_ok|].
  intros [gaps uids] [= -> ->]. cbv beta iota zeta.
  do 2 skip_step.
  set (overlaps := Z.of_nat (length (uids_of rows)) - n).
  set (gaps := gap_count rows).
  eapply ensures_bind with
    (P := λ rows1, if overlaps >? 0
                   then Forall2 (λ r r', ∃ v, v ∈ [0; 1; 2] ∧ r' = set_overlaps r v)
                          rows rows1
                   else rows1 = rows).
  { destruct (overlaps >? 0).
    - do 3 skip_step.
      eapply ensures_bind; [apply ensures_any|intros sizes _]. cbv zeta.
      do 2 skip_step. apply ensures_update_cursor, ensures_overlap_flag_row.
    - by apply ensures_ret. }
  intros rows1 H1.
  eapply ensures_bind with
    (P := λ rows2, if gaps >? 0
                   then rows2 = (λ r, set_gaps r (if truthy (union_uid r) then 0 else 1))
                                  <$> rows1
                   else rows2 = rows1).
  { destruct (gaps >? 0).
    - do 2 skip_step. eapply ensures_eq, flag_gaps_ok.
    - by apply ensures_ret. }
  intros rows2 H2. apply ensures_ret.
  assert (Ha : Forall2 reflagged rows rows1
               ∧ (0 < overlaps →
                  Forall (λ r', overlaps_fld r' ∈ [Some 0; Some 1; Some 2]) rows1)).
  { destruct (Z.gtb_spec overlaps 0) as [Hpos|Hle].
    - split.
      + eapply Forall2_impl; [exact H1|]. intros r r' (v & Hv & ->).
        unfold reflagged. simpl. split_and!; auto. right. set_solver.
      + intros _. eapply Forall2_Forall_r; [exact H1|].
        apply Forall_forall. intros r' _ r (v & Hv & ->). simpl. set_solver.
    - subst rows1. split; [apply reflagged_refl|lia]. }
  destruct Ha as [Ha1 Ha2].
  destruct (Z.gtb_spec gaps 0) as [Hpos|Hle]; subst rows2.
  - split_and!; [reflexivity| | |].
    + apply Forall2_fmap_r. eapply Forall2_impl; [exact Ha1|].
      intros r r' (Ho & Hu & Har & Hov & Hg). unfold reflagged. simpl.
      split_and!; auto. right. destruct (truthy (union_uid r')); set_solver.
    + intros Hov. apply Forall_fmap. eapply Forall_impl; [exact (Ha2 Hov)|].
      intros r Hr. exact Hr.
    + intros _. apply Forall_fmap, Forall_forall. intros r _. simpl.
      destruct (truthy (union_uid r)); set_solver.
  - split_and!; [reflexivity|assumption|assumption|lia].
Qed.

Lemma analysis_rewrites_only_flags_witness :
  Forall2 reflagged overlap_union
    [ mk_row 1 (Some 1) 5 (Some 2) None;
      mk_row 2 (Some 1) 1 (Some 1) None;
      mk_row 3 (Some 2) 3 (Some 0) None ].
Proof.
  exact (proj1 (proj2 (analysis_rewrites_only_flags "abw_ingest" 2
                         ["OBJECTID"; "Shape"; "union_uid"] overlap_union
                         ("abw_ingest_union",
                          [ mk_row 1 (Some 1) 5 (Some 2) None;
                            mk_row 2 (Some 1) 1 (Some 1) None;
                            mk_row 3 (Some 2) 3 (Some 0) None ], 0, 1)
                         eq_refl))).
Defined.

(** On a well-formed union in which no unique id is repeated, the analysis
    returns; it reports as gaps the records whose unique id is null and no
    overlap; and when there is a gap it sets the gaps flag of every record,
    to 1 where the unique id is null and to 0 elsewhere, leaving the records
    as they are when there is none. *)
Theorem gaps_flagged_when_no_id_repeats (fc : string) (n : Z)
    (fields : list string) (rows : list row) :
  union_ok n rows = true → has_duplicate rows = false →
  ∃ rows',
    result (overlap_gap_analysis fc n fields rows)
    = Ret (fc +:+ "_union", rows', null_count rows, 0)
    ∧ Forall2 (λ r r',
         r' = if 0 <? null_count rows
              then set_gaps r (if bool_decide (union_uid r = None) then 1 else 0)
              else r) rows rows'.
Proof.
  intros Hok Hdup.
  destruct (gaps_flagged_without_overlaps fc n fields rows Hok Hdup) as [t E].
  eexists. split; [by rewrite E|].
  destruct (0 <? null_count rows).
  - apply Forall2_fmap_r, Forall2_same_length_lookup. split; [reflexivity|].
    intros i r r' H1 H2. rewrite H1 in H2. by injection H2 as <-.
  - apply Forall2_same_length_lookup. split; [reflexivity|].
    intros i r r' H1 H2. rewrite H1 in H2. by injection H2 as <-.
Qed.

Lemma gaps_flagged_when_no_id_repeats_witness :
  ∃ rows',
    result (overlap_gap_analysis "abw_ingest" 2 ["OBJECTID"; "Shape"; "union_uid"]
              [ mk_row 1 (Some 1) 5 None None;
                mk_row 2 (Some 2) 3 None None;
                mk_row 3 None (1 # 2) None None ])
    = Ret ("abw_ingest_union", rows', 1, 0)
    ∧ Forall2 (λ r r', r' = set_gaps r (if bool_decide (union_uid r = None) then 1 else 0))
        [ mk_row 1 (Some 1) 5 None None;
          mk_row 2 (Some 2) 3 None None;
          mk_row 3 None (1 # 2) None None ] rows'.
Proof.
  apply (gaps_flagged_when_no_id_repeats "abw_ingest" 2
           ["OBJECTID"; "Shape"; "union_uid"]
           [ mk_row 1 (Some 1) 5 None None;
             mk_row 2 (Some 2) 3 None None;
             mk_row 3 None (1 # 2) None None ]); reflexivity.
Defined.

(** ** When the central polygons are reported as identified *)

Lemma size_list_to_set_le (l : list Z) :
  (size (list_to_set l : gset Z) <= length l)%nat.
Proof.
  induction l as [|x l IH].
  - rewrite list_to_set_nil, size_empty. reflexivity.
  - rewrite list_to_set_cons. simpl length.
    destruct (decide (x ∈ (list_to_set l : gset Z))) as [Hin|Hnin].
    + replace ({[x]} ∪ list_to_set l) with (list_to_set l : gset Z) by set_solver.
      lia.
    + rewrite size_union by set_solver. rewrite size_singleton. lia.
Qed.

Lemma size_list_to_set_NoDup (l : list Z) :
  size (list_to_set l : gset Z) = length l ↔ NoDup l.
Proof.
  split; [|apply size_list_to_set].
  induction l as [|x l IH]; [constructor|].
  rewrite list_to_set_cons. simpl length. intros Hs.
  pose proof (size_list_to_set_le l) as Hle.
  destruct (decide (x ∈ (list_to_set l : gset Z))) as [Hin|Hnin].
  - replace ({[x]} ∪ list_to_set l) with (list_to_set l : gset Z) in Hs by set_solver.
    lia.
  - rewrite size_union in Hs by set_solver. rewrite size_singleton in Hs.
    constructor; [by rewrite elem_of_list_to_set in Hnin|]. apply IH. lia.
Qed.

Section matching.
Context (n : Z) (rows : list row) (sizes : gmap Z (Q * Z)).
Hypothesis Hok : union_ok n rows = true.
Hypothesis Hsizes : ∀ id, sizes !! id
  = if decide (id ∈ dupes_of (uids_of rows))
    then Some (best id rows (0%Q, 0)) else None.

Lemma dupes_occurrences (u : Z) :
  u ∈ dupes_of (uids_of rows) ↔ (1 < occurrences u rows)%nat.
Proof.
  destruct (union_ok_inv n rows Hok) as (Hrows & _ & _).
  rewrite dupes_of_spec. split.
  - intros Hc. rewrite <- count_occ_uids; [lia|].
    assert (Hin : u ∈ uids_of rows).
    { apply list_elem_of_In, (count_occ_In Z.eq_dec). lia. }
    by apply elem_of_uids_of in Hin as [Hne _].
  - intros Hocc. rewrite count_occ_uids; [lia|].
    unfold occurrences in Hocc.
    destruct (List.filter _ rows) as [|r l] eqn:E; [simpl in Hocc; lia|].
    assert (Hr : In r (List.filter (λ r, bool_decide (union_uid r = Some u)) rows))
      by (rewrite E; by left).
    apply filter_In in Hr as [Hr Hu]. apply bool_decide_eq_true in Hu.
    apply list_elem_of_In in Hr. destruct (Hrows r Hr) as [_ H].
    specialize (H u Hu). lia.
Qed.

Lemma no_positive_best (u : Z) :
  ¬ has_positive u rows ↔ snd (best u rows (0%Q, 0)) = 0.
Proof.
  destruct (union_ok_inv n rows Hok) as (Hrows & _ & _).
  destruct (best_source u rows (0%Q, 0)) as [E|(r & Hr & Hu & E & Hpos)].
  - rewrite E. split; [reflexivity|]. intros _ (p & Hp & Hup & Hpos).
    pose proof (best_upper u rows (0%Q, 0) p Hp Hup) as Hle.
    rewrite E in Hle. simpl in Hle.
    apply (Qlt_irrefl 0). by eapply Qlt_le_trans.
  - rewrite E. simpl. split.
    + intros Hnp. exfalso. apply Hnp. by exists r.
    + intros H0. destruct (Hrows r Hr). lia.
Qed.

Lemma unmatched_best (u : Z) :
  unmatched rows u
  ↔ ∃ a, sizes !! u = Some (a, 0).
Proof.
  unfold unmatched. rewrite <- dupes_occurrences, no_positive_best, Hsizes.
  destruct (decide (u ∈ dupes_of (uids_of rows))) as [Hd|Hd].
  - destruct (best u rows (0%Q, 0)) as [a o]. simpl. split.
    + intros [_ ->]. by exists a.
    + intros (a' & [= _ ->]). by split.
  - split; [by intros [? _]|by intros [a ?]].
Qed.

Lemma main_polys_complete :
  size (main_polys sizes) = size (dupes_of (uids_of rows))
  ↔ ∀ u1 u2, unmatched rows u1 → unmatched rows u2 → u1 = u2.
Proof.
  destruct (union_ok_inv n rows Hok) as (Hrows & Hnd & _).
  assert (Hlen : size (dupes_of (uids_of rows)) = length (map_to_list sizes)).
  { rewrite length_map_to_list, <- (size_dom (D := gset Z)). f_equal.
    apply set_eq. intros id. rewrite elem_of_dom, Hsizes.
    destruct (decide (id ∈ dupes_of (uids_of rows))) as [Hd|Hd].
    - split; [by eexists|done].
    - split; [done|]. by intros [? ?]. }
  unfold main_polys. rewrite Hlen.
  rewrite <- (length_fmap (λ kv : Z * (Q * Z), kv.2.2) (map_to_list sizes)).
  rewrite size_list_to_set_NoDup. split.
  - intros Hinj u1 u2 [a1 H1]%unmatched_best [a2 H2]%unmatched_best.
    apply elem_of_map_to_list in H1, H2.
    assert (E : (u1, (a1, 0)) = (u2, (a2, 0))).
    { by apply (NoDup_fmap_eq (λ kv : Z * (Q * Z), kv.2.2) (map_to_list sizes)). }
    by injection E.
  - intros Hone. apply NoDup_fmap_2_strong; [|apply NoDup_map_to_list].
    intros [id1 [a1 o1]] [id2 [a2 o2]] H1 H2 Ho. simpl in Ho. subst o2.
    apply elem_of_map_to_list in H1, H2.
    assert (id1 = id2) as ->.
    { destruct (decide (o1 = 0)) as [->|Hne].
      - apply Hone; apply unmatched_best; by eexists.
      - pose proof H1 as B1. pose proof H2 as B2. rewrite Hsizes in B1, B2.
        destruct (decide (id1 ∈ dupes_of (uids_of rows))); [|discriminate].
        destruct (decide (id2 ∈ dupes_of (uids_of rows))); [|discriminate].
        injection B1 as B1. injection B2 as B2.
        destruct (best_source id1 rows (0%Q, 0)) as [E1|(r1 & Hr1 & Hu1 & E1 & _)];
          rewrite E1 in B1; injection B1 as _ Ho1; [congruence|].
        destruct (best_source id2 rows (0%Q, 0)) as [E2|(r2 & Hr2 & Hu2 & E2 & _)];
          rewrite E2 in B2; injection B2 as _ Ho2; [congruence|].
        assert (r1 = r2) as ->.
        { apply (NoDup_fmap_eq OBJECTID rows); [assumption..|congruence]. }
        congruence. }
    rewrite H1 in H2. by injection H2 as ->. 
Qed.

End matching.

Lemma elem_of_by_bool (e : event) (t : list event) (c : bool) :
  bool_decide (e ∈ t) = c → e ∈ t ↔ c = true.
Proof. intros <-. symmetry. apply bool_decide_eq_true. Qed.

(** On a well-formed union without a null unique id and with a duplicated
    one, the analysis logs that the central polygons were identified exactly
    when at most one duplicated id has no fragment of positive area, and
    warns that not all overlap polygons were matched exactly when two
    different duplicated ids have none: a single duplicated id without a
    central polygon goes unreported. *)
Theorem central_polygons_reported_identified (fc : string) (n : Z)
    (fields : list string) (rows : list row) :
  union_ok n rows = true → has_null rows = false → has_duplicate rows = true →
  let t := trace (overlap_gap_analysis fc n fields rows) in
  let at_most_one := ∀ u1 u2, unmatched rows u1 → unmatched rows u2 → u1 = u2 in
  (Log Message "Main (central) overlap polygons identified" [] ∈ t ↔ at_most_one)
  ∧ (Log Warning "Not all overlap polygons were matched with a central (main) polygon." []
       ∈ t ↔ ¬ at_most_one).
Proof.
  intros Hok Hnonull Hdup. cbv zeta.
  destruct (union_ok_inv n rows Hok) as (Hrows & _ & _).
  pose proof (duplicate_gives_overlaps n rows Hok Hdup) as Hover.
  pose proof (rows_split rows) as Hsplit.
  assert (Hgap : gap_count rows = 0).
  { rewrite (gap_count_null_count n) by assumption. by apply null_count_0. }
  rewrite Hgap in Hsplit.
  set (dupes := dupes_of (uids_of rows)).
  destruct (size_scan_ok dupes rows) as (sizes & Hscan & Hsizes).
  { intros r Hr. split; [destruct (Hrows r Hr); lia|by apply (has_null_false rows)]. }
  assert (Hlen : Z.of_nat (length (uids_of rows)) = Z.of_nat (length rows)) by lia.
  rewrite <- (main_polys_complete n rows sizes Hok Hsizes). fold dupes.
  assert (E : ∃ t, overlap_gap_analysis fc n fields rows
                   = (t, Ret (fc +:+ "_union",
                              (λ r, set_overlaps r (overlap_flag dupes (main_polys sizes) r))
                                <$> rows, 0, Z.of_nat (length rows) - n))
    ∧ (Log Message "Main (central) overlap polygons identified" [] ∈ t
       ↔ (size (main_polys sizes) =? size dupes)%nat = true)
    ∧ (Log Warning "Not all overlap polygons were matched with a central (main) polygon." []
         ∈ t ↔ negb (size (main_polys sizes) =? size dupes)%nat = true)).
  { unfold overlap_gap_analysis. eexists. split.
    - do 6 step. cbv zeta.
      destruct (Z.gtb_spec (Z.of_nat (length rows)) n) as [_|]; [|lia]. cbn [negb].
      do 2 step.
      eapply bind_step; [apply count_pass_ok|]. cbv beta iota zeta.
      rewrite Hgap, Hlen.
      step.
      eapply bind_step; [apply when_tool|]. cbv beta.
      destruct (Z.gtb_spec (Z.of_nat (length rows) - n) 0) as [_|]; [|lia].
      eapply bind_step.
      { step. eapply bind_step; [apply when_tool|]. cbv beta. step.
        eapply bind_step; [exact Hscan|]. cbv beta zeta.
        eapply bind_step; [apply if_ret; reflexivity|]. cbv beta.
        step. apply flag_overlaps_ok.
        intros r Hr. by apply (has_null_false rows). }
      cbv beta. reflexivity.
    - fold dupes. clearbody dupes.
      generalize (size (main_polys sizes) =? size dupes)%nat. intros b.
      generalize (negb (bool_decide ("overlaps" ∈ PyStr.lower <$> fields))). intros b1.
      generalize (negb (Z.of_nat (length rows) - n =? 0) || negb (0 =? 0)). intros b2.
      split; apply elem_of_by_bool; destruct b, b1, b2; vm_compute; reflexivity. }
  destruct E as (t & -> & H1 & H2). unfold trace. simpl fst.
  rewrite H1, H2, negb_true_iff, Nat.eqb_eq. split; [reflexivity|].
  rewrite <- Nat.eqb_neq. reflexivity.
Qed.

Lemma central_polygons_reported_identified_witness :
  Log Message "Main (central) overlap polygons identified" []
    ∈ trace (overlap_gap_analysis "abw_ingest" 1 ["OBJECTID"] zero_area_union)
  ∧ unmatched zero_area_union 1.
Proof.
  split.
  - apply (central_polygons_reported_identified "abw_ingest" 1 ["OBJECTID"]
             zero_area_union eq_refl eq_refl eq_refl).
    intros u1 u2 [H1 _] [H2 _].
    destruct (decide (u1 = 1)) as [->|N1]; destruct (decide (u2 = 1)) as [->|N2];
      [reflexivity|exfalso..].
    + revert H2. unfold occurrences, zero_area_union. simpl.
      rewrite !bool_decide_eq_false_2 by congruence. simpl. lia.
    + revert H1. unfold occurrences, zero_area_union. simpl.
      rewrite !bool_decide_eq_false_2 by congruence. simpl. lia.
    + revert H1. unfold occurrences, zero_area_union. simpl.
      rewrite !bool_decide_eq_false_2 by congruence. simpl. lia.
  - split; [vm_compute; lia|]. intros (r & Hr & _ & Hpos).
    unfold zero_area_union in Hr. rewrite !elem_of_cons, elem_of_nil in Hr.
    destruct Hr as [->|[->|[]]]; vm_compute in Hpos; discriminate Hpos.
Defined.

(** ** The eliminate script without an area field *)

Ltac find_event :=
  repeat first [apply list_elem_of_here | apply list_elem_of_further].

(** When the feature class has a gaps or an overlaps field, the eliminate
    script never ends in [sys.exit]: a missing AREA_SQKM field is reported
    as an error, and only then is an error logged, but the script goes on;
    and whatever the text given as the threshold, the where clause is built
    from it as it stands, logged and sent to the selection. *)
Theorem eliminate_goes_on_without_area_field (numeric : string → option Q)
    (input_features max_area : string) (flds : list string) (rows : list row) :
  let g := bool_decide ("gaps" ∈ flds) in
  let o := bool_decide ("overlaps" ∈ flds) in
  let run := eliminate_main numeric input_features max_area flds rows in
  g || o = true →
  no_exit run
  ∧ logged Error (trace run) = negb (bool_decide ("AREA_SQKM" ∈ flds))
  ∧ ∃ q, query_text g o max_area = Some q
       ∧ Log Message "Where query: {}" [VStr q] ∈ trace run
       ∧ Tool "SelectLayerByAttribute_management"
           [VStr "lyr"; VStr "NEW_SELECTION"; VStr q] ∈ trace run.
Proof.
  intros g o run Hgo. subst run g o.
  unfold eliminate_main, check_fc, no_exit.
  destruct (bool_decide ("AREA_SQKM" ∈ flds)),
    (bool_decide ("gaps" ∈ flds)), (bool_decide ("overlaps" ∈ flds));
    try discriminate Hgo;
    unfold run_eliminate, MakeFeatureLayer_management,
      SelectLayerByAttribute_management, Eliminate, trace, result; simpl;
    match goal with
    | |- context [select_where ?n ?f ?q ?r] => destruct (select_where n f q r)
    end; simpl;
    (split_and!; [intros c; discriminate|reflexivity|]);
    (eexists; split; [reflexivity|]); split; find_event.
Qed.

Lemma eliminate_goes_on_without_area_field_witness :
  logged Error (trace (eliminate_main number_literal "abw_ingest_union" "0.5"
                         ["OBJECTID"; "gaps"] []))
  = true
  ∧ Tool "SelectLayerByAttribute_management"
      [VStr "lyr"; VStr "NEW_SELECTION"; VStr "gaps = 1 AND AREA_SQKM < 0.5"]
    ∈ trace (eliminate_main number_literal "abw_ingest_union" "0.5"
               ["OBJECTID"; "gaps"] []).
Proof.
  destruct (eliminate_goes_on_without_area_field number_literal
              "abw_ingest_union" "0.5"
              ["OBJECTID"; "gaps"] [] eq_refl) as (_ & He & q & Hq & _ & Hs).
  split; [exact He|]. injection Hq as <-. exact Hs.
Defined.

(** ** The review project: which layers are kept *)

Lemma existsb_Forall_false {A} (P : A → Prop) (f : A → bool) (l : list A) :
  Forall P l → (∀ x, P x → f x = false) → existsb f l = false.
Proof.
  intros Hl Hf. induction Hl as [|x l Hx _ IH]; [reflexivity|].
  simpl. by rewrite (Hf x Hx), IH.
Qed.

Lemma setup_loop (fc : string) (existing : list string) (ls kept : list layer) :
  ∃ t,
    for_each ls kept (λ kept lyr,
      if decide (lyr_name lyr ∈ layers_to_update) then
        AddMessage "Updating {}" [VStr (lyr_name lyr)];;
        mret (kept ++ [updateConnectionProperties lyr (to_path fc, to_fc fc)])
      else if String.eqb (lyr_name lyr) original_layer then
        if bool_decide (to_path fc +:+ "/" +:+ PyStr.slice_to (to_fc fc) 3 +:+ "_ingest"
                        ∈ existing) then
          mret (kept ++ [updateConnectionProperties lyr (to_path fc, to_fc fc)])
        else
          tool "m.removeLayer" [VStr (lyr_name lyr)];;
          mret kept
      else mret (kept ++ [lyr]))
    = (t, Ret (kept ++ omap (layer_kept fc existing) ls))
    ∧ Forall loop_event t
    ∧ called "m.removeLayer" t
      = existsb (layer_removed fc existing) ls.
Proof.
  revert kept. induction ls as [|l ls IH]; intros kept.
  - exists []. split_and!; [by rewrite app_nil_r|constructor|reflexivity].
  - rewrite for_each_cons. cbv beta. simpl omap. simpl existsb.
    unfold layer_removed at 1.
    destruct (decide (lyr_name l ∈ layers_to_update)) as [Hu|Hu].
    + assert (K : layer_kept fc existing l
                  = Some (updateConnectionProperties l (to_path fc, to_fc fc))).
      { unfold layer_kept. destruct (decide _); [reflexivity|contradiction]. }
      rewrite K.
      destruct (IH (kept ++ [updateConnectionProperties l (to_path fc, to_fc fc)]))
        as (t & E & Ht & Hc).
      eexists. split_and!.
      * eapply bind_step; [reflexivity|]. rewrite E. by rewrite <- app_assoc.
      * constructor; [reflexivity|exact Ht].
      * simpl. exact Hc.
    + destruct (String.eqb (lyr_name l) original_layer) eqn:Ho.
      * destruct (bool_decide (_ ∈ existing)) eqn:Hex.
        -- assert (K : layer_kept fc existing l
                       = Some (updateConnectionProperties l (to_path fc, to_fc fc))).
           { unfold layer_kept, ingest_exists.
             destruct (decide _); [contradiction|]. by rewrite Ho, Hex. }
           rewrite K.
           destruct (IH (kept ++ [updateConnectionProperties l (to_path fc, to_fc fc)]))
             as (t & E & Ht & Hc).
           exists t. split_and!; [|exact Ht|exact Hc].
           rewrite mret_bind, E. by rewrite <- app_assoc.
        -- assert (K : layer_kept fc existing l = None).
           { unfold layer_kept, ingest_exists.
             destruct (decide _); [contradiction|]. by rewrite Ho, Hex. }
           rewrite K.
           destruct (IH kept) as (t & E & Ht & Hc).
           eexists. split_and!.
           ++ eapply bind_step; [reflexivity|]. exact E.
           ++ constructor; [reflexivity|exact Ht].
           ++ reflexivity.
      * assert (K : layer_kept fc existing l = Some l).
        { unfold layer_kept. destruct (decide _); [contradiction|]. by rewrite Ho. }
        rewrite K.
        destruct (IH (kept ++ [l])) as (t & E & Ht & Hc).
        exists t. split_and!; [|exact Ht|exact Hc].
        rewrite mret_bind, E. by rewrite <- app_assoc.
Qed.

Lemma setup_project_run (fc : string) (ls : list layer) (existing : list string) :
  PyStr.contains ".gdb" (to_path fc) = true →
  ∃ t, setup_project fc (Some ls) existing
       = ([Tool "aprx.importDocument" [VStr template];
           Tool "m.name" [VStr "Gaps and Overlaps"]] ++ t ++ [Tool "aprx.save" []],
          Ret (omap (layer_kept fc existing) ls))
     ∧ Forall loop_event t
     ∧ called "m.removeLayer" t
       = existsb (layer_removed fc existing) ls.
Proof.
  intros Hgdb. destruct (setup_loop fc existing ls []) as (t & E & Ht & Hc).
  exists t. split_and!; [|exact Ht|exact Hc].
  unfold setup_project. fold (to_path fc) (to_fc fc). cbv zeta. rewrite Hgdb. cbn [negb].
  rewrite mret_bind.
  erewrite bind_step; [|reflexivity|].
  2:{ eapply bind_step; [reflexivity|]. cbv beta.
      eapply bind_step; [exact E|]. cbv beta.
      eapply bind_step; reflexivity. }
  reflexivity.
Qed.

(** For an input whose folder part names a geodatabase and a project in
    which the template's map is found, [setup_project] returns and saves the
    project.  The layers of the saved map are those of the template in their
    order, with their names; only [original_loaded] can be missing, and it
    is removed exactly when the ingest feature class does not exist.  Every
    layer named overlaps, gaps or admin_union is bound to the input feature
    class, and a layer with any other name than these and [original_loaded]
    is left as it was. *)
Theorem setup_project_layers (fc : string) (ls : list layer) (existing : list string) :
  PyStr.contains ".gdb" (to_path fc) = true →
  let run := setup_project fc (Some ls) existing in
  ∃ kept,
    result run = Ret kept
    ∧ called "aprx.save" (trace run) = true
    ∧ lyr_name <$> kept
      = List.filter (λ name, negb (String.eqb name original_layer)
                             || ingest_exists fc existing) (lyr_name <$> ls)
    ∧ (called "m.removeLayer" (trace run) = true
       ↔ original_layer ∈ lyr_name <$> ls ∧ ingest_exists fc existing = false)
    ∧ (∀ l, l ∈ kept → lyr_name l ∈ layers_to_update →
         database l = to_path fc ∧ dataset l = to_fc fc)
    ∧ (∀ l, l ∈ kept → lyr_name l ∉ layers_to_update →
         lyr_name l ≠ original_layer → l ∈ ls).
Proof.
  intros Hgdb. cbv zeta.
  destruct (setup_project_run fc ls existing Hgdb) as (t & -> & Ht & Hc).
  unfold result, trace. cbn [fst snd].
  assert (Horig : original_layer ∉ layers_to_update).
  { unfold layers_to_update, original_layer. set_solver. }
  exists (omap (layer_kept fc existing) ls). split_and!.
  - reflexivity.
  - rewrite !called_app. cbn. by rewrite orb_true_r.
  - clear Ht Hc. induction ls as [|l ls IH]; [reflexivity|].
    rewrite fmap_cons. cbn [List.filter].
    assert (Hk : omap (layer_kept fc existing) (l :: ls)
                 = option_list (layer_kept fc existing l)
                   ++ omap (layer_kept fc existing) ls).
    { simpl. by destruct (layer_kept fc existing l). }
    rewrite Hk, fmap_app, IH. unfold layer_kept.
    destruct (decide (lyr_name l ∈ layers_to_update)) as [Hu|Hu].
    + destruct (String.eqb_spec (lyr_name l) original_layer) as [E|_].
      { rewrite E in Hu. contradiction. }
      reflexivity.
    + destruct (String.eqb (lyr_name l) original_layer); cbn [negb orb].
      * by destruct (ingest_exists fc existing).
      * reflexivity.
  - rewrite !called_app. cbn [called existsb String.eqb Ascii.eqb Bool.eqb orb].
    change (existsb _ t) with (called "m.removeLayer" t).
    rewrite orb_false_r, Hc. clear Ht Hc.
    rewrite existsb_exists. split.
    + intros (l & Hl & Hn). unfold layer_removed, layer_kept in Hn.
      destruct (decide (lyr_name l ∈ layers_to_update)); [discriminate|].
      destruct (String.eqb_spec (lyr_name l) original_layer) as [E|]; [|discriminate].
      destruct (ingest_exists fc existing); [discriminate|].
      split; [|reflexivity]. rewrite <- E.
      apply list_elem_of_fmap_2. by apply list_elem_of_In.
    + intros [Hin Hex]. apply list_elem_of_fmap in Hin as (l & E & Hl).
      exists l. split; [by apply list_elem_of_In|].
      unfold layer_removed, layer_kept. rewrite <- E.
      destruct (decide (original_layer ∈ layers_to_update)); [contradiction|].
      by rewrite String.eqb_refl, Hex.
  - intros l' Hl' Hu. apply list_elem_of_omap in Hl' as (l & Hl & Hk).
    unfold layer_kept in Hk.
    destruct (decide (lyr_name l ∈ layers_to_update)) as [|Hn].
    { by injection Hk as <-. }
    destruct (String.eqb_spec (lyr_name l) original_layer) as [E|].
    + destruct (ingest_exists fc existing); [|discriminate]. by injection Hk as <-.
    + injection Hk as <-. contradiction.
  - intros l' Hl' Hu Ho. apply list_elem_of_omap in Hl' as (l & Hl & Hk).
    unfold layer_kept in Hk.
    destruct (decide (lyr_name l ∈ layers_to_update)) as [Hy|Hn].
    { injection Hk as <-. simpl in Hu. contradiction. }
    destruct (String.eqb_spec (lyr_name l) original_layer) as [E|].
    + destruct (ingest_exists fc existing); [|discriminate].
      injection Hk as <-. simpl in Ho. contradiction.
    + by injection Hk as <-.
Qed.

Lemma setup_project_layers_witness :
  ∃ kept,
    result (setup_project review_fc
              (Some (review_layers ++ [mk_layer "roads" "T:\template.gdb" "roads"])) [])
    = Ret kept
    ∧ lyr_name <$> kept = ["admin_union"; "gaps"; "overlaps"; "roads"]
    ∧ mk_layer "roads" "T:\template.gdb" "roads" ∈ kept.
Proof.
  destruct (setup_project_layers review_fc
              (review_layers ++ [mk_layer "roads" "T:\template.gdb" "roads"]) []
              eq_refl) as (kept & E & _ & Hn & _ & _ & _).
  exists kept. split_and!; [exact E|exact Hn|].
  vm_compute in E. injection E as <-. find_event.
Defined.

(** Whatever its arguments, [setup_project] ends in [sys.exit(1)] exactly
    when the folder part of the path does not contain [.gdb], announcing it
    with a plain message: it never logs an error.  It imports the template
    exactly when the folder part contains [.gdb], and it saves the project
    exactly when, besides, the template's map is found. *)
Theorem setup_project_saves_iff_map_found (fc : string)
    (layers : option (list layer)) (existing : list string) :
  let run := setup_project fc layers existing in
  let in_gdb := PyStr.contains ".gdb" (to_path fc) in
  exited1 run = negb in_gdb
  ∧ logged Error (trace run) = false
  ∧ called "aprx.importDocument" (trace run) = in_gdb
  ∧ called "aprx.save" (trace run) = in_gdb && bool_decide (is_Some layers)
  ∧ (result run = Raise "IndexError" ↔ in_gdb = true ∧ layers = None).
Proof.
  cbv zeta. destruct (PyStr.contains ".gdb" (to_path fc)) eqn:Hgdb.
  - destruct layers as [ls|].
    + destruct (setup_project_run fc ls existing Hgdb) as (t & -> & Ht & _).
      unfold exited1, result, trace. cbn [fst snd negb andb].
      assert (Hlog : logged Error t = false).
      { unfold logged. apply (existsb_Forall_false loop_event); [exact Ht|].
        intros [lv ? ?|? ?]; simpl; [intros ->; reflexivity|reflexivity]. }
      assert (Himp : called "aprx.importDocument" t = false).
      { unfold called. apply (existsb_Forall_false loop_event); [exact Ht|].
        intros [lv ? ?|? ?]; simpl; [reflexivity|intros ->; reflexivity]. }
      assert (Hsave : called "aprx.save" t = false).
      { unfold called. apply (existsb_Forall_false loop_event); [exact Ht|].
        intros [lv ? ?|? ?]; simpl; [reflexivity|intros ->; reflexivity]. }
      split_and!.
      * reflexivity.
      * rewrite !logged_app, Hlog. reflexivity.
      * rewrite !called_app. reflexivity.
      * rewrite !called_app, Hsave. rewrite bool_decide_eq_true_2 by (by eexists).
        reflexivity.
      * split; [discriminate|]. intros [_ ?]. discriminate.
    + unfold setup_project. fold (to_path fc) (to_fc fc). cbv zeta. rewrite Hgdb.
      split_and!; try reflexivity. split; [by intros _|reflexivity].
  - unfold setup_project. fold (to_path fc) (to_fc fc). cbv zeta. rewrite Hgdb.
    split_and!; try reflexivity. split; [discriminate|]. intros [? _]. discriminate.
Qed.

(** ** Splitting the path of the review feature class *)

Lemma length_append (p r : string) :
  String.length (p +:+ r) = (String.length p + String.length r)%nat.
Proof. induction p as [|c p IH]; [reflexivity|]. simpl. by rewrite IH. Qed.

Lemma substring_0_append (p r : string) :
  String.substring 0 (String.length p) (p +:+ r) = p.
Proof.
  induction p as [|c p IH]; simpl.
  - by destruct r.
  - by rewrite IH.
Qed.

Lemma substring_all (s : string) : String.substring 0 (String.length s) s = s.
Proof. induction s as [|c s IH]; [reflexivity|]. simpl. by rewrite IH. Qed.

Lemma substring_after (p q : string) (c : ascii) (m : nat) :
  String.substring (S (String.length p)) m (p +:+ String c q) = String.substring 0 m q.
Proof. induction p as [|d p IH]; [reflexivity|]. simpl. exact IH. Qed.

Lemma contains_char_cons (c d : ascii) (r : string) :
  PyStr.contains (String c EmptyString) (String d r)
  = Ascii.eqb d c || PyStr.contains (String c EmptyString) r.
Proof.
  simpl. destruct (ascii_dec c d) as [->|Hne].
  - rewrite Ascii.eqb_refl. by destruct r.
  - destruct (Ascii.eqb_spec d c) as [->|_]; [contradiction|]. reflexivity.
Qed.

Lemma contains_char_append (c : ascii) (p q : string) :
  PyStr.contains (String c EmptyString) (p +:+ String c q) = true.
Proof.
  induction p as [|d p IH].
  - change (EmptyString +:+ String c q) with (String c q).
    by rewrite contains_char_cons, Ascii.eqb_refl.
  - change (String d p +:+ String c q) with (String d (p +:+ String c q)).
    by rewrite contains_char_cons, IH, orb_true_r.
Qed.

(** [rfind] gives the last position of the character, or what it was
    started with when the character does not occur. *)
Lemma rfind_from_spec (c : ascii) (s : string) (i last : Z) :
  (PyStr.contains (String c EmptyString) s = false
   ∧ PyStr.rfind_from c s i last = last)
  ∨ (∃ p q, s = p +:+ String c q
          ∧ PyStr.contains (String c EmptyString) q = false
          ∧ PyStr.rfind_from c s i last = i + Z.of_nat (String.length p)).
Proof.
  revert i last. induction s as [|d r IH]; intros i last.
  - left. by split.
  - simpl PyStr.rfind_from. rewrite contains_char_cons.
    destruct (IH (i + 1) (if Ascii.eqb d c then i else last))
      as [[Hn E]|(p & q & -> & Hq & E)].
    + destruct (Ascii.eqb_spec d c) as [->|Hne].
      * right. exists EmptyString, r. split_and!; [reflexivity|exact Hn|].
        rewrite E. simpl. lia.
      * left. by rewrite Hn, E.
    + right. exists (String d p), q. split_and!; [reflexivity|exact Hq|].
      rewrite E. simpl String.length. lia.
Qed.

(** The split of lines 15-16 cuts the path at its last backslash: the
    feature-class part holds no backslash, and the two parts joined by a
    backslash give the path back.  A path without any backslash is taken
    whole as the feature-class part, and its folder part is the path less
    its last character. *)
Theorem path_split_at_last_backslash (fc : string) :
  PyStr.contains "\" (to_fc fc) = false
  ∧ if PyStr.contains "\" fc
    then to_path fc +:+ "\" +:+ to_fc fc = fc
    else to_fc fc = fc
         ∧ to_path fc = String.substring 0 (String.length fc - 1) fc.
Proof.
  unfold to_fc, to_path, PyStr.rfind.
  destruct (rfind_from_spec "\" fc 0 (-1)) as [[Hn E]|(p & q & Hs & Hq & E)];
    rewrite E.
  - rewrite Hn.
    assert (Hfrom : PyStr.slice_from fc (-1 + 1) = fc).
    { unfold PyStr.slice_from, PyStr.norm_index, PyStr.len. cbv zeta.
      change (-1 + 1 <? 0) with false. cbv iota.
      replace (Z.to_nat (Z.max 0 (Z.min (Z.of_nat (String.length fc)) (-1 + 1))))
        with 0%nat by lia.
      rewrite Nat.sub_0_r. apply substring_all. }
    rewrite Hfrom. split_and!; [exact Hn|reflexivity|].
    unfold PyStr.slice_to, PyStr.norm_index, PyStr.len. cbv zeta.
    change (-1 <? 0) with true. cbv iota. f_equal. lia.
  - assert (Hlen : String.length fc = (String.length p + S (String.length q))%nat).
    { rewrite Hs, length_append. reflexivity. }
    assert (Hto : PyStr.slice_to fc (0 + Z.of_nat (String.length p)) = p).
    { unfold PyStr.slice_to, PyStr.norm_index, PyStr.len. cbv zeta.
      destruct (Z.ltb_spec (0 + Z.of_nat (String.length p)) 0) as [|_]; [lia|].
      replace (Z.to_nat _) with (String.length p) by lia.
      rewrite Hs. apply substring_0_append. }
    assert (Hfrom : PyStr.slice_from fc (0 + Z.of_nat (String.length p) + 1) = q).
    { unfold PyStr.slice_from, PyStr.norm_index, PyStr.len. cbv zeta.
      destruct (Z.ltb_spec (0 + Z.of_nat (String.length p) + 1) 0) as [|_]; [lia|].
      replace (Z.to_nat _) with (S (String.length p)) by lia.
      replace (String.length fc - S (String.length p))%nat with (String.length q) by lia.
      rewrite Hs, substring_after. apply substring_all. }
    rewrite Hto, Hfrom. split; [exact Hq|].
    rewrite Hs, contains_char_append. reflexivity.
Qed.

(** ** New field names *)

Lemma append_neq_l (p s : string) : p ≠ EmptyString → p +:+ s ≠ s.
Proof.
  intros Hp E. apply (f_equal String.length) in E. rewrite length_append in E.
  destruct p; [contradiction|]. simpl in E. lia.
Qed.

Lemma append_neq_r (s p : string) : p ≠ EmptyString → s +:+ p ≠ s.
Proof.
  intros Hp E. apply (f_equal String.length) in E. rewrite length_append in E.
  destruct p; [contradiction|]. simpl in E. lia.
Qed.

(** Every entry of the mapping [check_fields] returns is for one of the
    upper-cased field names and gives it a different name; and unless the
    field name is empty, the new name starts with neither a digit nor an
    underscore. *)
Theorem check_fields_new_names_start_well (file : reading)
    (names : list string) :
  ∃ m, result (check_fields file names) = Ret m
     ∧ ∀ k v, m !! k = Some v →
         k ∈ PyStr.upper <$> names
         ∧ v ≠ k
         ∧ (k ≠ "" → PyStr.isdigit (PyStr.first1 v) = false ∧ PyStr.first1 v ≠ "_").
Proof.
  destruct (check_fields_ret file names) as (t & m & -> & _ & Hm).
  exists m. split; [reflexivity|]. intros k v Hk. rewrite Hm in Hk.
  unfold renamed_to in Hk.
  destruct (decide (k ∈ PyStr.upper <$> names)) as [Hin|]; [|discriminate].
  split; [exact Hin|].
  destruct (PyStr.isdigit (PyStr.first1 k)) eqn:Hd.
  { injection Hk as <-. split; [by apply append_neq_l|].
    intros _. split; [reflexivity|discriminate]. }
  destruct (String.eqb_spec (PyStr.first1 k) "_") as [Hu|Hu].
  { injection Hk as <-. split; [by apply append_neq_l|].
    intros _. split; [reflexivity|discriminate]. }
  destruct (decide (k ∈ reserved_set file)); [|discriminate].
  injection Hk as <-. split; [by apply append_neq_r|].
  intros Hne. destruct k as [|c k]; [contradiction|].
  change (PyStr.first1 (String c k +:+ "_")) with (PyStr.first1 (String c k)).
  by split.
Qed.

Lemma check_fields_new_names_start_well_witness :
  ∃ m, result (check_fields (readable ["DATE "]) ["date"; "1st"; "_id"; "name"]) = Ret m
     ∧ m !! "DATE" = Some "DATE_" ∧ m !! "1ST" = Some "t_1ST"
     ∧ m !! "_ID" = Some "t_ID" ∧ m !! "NAME" = None
     ∧ PyStr.isdigit (PyStr.first1 "t_1ST") = false.
Proof.
  destruct (check_fields_new_names_start_well (readable ["DATE "])
              ["date"; "1st"; "_id"; "name"]) as (m & E & H).
  exists m. split; [exact E|].
  assert (Hm : result (check_fields (readable ["DATE "]) ["date"; "1st"; "_id"; "name"])
               = Ret (<["_ID" := "t_ID"]> (<["1ST" := "t_1ST"]> (<["DATE" := "DATE_"]> ∅)))).
  { vm_compute. reflexivity. }
  rewrite Hm in E. injection E as <-.
  split_and!; [reflexivity..|].
  apply (H "1ST" "t_1ST"); [reflexivity|discriminate].
Defined.

(** ** The boundary-check script: when a run ends normally *)

Lemma result_when_tool (b : bool) (name : string) (args : list value) :
  result (when b (tool name args)) = Ret tt.
Proof. by destruct b. Qed.

Ltac rstep := rewrite result_bind_Ret with (a := tt) by reflexivity; cbv beta.

(** The size scan raises nothing but the TypeError of a null id. *)
Lemma size_scan_cases (dupes : gset Z) (rows : list row) (sizes : gmap Z (Q * Z)) :
  (∀ id, id ∈ dupes → is_Some (sizes !! id)) →
  (∃ sizes', for_each rows sizes (size_step dupes) = ([], Ret sizes'))
  ∨ for_each rows sizes (size_step dupes) = ([], Raise "TypeError").
Proof.
  revert sizes. induction rows as [|r rows IH]; intros sizes Hdom.
  - left. by exists sizes.
  - rewrite for_each_cons.
    destruct (Z.eq_dec (OBJECTID r) 0) as [Ho|Ho].
    + assert (E : size_step dupes sizes r = mret sizes).
      { unfold size_step. by rewrite Ho. }
      rewrite E, mret_bind. by apply IH.
    + destruct (union_uid r) as [u|] eqn:Hu.
      * destruct (size_step_ok dupes sizes r u Ho Hu Hdom) as (s1 & E1 & H1).
        rewrite E1, bind_Ret.
        assert (Hdom1 : ∀ id, id ∈ dupes → is_Some (s1 !! id)).
        { intros id Hid. rewrite H1, decide_True by assumption.
          destruct (Hdom id Hid) as [acc ->]. by eexists. }
        destruct (IH s1 Hdom1) as [[s2 E2]|E2]; rewrite E2; [left|right];
          [by exists s2|reflexivity].
      * right. unfold size_step.
        destruct (Z.eqb_spec (OBJECTID r) 0) as [|_]; [contradiction|]. cbn [negb].
        rewrite Hu. reflexivity.
Qed.

Lemma size_scan_returns (dupes : gset Z) (rows : list row) (sizes : gmap Z (Q * Z)) :
  has_null rows = false →
  (∀ id, id ∈ dupes → is_Some (sizes !! id)) →
  ∃ sizes', for_each rows sizes (size_step dupes) = ([], Ret sizes').
Proof.
  revert sizes. induction rows as [|r rows IH]; intros sizes Hnull Hdom.
  - by exists sizes.
  - rewrite has_null_cons in Hnull. apply orb_false_iff in Hnull as [Hr Hnull].
    apply bool_decide_eq_false in Hr.
    rewrite for_each_cons.
    destruct (Z.eq_dec (OBJECTID r) 0) as [Ho|Ho].
    + assert (E : size_step dupes sizes r = mret sizes).
      { unfold size_step. by rewrite Ho. }
      rewrite E, mret_bind. by apply IH.
    + destruct (union_uid r) as [u|] eqn:Hu; [|contradiction].
      destruct (size_step_ok dupes sizes r u Ho Hu Hdom) as (s1 & E1 & H1).
      rewrite E1, bind_Ret.
      destruct (IH s1 Hnull) as [s2 E2].
      { intros id Hid. rewrite H1, decide_True by assumption.
        destruct (Hdom id Hid) as [acc ->]. by eexists. }
      exists s2. by rewrite E2.
Qed.

(** How the analysis ends, for any records of the union. *)
Lemma analysis_result (fc : string) (n : Z) (fields : list string) (rows : list row) :
  let g := gap_count rows in
  let o := Z.of_nat (length (uids_of rows)) - n in
  if negb (Z.of_nat (length rows) >? n) then
    result (overlap_gap_analysis fc n fields rows) = Ret (fc +:+ "_union", rows, 0, 0)
  else if (o >? 0) && has_null rows then
    result (overlap_gap_analysis fc n fields rows) = Raise "TypeError"
  else
    ∃ rows', result (overlap_gap_analysis fc n fields rows)
             = Ret (fc +:+ "_union", rows', g, o)
           ∧ (0 < g → 0 < o →
              Forall (λ r, is_Some (gaps_fld r) ∧ is_Some (overlaps_fld r)) rows').
Proof.
  cbv zeta. unfold overlap_gap_analysis. do 6 rstep. cbv zeta.
  destruct (Z.of_nat (length rows) >? n); cbn [negb].
  2:{ rstep. reflexivity. }
  do 2 rstep.
  rewrite (result_bind_Ret _ _ (gap_count rows, uids_of rows))
    by (by rewrite count_pass_ok).
  cbv beta iota zeta. rstep.
  rewrite result_bind_Ret with (a := tt) by apply result_when_tool. cbv beta.
  set (o := Z.of_nat (length (uids_of rows)) - n).
  set (g := gap_count rows).
  set (dupes := dupes_of (uids_of rows)).
  assert (Hdom : ∀ id, id ∈ dupes → is_Some (gset_to_gmap (0%Q, 0) dupes !! id)).
  { intros id Hid. exists (0%Q, 0). by apply lookup_gset_to_gmap_Some. }
  assert (Hwarn : ∀ b : bool,
    result (if b then
              AddWarning "Not all overlap polygons were matched with a central (main) polygon." [];;
              AddWarning "Overlaps should be manually reviewed." []
            else AddMessage "Main (central) overlap polygons identified" []) = Ret tt).
  { by intros []. }
  assert (Hgaps : ∀ rows1 : list row,
    result (if g >? 0 then
              AddMessage "Flagging gaps in union of the boundaries." [];;
              when (negb (bool_decide ("gaps" ∈ PyStr.lower <$> fields)))
                (tool "management.AddField" [VStr (fc +:+ "_union"); VStr "gaps"; VStr "SHORT"]);;
              flag_gaps rows1
            else mret rows1)
    = Ret (if g >? 0
           then (λ r, set_gaps r (if truthy (union_uid r) then 0 else 1)) <$> rows1
           else rows1)).
  { intros rows1. destruct (g >? 0); [|reflexivity]. rstep.
    rewrite result_bind_Ret with (a := tt) by apply result_when_tool. cbv beta.
    by rewrite flag_gaps_ok. }
  destruct (Z.gtb_spec o 0) as [Ho|Ho]; cbn [andb].
  - destruct (has_null rows) eqn:Hnull.
    + apply result_bind_Raise. rstep.
      rewrite result_bind_Ret with (a := tt) by apply result_when_tool. cbv beta.
      rstep.
      destruct (size_scan_cases dupes rows (gset_to_gmap (0%Q, 0) dupes) Hdom)
        as [[sizes E]|E].
      * rewrite (result_bind_Ret _ _ sizes) by (unfold size_scan; by rewrite E).
        cbv beta zeta.
        rewrite result_bind_Ret with (a := tt) by apply Hwarn. cbv beta.
        rstep. by rewrite flag_overlaps_null.
      * apply result_bind_Raise. unfold size_scan. by rewrite E.
    + destruct (size_scan_returns dupes rows (gset_to_gmap (0%Q, 0) dupes) Hnull Hdom)
        as [sizes E].
      eexists. split.
      * rewrite (result_bind_Ret _ _
          ((λ r, set_overlaps r (overlap_flag dupes (main_polys sizes) r)) <$> rows)).
        -- cbv beta. rewrite (result_bind_Ret _ _ _ (Hgaps _)). reflexivity.
        -- rstep.
           rewrite result_bind_Ret with (a := tt) by apply result_when_tool. cbv beta.
           rstep.
           rewrite (result_bind_Ret _ _ sizes) by (unfold size_scan; by rewrite E).
           cbv beta zeta.
           rewrite result_bind_Ret with (a := tt) by apply Hwarn. cbv beta.
           rstep. rewrite flag_overlaps_ok; [reflexivity|].
           intros r Hr. by apply (has_null_false rows).
      * intros Hg _. destruct (Z.gtb_spec g 0) as [_|]; [|lia].
        apply Forall_fmap, Forall_fmap, Forall_forall. intros r _. simpl.
        split; by eexists.
  - eexists. split.
    + rewrite mret_bind. rewrite (result_bind_Ret _ _ _ (Hgaps _)). reflexivity.
    + lia.
Qed.

Lemma stats_field (r : row) (areas : list (string * list Q)) (pa : Q)
    (fld : string) (v : Z) :
  flag_column fld r = Some v →
  result (flag ← py_int (flag_column fld r);
          if flag =? 1 then mret (areas_append areas fld (AREA_SQKM r), pa)
          else mret (areas, (pa + AREA_SQKM r)%Q))
  = Ret (if v =? 1 then (areas_append areas fld (AREA_SQKM r), pa)
         else (areas, (pa + AREA_SQKM r)%Q)).
Proof. intros ->. cbn [py_int]. rewrite mret_bind. by destruct (v =? 1). Qed.

Lemma stats_row (r : row) (st : list (string * list Q) * Q) :
  is_Some (gaps_fld r) → is_Some (overlaps_fld r) →
  ∃ st',
    result (for_each ["gaps"; "overlaps"] st (λ '(areas, poly_area) fld,
      flag ← py_int (flag_column fld r);
      if flag =? 1 then mret (areas_append areas fld (AREA_SQKM r), poly_area)
      else mret (areas, (poly_area + AREA_SQKM r)%Q)))
    = Ret st'.
Proof.
  intros [gv Hg] [ov Ho]. destruct st as [areas pa].
  rewrite for_each_cons.
  rewrite (result_bind_Ret _ _ _ (stats_field r areas pa "gaps" gv Hg)).
  destruct (if gv =? 1 then (areas_append areas "gaps" (AREA_SQKM r), pa)
            else (areas, (pa + AREA_SQKM r)%Q)) as [areas1 pa1].
  rewrite for_each_cons.
  rewrite (result_bind_Ret _ _ _ (stats_field r areas1 pa1 "overlaps" ov Ho)).
  eexists. reflexivity.
Qed.

Lemma stats_returns (rows : list row) :
  Forall (λ r, is_Some (gaps_fld r) ∧ is_Some (overlaps_fld r)) rows →
  ∃ stats,
    result (calculate_gap_overlap_stats rows (FieldList ["gaps"; "overlaps"]))
    = Ret stats.
Proof.
  intros Hrows. unfold calculate_gap_overlap_stats.
  assert (E : ∀ st, ∃ st',
    result (for_each rows st (λ st r,
      for_each ["gaps"; "overlaps"] st (λ '(areas, poly_area) fld,
        flag ← py_int (flag_column fld r);
        if flag =? 1 then mret (areas_append areas fld (AREA_SQKM r), poly_area)
        else mret (areas, (poly_area + AREA_SQKM r)%Q))))
    = Ret st').
  { induction Hrows as [|r rows [Hg Ho] _ IH]; intros st.
    - by exists st.
    - rewrite for_each_cons. destruct (stats_row r st Hg Ho) as [st1 E1].
      rewrite (result_bind_Ret _ _ st1 E1). apply IH. }
  destruct (E ([], 0%Q)) as [[areas pa] E1].
  rewrite (result_bind_Ret _ _ _ E1). eexists. reflexivity.
Qed.

Lemma report_returns (stats : list (string * Q)) :
  result (for_each stats tt (λ _ '(key, value),
            AddMessage "{}: {:,.4f} square km" [VStr key; VNum value])) = Ret tt.
Proof.
  induction stats as [|[k v] stats IH]; [reflexivity|].
  rewrite for_each_cons. rstep. exact IH.
Qed.

(** How a run that passes the checks ends, for any records of the union. *)
Lemma analysis_and_report_result (fc : string) (w : world) :
  let rows := union_rows w in
  let n := copy_count w in
  let g := gap_count rows in
  let o := Z.of_nat (length (uids_of rows)) - n in
  result (analysis_and_report fc w)
  = if negb (Z.of_nat (length rows) >? n) then Raise "NameError"
    else if o >? 0 then
      if has_null rows then Raise "TypeError"
      else if g >? 0 then Ret tt else Raise "AttributeError"
    else if g >? 0 then Raise "AttributeError" else Raise "NameError".
Proof.
  cbv zeta. unfold analysis_and_report.
  pose proof (analysis_result fc (copy_count w) (union_fields w) (union_rows w)) as H.
  cbv zeta in H.
  destruct (negb (Z.of_nat (length (union_rows w)) >? copy_count w)).
  { rewrite result_bind, H. reflexivity. }
  destruct (Z.gtb_spec (Z.of_nat (length (uids_of (union_rows w))) - copy_count w) 0)
    as [Ho|Ho]; cbn [andb] in H.
  - destruct (has_null (union_rows w)).
    + by rewrite result_bind, H.
    + destruct H as (rows' & E & Hset). rewrite result_bind, E. cbv beta iota.
      destruct (Z.gtb_spec (Z.of_nat (length (uids_of (union_rows w))) - copy_count w) 0)
        as [_|]; [|lia].
      destruct (Z.gtb_spec (gap_count (union_rows w)) 0) as [Hg|Hg]; cbn [andb].
      * destruct (stats_returns rows' (Hset Hg Ho)) as (stats & Es).
        rewrite (result_bind_Ret _ _ stats Es). rstep.
        apply report_returns.
      * reflexivity.
  - destruct H as (rows' & E & _). rewrite result_bind, E. cbv beta iota.
    destruct (Z.gtb_spec (Z.of_nat (length (uids_of (union_rows w))) - copy_count w) 0)
      as [|_]; [lia|].
    rewrite andb_false_r.
    destruct (gap_count (union_rows w) >? 0); reflexivity.
Qed.

(** The boundary-check script ends normally exactly when the checks pass
    and the counting pass finds both a gap and an overlap in a union that
    holds no null unique id, that is, when every gap carries the id 0.  In
    every other case the run ends through [sys.exit] or in an exception. *)
Theorem run_ends_normally_iff (a : args) (w : world) :
  result (main a w) = Ret tt
  ↔ checks_pass w = true
    ∧ has_null (union_rows w) = false
    ∧ 0 < gap_count (union_rows w)
    ∧ copy_count w < Z.of_nat (length (uids_of (union_rows w))).
Proof.
  pose proof (main_spec a w) as Hm.
  destruct (checks_pass w) eqn:Hpass.
  2:{ destruct Hm as (E & _). rewrite E. split; [discriminate|]. by intros [? _]. }
  clear Hm. rewrite (main_result a w Hpass), analysis_and_report_result.
  pose proof (rows_split (union_rows w)) as Hsplit.
  assert (Hg0 : 0 <= gap_count (union_rows w)) by (unfold gap_count; lia).
  destruct (Z.gtb_spec (Z.of_nat (length (union_rows w))) (copy_count w)) as [Hlen|Hlen];
    cbn [negb].
  2:{ split; [discriminate|]. intros (_ & _ & ? & ?). lia. }
  destruct (Z.gtb_spec (Z.of_nat (length (uids_of (union_rows w))) - copy_count w) 0)
    as [Ho|Ho].
  - destruct (has_null (union_rows w)).
    { split; [discriminate|]. intros (_ & ? & _). discriminate. }
    destruct (Z.gtb_spec (gap_count (union_rows w)) 0) as [Hg|Hg].
    + split; [|reflexivity]. intros _. split_and!; [reflexivity..|lia|lia].
    + split; [discriminate|]. intros (_ & _ & ? & _). lia.
  - destruct (gap_count (union_rows w) >? 0);
      (split; [discriminate|]); intros (_ & _ & _ & ?); lia.
Qed.
